(** * nuxt-fontsvar: the font asset pipeline, embedded and verified

    A shallow embedding of the asset resolution and generation pipeline of
    the variable-fonts module:

    - [lib/font-processor.ts]  (class [FontProcessor]),
    - [lib/fallback-metrics.ts] (the metrics table and its lookup),
    - [lib/cache-manager.ts]   (class [CacheManager]),
    - [index.ts]               (the run of the module and its head links),
    - [runtime/plugin.client.ts] and the composable [useVariableFonts]
      (the names of the CSS variables, the variation settings),

    followed by the properties the specification states about them, and
    by further properties that the code has.

    Conventions of the embedding.
    - A JavaScript string is a [string]: a sequence of code units below 256;
      the names the module handles (package names, file names, CSS
      keywords) are ASCII.  The white space class and [toLowerCase] are
      those of JavaScript on these code units.  Hashing and writing take
      one byte for a code unit, which is the UTF-8 form of ASCII text.
    - A JavaScript number that the module uses as an integer (a weight, a
      priority, a time stamp in milliseconds, an axis bound) is a [Z];
      where the code makes a number out of text, the rounding to a double
      is written out.
    - An object that the code changes in place while others hold it (the
      requests of [options.fonts], whose arrays [generateConfigHash]
      sorts) is passed through the functions that change it: they return
      it as the call leaves it, and the callers hand it on to every
      function that holds the same object.
    - An optional property ([weights?: number[]]) is an [option]; [None] is
      [undefined].
    - The file system is a finite map from absolute paths to nodes; code
      that reads or writes it is written in a state-and-exception monad. *)

From Stdlib Require Import ZArith Ascii String List Lia Bool Permutation Sorted.
From Stdlib Require Import DecimalString DecimalZ.
From stdpp Require Import base option list gmap strings.

Local Open Scope string_scope.
Local Open Scope Z_scope.
Local Open Scope list_scope.

(** ** JavaScript strings *)

Module Js.

Definition dquote : ascii := "034"%char.
Definition backslash : ascii := "092"%char.

Definition str (c : ascii) : string := String c EmptyString.

(** The line feed of a template literal. *)
Definition nl : string := str "010"%char.

(** [s.startsWith(p)] *)
Definition startsWith (p s : string) : bool := String.prefix p s.

(** [s.includes(needle)] *)
Fixpoint includes (needle s : string) : bool :=
  String.prefix needle s ||
  match s with
  | EmptyString => false
  | String _ s' => includes needle s'
  end.

Fixpoint drop (n : nat) (s : string) : string :=
  match n, s with
  | O, _ => s
  | S _, EmptyString => EmptyString
  | S n', String _ s' => drop n' s'
  end.

Fixpoint take (n : nat) (s : string) : string :=
  match n, s with
  | O, _ => EmptyString
  | S _, EmptyString => EmptyString
  | S n', String c s' => String c (take n' s')
  end.

(** [s.endsWith(p)] *)
Definition endsWith (p s : string) : bool :=
  (String.length p <=? String.length s)%nat &&
  String.eqb (drop (String.length s - String.length p) s) p.

(** [s.slice(0, -n)] for [n > 0]: all but the last [n] code units. *)
Definition dropEnd (n : nat) (s : string) : string :=
  take (String.length s - n) s.

(** [s.replace(pat, rep)] with a string pattern: only the first occurrence
    is replaced.  (No replacement used by the module contains a dollar
    sign, so replacement patterns play no role.) *)
Fixpoint replace (pat rep s : string) : string :=
  if String.prefix pat s then rep +:+ drop (String.length pat) s
  else match s with
       | EmptyString => EmptyString
       | String c s' => String c (replace pat rep s')
       end.

(** [s.split(sep)] for a one-character separator. *)
Fixpoint split (sep : ascii) (s : string) : list string :=
  match s with
  | EmptyString => [EmptyString]
  | String c s' =>
      if Ascii.eqb c sep then EmptyString :: split sep s'
      else match split sep s' with
           | [] => [str c]
           | p :: ps => String c p :: ps
           end
  end.

(** [l.join(sep)] *)
Fixpoint join (sep : string) (l : list string) : string :=
  match l with
  | [] => EmptyString
  | [x] => x
  | x :: xs => x +:+ sep +:+ join sep xs
  end.

(** The code units below 256 that have a lower-case form: A to Z, and
    U+00C0 to U+00DE without the multiplication sign U+00D7.  The form is
    32 further on. *)
Definition is_upper (c : ascii) : bool :=
  let n := nat_of_ascii c in
  ((65 <=? n) && (n <=? 90) || (192 <=? n) && (n <=? 222) && negb (n =? 215))%nat.

Definition lower_char (c : ascii) : ascii :=
  if is_upper c then ascii_of_nat (nat_of_ascii c + 32) else c.

(** [s.toLowerCase()] *)
Fixpoint toLowerCase (s : string) : string :=
  match s with
  | EmptyString => EmptyString
  | String c s' => String (lower_char c) (toLowerCase s')
  end.

(** The regular-expression class [\s], which is also what [trim] drops
    and [parseInt] skips: white space and line terminators.  Below 256
    these are tab, line feed, vertical tab, form feed, carriage return,
    space and the no-break space U+00A0. *)
Definition is_space (c : ascii) : bool :=
  let n := nat_of_ascii c in ((9 <=? n) && (n <=? 13) || (n =? 32) || (n =? 160))%nat.

(** [s.replace(/\s+/g, rep)]: every maximal run of white space becomes one
    [rep]. *)
Fixpoint replaceSpaceRuns_aux (rep : string) (in_run : bool) (s : string) : string :=
  match s with
  | EmptyString => EmptyString
  | String c s' =>
      if is_space c
      then (if in_run then EmptyString else rep) +:+ replaceSpaceRuns_aux rep true s'
      else String c (replaceSpaceRuns_aux rep false s')
  end.

Definition replaceSpaceRuns (rep s : string) : string :=
  replaceSpaceRuns_aux rep false s.

(** [String(n)] for an integer. *)
Definition ofZ (z : Z) : string := NilEmpty.string_of_int (Z.to_int z).

Definition is_digit (c : ascii) : bool :=
  let n := nat_of_ascii c in ((48 <=? n) && (n <=? 57))%nat.

Definition digit_val (c : ascii) : Z := Z.of_nat (nat_of_ascii c) - 48.

Fixpoint skipSpace (s : string) : string :=
  match s with
  | String c s' => if is_space c then skipSpace s' else s
  | EmptyString => EmptyString
  end.

(** The longest prefix of decimal digits, read as a number; [None] when the
    string does not start with a digit. *)
Fixpoint digits_acc (acc : Z) (s : string) : Z :=
  match s with
  | String c s' => if is_digit c then digits_acc (10 * acc + digit_val c) s' else acc
  | EmptyString => acc
  end.

Definition digits (s : string) : option Z :=
  match s with
  | String c _ => if is_digit c then Some (digits_acc 0 s) else None
  | EmptyString => None
  end.

(** The Number value of a natural number: the nearest double, the one
    with the even mantissa in a tie.  A natural number below 2^53 is a
    double; above, [shift] low bits are rounded away.  (From 2^1024 - 2^970
    on JavaScript has [Infinity], which a [Z] does not hold: the result
    is meant for numbers below, such as those of up to 308 digits.) *)
Definition nearestDouble (v : Z) : Z :=
  if v <? 2 ^ 53 then v
  else
    let shift := Z.log2 v - 52 in
    let mantissa := v / 2 ^ shift in
    let rest := v mod 2 ^ shift in
    let half := 2 ^ (shift - 1) in
    let mantissa :=
      if (half <? rest) || ((rest =? half) && Z.odd mantissa) then mantissa + 1 else mantissa in
    mantissa * 2 ^ shift.

(** The Number value of an integer. *)
Definition toNumber (z : Z) : Z :=
  if z <? 0 then - nearestDouble (- z) else nearestDouble z.

(** [parseInt(s, 10)]: leading white space is skipped, one sign is accepted,
    then the longest run of digits is read, and the result is the Number
    value of the integer they spell; [None] is [NaN].  (For more than
    twenty digits the language leaves the precision to the engine; that
    of Node reads every digit and rounds once, as here.) *)
Definition parseInt (s : string) : option Z :=
  match skipSpace s with
  | String "-" r => (fun v => - nearestDouble v) <$> digits r
  | String "+" r => nearestDouble <$> digits r
  | r => nearestDouble <$> digits r
  end.

(** [a || b] on strings: the empty string is falsy, as is [undefined]. *)
Definition truthy (o : option string) : option string :=
  match o with
  | Some EmptyString => None
  | _ => o
  end.

(** A template literal prints an absent value as [undefined]. *)
Definition show (o : option string) : string :=
  match o with
  | Some s => s
  | None => "undefined"
  end.

(** [s.replace(/\\/g, "/")] *)
Fixpoint backslashesToSlashes (s : string) : string :=
  match s with
  | EmptyString => EmptyString
  | String c s' => String (if Ascii.eqb c backslash then "/"%char else c) (backslashesToSlashes s')
  end.

(** [Array.prototype.sort(cmp)] is stable; for a consistent comparator its
    result is the stable insertion sort: an element moves in front of the
    elements it is strictly smaller than, and stays behind its equals. *)
Section Sort.
Context {A : Type} (cmp : A -> A -> Z).

Fixpoint insert (x : A) (l : list A) : list A :=
  match l with
  | [] => [x]
  | y :: l' => if (0 <? cmp x y)%Z then y :: insert x l' else x :: y :: l'
  end.

Definition sort (l : list A) : list A := fold_right insert [] l.

(** The order a comparator stands for: [a] may come before [b]. *)
Definition cmp_le (a b : A) : Prop := cmp a b <= 0.
End Sort.

(** Comparison of strings by code units, as used by [Array.prototype.sort]
    without a comparator. *)
Definition compareZ (a b : string) : Z :=
  match String.compare a b with Lt => -1 | Eq => 0 | Gt => 1 end.

(** [strings.sort()] and [numbers.sort()]: without a comparator the
    elements are compared as strings. *)
Definition sortStrings (l : list string) : list string := sort compareZ l.
Definition sortNumbers (l : list Z) : list Z :=
  sort (fun a b => compareZ (ofZ a) (ofZ b)) l.

(** [s.trim()]: white space is dropped at both ends. *)
Fixpoint trimEnd (s : string) : string :=
  match s with
  | EmptyString => EmptyString
  | String c s' =>
      match trimEnd s' with
      | EmptyString => if is_space c then EmptyString else str c
      | t => String c t
      end
  end.

Definition trim (s : string) : string := trimEnd (skipSpace s).

(** The lines of a template literal, each closed by its line feed. *)
Fixpoint lines (l : list string) : string :=
  match l with
  | [] => EmptyString
  | x :: rest => x +:+ nl +:+ lines rest
  end.

(** [s.padStart(width, "0")] *)
Definition padStart (width : nat) (s : string) : string :=
  string_of_list_ascii (repeat "0"%char (width - String.length s)) +:+ s.

(** The date of the day [days] after 1 January 1970 in the Gregorian
    calendar: year, month and day of the month. *)
Definition civil (days : Z) : Z * Z * Z :=
  let shifted := days + 719468 in
  let era := shifted / 146097 in
  let dayOfEra := shifted - era * 146097 in
  let yearOfEra :=
    (dayOfEra - dayOfEra / 1460 + dayOfEra / 36524 - dayOfEra / 146096) / 365 in
  let dayOfYear := dayOfEra - (365 * yearOfEra + yearOfEra / 4 - yearOfEra / 100) in
  let marchMonth := (5 * dayOfYear + 2) / 153 in
  let day := dayOfYear - (153 * marchMonth + 2) / 5 + 1 in
  let month := if marchMonth <? 10 then marchMonth + 3 else marchMonth - 9 in
  (if month <=? 2 then yearOfEra + era * 400 + 1 else yearOfEra + era * 400, month, day).

(** [new Date(ms).toISOString()]: the UTC date and time of a time value,
    with four digits for the years 0 to 9999 and a sign and six digits
    outside. *)
Definition toISOString (ms : Z) : string :=
  let rest := ms mod 86400000 in
  match civil (ms / 86400000) with
  | (year, month, day) =>
      (if (0 <=? year) && (year <=? 9999) then padStart 4 (ofZ year)
       else (if year <? 0 then "-" else "+") +:+ padStart 6 (ofZ (Z.abs year)))
      +:+ "-" +:+ padStart 2 (ofZ month) +:+ "-" +:+ padStart 2 (ofZ day)
      +:+ "T" +:+ padStart 2 (ofZ (rest / 3600000))
      +:+ ":" +:+ padStart 2 (ofZ (rest / 60000 mod 60))
      +:+ ":" +:+ padStart 2 (ofZ (rest / 1000 mod 60))
      +:+ "." +:+ padStart 3 (ofZ (rest mod 1000)) +:+ "Z"
  end.

End Js.

(** ** The digests of Node's [crypto] module

    [createHash("sha256")] and [createHash("md5")], each followed by
    [update(data).digest("hex")].  Words are 32-bit integers kept in [Z]
    with the wrap-around written out. *)

Module Crypto.

Definition mask32 (x : Z) : Z := Z.land x 0xffffffff.
Definition add32 (a b : Z) : Z := mask32 (a + b).
Definition not32 (x : Z) : Z := Z.lxor x 0xffffffff.
Definition rotr (n x : Z) : Z := mask32 (Z.lor (Z.shiftr x n) (Z.shiftl x (32 - n))).
Definition rotl (n x : Z) : Z := mask32 (Z.lor (Z.shiftl x n) (Z.shiftr x (32 - n))).

Definition bytes_of (s : string) : list Z :=
  map (fun c => Z.of_nat (nat_of_ascii c)) (list_ascii_of_string s).

Fixpoint chunks (fuel : nat) (n : nat) (l : list Z) : list (list Z) :=
  match fuel with
  | O => []
  | S fuel' =>
      match l with
      | [] => []
      | _ => firstn n l :: chunks fuel' n (skipn n l)
      end
  end.

(** The bytes of [x], least significant first. *)
Fixpoint le_bytes (n : nat) (x : Z) : list Z :=
  match n with
  | O => []
  | S n' => Z.land x 255 :: le_bytes n' (Z.shiftr x 8)
  end.

Definition be_bytes (n : nat) (x : Z) : list Z := rev (le_bytes n x).

Definition be_word (bs : list Z) : Z := fold_left (fun acc b => acc * 256 + b) bs 0.
Definition le_word (bs : list Z) : Z := be_word (rev bs).

(** Message padding: a [0x80] byte, zeros up to 56 modulo 64, then the
    length in bits as a 64-bit integer. *)
Definition pad (len_bytes : nat -> Z -> list Z) (msg : list Z) : list Z :=
  let n := Z.of_nat (length msg) in
  let zeros := Z.to_nat ((55 - n) mod 64) in
  msg ++ 128 :: repeat 0 zeros ++ len_bytes 8%nat (8 * n).

Definition hex_digit (n : Z) : ascii :=
  match String.get (Z.to_nat n) "0123456789abcdef" with
  | Some c => c
  | None => "0"%char
  end.

Definition hex_byte (b : Z) : string :=
  String (hex_digit (Z.shiftr b 4)) (String (hex_digit (Z.land b 15)) EmptyString).

Definition hex_of_bytes (bs : list Z) : string :=
  fold_right (fun b acc => hex_byte b +:+ acc) EmptyString bs.

(** *** SHA-256 *)

(** The round constants are the first 32 bits of the fractional parts of
    the cube roots of the first 64 primes, the initial state those of the
    square roots of the first 8. *)
Definition isPrime (n : Z) : bool :=
  forallb (fun d => negb (n mod Z.of_nat d =? 0)) (seq 2 (Z.to_nat n - 2)).

Definition primes64 : list Z :=
  Eval vm_compute in firstn 64 (List.filter isPrime (map Z.of_nat (seq 2 400))).

(** The integer cube root, by bisection of [lo^3 <= n < hi^3]. *)
Fixpoint cubeRoot (fuel : nat) (lo hi n : Z) : Z :=
  match fuel with
  | O => lo
  | S fuel' =>
      if hi - lo <=? 1 then lo
      else let mid := (lo + hi) / 2 in
           if mid * mid * mid <=? n then cubeRoot fuel' mid hi n
           else cubeRoot fuel' lo mid n
  end.

Definition K256 : list Z :=
  Eval vm_compute in
    map (fun p => mask32 (cubeRoot 64 0 (2 ^ 36) (p * 2 ^ 96))) primes64.

Definition H256 : list Z :=
  Eval vm_compute in
    map (fun p => mask32 (Z.sqrt (p * 2 ^ 64))) (firstn 8 primes64).

(** The sixteen most recent words of the message schedule, oldest first. *)
Definition schedule_next (w : list Z) : list Z :=
  let at_ i := nth i w 0 in
  let s0 := Z.lxor (Z.lxor (rotr 7 (at_ 1%nat)) (rotr 18 (at_ 1%nat))) (Z.shiftr (at_ 1%nat) 3) in
  let s1 := Z.lxor (Z.lxor (rotr 17 (at_ 14%nat)) (rotr 19 (at_ 14%nat))) (Z.shiftr (at_ 14%nat) 10) in
  tl w ++ [add32 (add32 (add32 s1 (at_ 9%nat)) s0) (at_ 0%nat)].

Definition sha256_round (st : list Z * list Z) (k : Z) : list Z * list Z :=
  let '(v, w) := st in
  match v with
  | [a; b; c; d; e; f; g; h] =>
      let S1 := Z.lxor (Z.lxor (rotr 6 e) (rotr 11 e)) (rotr 25 e) in
      let ch := Z.lxor (Z.land e f) (Z.land (not32 e) g) in
      let t1 := add32 (add32 (add32 (add32 h S1) ch) k) (nth 0 w 0) in
      let S0 := Z.lxor (Z.lxor (rotr 2 a) (rotr 13 a)) (rotr 22 a) in
      let maj := Z.lxor (Z.lxor (Z.land a b) (Z.land a c)) (Z.land b c) in
      let t2 := add32 S0 maj in
      ([add32 t1 t2; a; b; c; add32 d t1; e; f; g], schedule_next w)
  | _ => st
  end.

Definition sha256_block (h : list Z) (block : list Z) : list Z :=
  let w := map be_word (chunks 16 4 block) in
  let '(v, _) := fold_left sha256_round K256 (h, w) in
  map (fun p => add32 (fst p) (snd p)) (combine h v).

Definition sha256 (msg : list Z) : list Z :=
  let padded := pad be_bytes msg in
  let h := fold_left sha256_block (chunks (length padded) 64 padded) H256 in
  concat (map (be_bytes 4) h).

Definition sha256_hex (s : string) : string := hex_of_bytes (sha256 (bytes_of s)).

(** *** MD5 *)

Definition T5 : list Z :=
  [ 0xd76aa478; 0xe8c7b756; 0x242070db; 0xc1bdceee; 0xf57c0faf; 0x4787c62a; 0xa8304613; 0xfd469501;
    0x698098d8; 0x8b44f7af; 0xffff5bb1; 0x895cd7be; 0x6b901122; 0xfd987193; 0xa679438e; 0x49b40821;
    0xf61e2562; 0xc040b340; 0x265e5a51; 0xe9b6c7aa; 0xd62f105d; 0x02441453; 0xd8a1e681; 0xe7d3fbc8;
    0x21e1cde6; 0xc33707d6; 0xf4d50d87; 0x455a14ed; 0xa9e3e905; 0xfcefa3f8; 0x676f02d9; 0x8d2a4c8a;
    0xfffa3942; 0x8771f681; 0x6d9d6122; 0xfde5380c; 0xa4beea44; 0x4bdecfa9; 0xf6bb4b60; 0xbebfbc70;
    0x289b7ec6; 0xeaa127fa; 0xd4ef3085; 0x04881d05; 0xd9d4d039; 0xe6db99e5; 0x1fa27cf8; 0xc4ac5665;
    0xf4292244; 0x432aff97; 0xab9423a7; 0xfc93a039; 0x655b59c3; 0x8f0ccc92; 0xffeff47d; 0x85845dd1;
    0x6fa87e4f; 0xfe2ce6e0; 0xa3014314; 0x4e0811a1; 0xf7537e82; 0xbd3af235; 0x2ad7d2bb; 0xeb86d391 ].

Definition S5 : list Z :=
  [ 7; 12; 17; 22; 7; 12; 17; 22; 7; 12; 17; 22; 7; 12; 17; 22;
    5; 9; 14; 20; 5; 9; 14; 20; 5; 9; 14; 20; 5; 9; 14; 20;
    4; 11; 16; 23; 4; 11; 16; 23; 4; 11; 16; 23; 4; 11; 16; 23;
    6; 10; 15; 21; 6; 10; 15; 21; 6; 10; 15; 21; 6; 10; 15; 21 ].

Definition md5_step (m : list Z) (v : list Z) (i : nat) : list Z :=
  match v with
  | [a; b; c; d] =>
      let zi := Z.of_nat i in
      let '(f, g) :=
        if (i <? 16)%nat then (Z.lor (Z.land b c) (Z.land (not32 b) d), zi)
        else if (i <? 32)%nat then (Z.lor (Z.land d b) (Z.land (not32 d) c), (5 * zi + 1) mod 16)
        else if (i <? 48)%nat then (Z.lxor (Z.lxor b c) d, (3 * zi + 5) mod 16)
        else (Z.lxor c (Z.lor b (not32 d)), (7 * zi) mod 16) in
      let f' := add32 (add32 (add32 f a) (nth i T5 0)) (nth (Z.to_nat g) m 0) in
      [d; add32 b (rotl (nth i S5 0) f'); b; c]
  | _ => v
  end.

Definition md5_block (h : list Z) (block : list Z) : list Z :=
  let m := map le_word (chunks 16 4 block) in
  let v := fold_left (md5_step m) (seq 0 64) h in
  map (fun p => add32 (fst p) (snd p)) (combine h v).

Definition md5 (msg : list Z) : list Z :=
  let padded := pad le_bytes msg in
  let h := fold_left md5_block (chunks (length padded) 64 padded)
             [0x67452301; 0xefcdab89; 0x98badcfe; 0x10325476] in
  concat (map (le_bytes 4) h).

Definition md5_hex (s : string) : string := hex_of_bytes (md5 (bytes_of s)).

End Crypto.

(** ** The data model ([types.ts]) *)

Module FontConfig.
Record t := mk {
  package : string;
  family : string;
  variable : bool;
  preload : option bool;
  weights : option (list Z);
  styles : option (list string);
  subsets : option (list string);
  axes : option (list string);
  fallback : option string;
  display : option string;
  unicodeRanges : option (gmap string string);
  priority : option Z
}.
End FontConfig.

Module ModuleOptions.
Record t := mk {
  fonts : list FontConfig.t;
  outputDir : option string;
  cssPath : option string;
  caching : option bool;
  cacheTTL : option Z;
  generateDocs : option bool;
  docsPath : option string;
  preconnect : option bool;
  crossorigin : option string;
  display : option string;
  fallbacks : option bool;
  customProperties : option bool;
  utilities : option bool;
  verbose : option bool
}.
End ModuleOptions.

Module Axis.
Record t := mk { min : Z; max : Z; default : Z }.
End Axis.

Module FontVariation.
Record t := mk {
  axes : option (gmap string Axis.t);
  instances : option (gmap string (gmap string Z))
}.
End FontVariation.

(** [metadata.json] is parsed without validation, and a failed font carries
    the empty object as its metadata: every property may be absent. *)
Module FontMetadata.
Record t := mk {
  family : option string;
  id : option string;
  subsets : option (list string);
  weights : option (list Z);
  styles : option (list string);
  variable : option FontVariation.t;
  unicodeRange : option (gmap string string);
  category : option string;
  lastModified : option string;
  version : option string
}.

(** The object literal [{}]. *)
Definition empty : t := mk None None None None None None None None None None.
End FontMetadata.

(** In a cache snapshot [path] may be absent; the only reader tests
    [file.path && ...], for which the empty string does the same. *)
Module FontFile.
Record t := mk {
  path : string;
  fileName : string;
  subset : string;
  style : string;
  weight : option Z;
  variable : bool;
  url : option string;
  hash : option string;
  size : option Z
}.
End FontFile.

Module ProcessedFont.
Record t := mk {
  config : FontConfig.t;
  metadata : FontMetadata.t;
  files : list FontFile.t;
  errors : list string
}.
End ProcessedFont.

Module CacheEntry.
Record t := mk {
  timestamp : Z;
  configHash : string;
  fonts : list ProcessedFont.t;
  version : string
}.
End CacheEntry.

Module FallbackFontMetrics.
Record t := mk {
  fallback : string;
  sizeAdjust : string;
  ascentOverride : string;
  descentOverride : string;
  lineGapOverride : string
}.
End FallbackFontMetrics.

(** ** The file system and the effects of the module *)

(** A file that holds a JSON document is represented by the document that
    [JSON.parse] returns for it; any other file by its bytes, on which
    [JSON.parse] throws. *)
Inductive FileData :=
  | Bytes (content : string)
  | MetadataJson (m : FontMetadata.t)
  | CacheJson (c : CacheEntry.t).

Inductive Node :=
  | Dir
  | File (data : FileData) (mtime : Z).

(** The state of a run: the file tree under absolute paths, the working
    directory of the process, against which relative paths are resolved,
    and the reading of the clock ([Date.now()], in milliseconds). *)
Record World := mkWorld {
  fs : gmap string Node;
  cwd : string;
  now : Z
}.

Inductive Result (A : Type) :=
  | Ok (a : A)
  | Throw (message : string).
Arguments Ok {A} a.
Arguments Throw {A} message.

(** Computations that read and write the world and may throw.  The world a
    computation has reached when it throws is kept: a copy that was made
    stays made. *)
Definition M (A : Type) : Type := World -> Result A * World.

Definition ret {A} (a : A) : M A := fun w => (Ok a, w).
Definition throw {A} (msg : string) : M A := fun w => (Throw msg, w).
Definition bind {A B} (m : M A) (k : A -> M B) : M B :=
  fun w => match m w with
           | (Ok a, w') => k a w'
           | (Throw e, w') => (Throw e, w')
           end.
(** [try { m } catch (error) { h(error.message) }] *)
Definition try_catch {A} (m : M A) (h : string -> M A) : M A :=
  fun w => match m w with
           | (Ok a, w') => (Ok a, w')
           | (Throw e, w') => h e w'
           end.
Definition get_world : M World := fun w => (Ok w, w).
(** A computation that has no effect. *)
Definition lift {A} (r : Result A) : M A := fun w => (r, w).
Declare Scope M_scope.
Delimit Scope M_scope with M.
Notation "x <- m ;; k" := (bind m (fun x => k))
  (at level 100, m at next level, right associativity) : M_scope.
Notation "m ;;; k" := (bind m (fun _ => k))
  (at level 100, right associativity) : M_scope.
Local Open Scope M_scope.

(** [for (const x of l) body(x)] with an accumulator. *)
Fixpoint forM {A S} (l : list A) (s : S) (body : S -> A -> M S) : M S :=
  match l with
  | [] => ret s
  | x :: l' => s' <- body s x ;; forM l' s' body
  end.

Module Path.

(** [path.join] on segments that need no normalisation: none is empty,
    [.] or [..], and none brings a doubled or a trailing slash, so that
    the result is the segments with a slash between them. *)
Definition join (segments : list string) : string := Js.join "/" segments.

Definition resolve (cwd p : string) : string :=
  if Js.startsWith "/" p then p else cwd +:+ "/" +:+ p.

Fixpoint rev_string_acc (s acc : string) : string :=
  match s with
  | EmptyString => acc
  | String c s' => rev_string_acc s' (String c acc)
  end.
Definition rev_string (s : string) : string := rev_string_acc s EmptyString.

Fixpoint dropWhileSlash (s : string) : string :=
  match s with
  | String "/" s' => dropWhileSlash s'
  | _ => s
  end.

Fixpoint takeUntilSlash (s : string) : string :=
  match s with
  | EmptyString => EmptyString
  | String "/" _ => EmptyString
  | String c s' => String c (takeUntilSlash s')
  end.

(** [path.basename(p)]: trailing slashes are dropped, then everything up to
    the last slash. *)
Definition basename (p : string) : string :=
  rev_string (takeUntilSlash (dropWhileSlash (rev_string p))).

(** Position of the last dot of [s], if any. *)
Fixpoint lastDot_aux (i : nat) (s : string) (found : option nat) : option nat :=
  match s with
  | EmptyString => found
  | String c s' => lastDot_aux (S i) s' (if Ascii.eqb c "." then Some i else found)
  end.
Definition lastDot (s : string) : option nat := lastDot_aux 0 s None.

(** [path.extname(name)] for a name without slashes: from the last dot to
    the end; empty when there is no dot, when the only dot is the first
    character, and for the name [..]. *)
Definition extname (name : string) : string :=
  match lastDot name with
  | None => EmptyString
  | Some O => EmptyString
  | Some i => if String.eqb name ".." then EmptyString else Js.drop i name
  end.

(** [path.dirname(p)] for a path without trailing slash. *)
Definition dirname (p : string) : string :=
  let r := rev_string p in
  let rest := Js.drop (String.length (takeUntilSlash r)) r in
  match rest, rev_string (dropWhileSlash rest) with
  | EmptyString, _ => "."
  | _, EmptyString => "/"
  | _, d => d
  end.

End Path.

(** *** The [glob] package

    The patterns the module builds use [*] (any run of characters inside
    one path segment, not a leading dot) and a bracket class such as
    [[*]]; every other character stands for itself. *)

Module Glob.

Inductive token :=
  | Lit (c : ascii)
  | Star (segment_start : bool)
  | Class (members : list ascii).

(** The members of a bracket class and what follows its closing bracket. *)
Fixpoint class_body (s : string) : option (list ascii * string) :=
  match s with
  | EmptyString => None
  | String "]" rest => Some ([], rest)
  | String c s' =>
      match class_body s' with
      | Some (cs, rest) => Some (c :: cs, rest)
      | None => None
      end
  end.

Fixpoint tokens (fuel : nat) (segment_start : bool) (p : string) : list token :=
  match fuel with
  | O => []
  | S fuel' =>
      match p with
      | EmptyString => []
      | String "*" p' => Star segment_start :: tokens fuel' false p'
      | String "[" p' =>
          match class_body p' with
          | Some (c :: cs, rest) => Class (c :: cs) :: tokens fuel' false rest
          | _ => Lit "[" :: tokens fuel' false p'
          end
      | String c p' => Lit c :: tokens fuel' (Ascii.eqb c "/") p'
      end
  end.

Fixpoint matchTokens (ts : list token) (s : string) : bool :=
  match ts with
  | [] => match s with EmptyString => true | _ => false end
  | Lit c :: ts' =>
      match s with
      | String d s' => Ascii.eqb c d && matchTokens ts' s'
      | EmptyString => false
      end
  | Class cs :: ts' =>
      match s with
      | String d s' => existsb (Ascii.eqb d) cs && negb (Ascii.eqb d "/") && matchTokens ts' s'
      | EmptyString => false
      end
  | Star segment_start :: ts' =>
      if segment_start && Js.startsWith "." s then false
      else (fix star (s : string) : bool :=
              matchTokens ts' s ||
              match s with
              | String d s' => if Ascii.eqb d "/" then false else star s'
              | EmptyString => false
              end) s
  end.

Definition matches (pattern path : string) : bool :=
  matchTokens (tokens (String.length pattern) true pattern) path.

End Glob.

Module Fs.

Definition lookup (w : World) (p : string) : option Node :=
  fs w !! Path.resolve (cwd w) p.

(** [existsSync(p)] *)
Definition existsSync (p : string) : M bool :=
  fun w => (Ok (bool_decide (is_Some (lookup w p))), w).

(** Whether a path holds a regular file. *)
Definition isFile (w : World) (p : string) : Prop :=
  exists d t, lookup w p = Some (File d t).

(** [readFileSync(p)] *)
Definition readFileSync (p : string) : M FileData :=
  fun w => match lookup w p with
           | Some (File d _) => (Ok d, w)
           | Some Dir => (Throw ("EISDIR: illegal operation on a directory, read " +:+ p), w)
           | None => (Throw ("ENOENT: no such file or directory, open " +:+ p), w)
           end.

(** The bytes of a font file.  The serialised text of a JSON document is
    not part of the embedding; reading one as bytes is outside it and is
    made a failure. *)
Definition readBytes (p : string) : M string :=
  d <- readFileSync p ;;
  match d with
  | Bytes b => ret b
  | _ => throw ("not a binary file: " +:+ p)
  end.

Definition sizeOf (n : Node) : Z :=
  match n with
  | File (Bytes b) _ => Z.of_nat (String.length b)
  | _ => 0
  end.

(** [statSync(p).size] and [statSync(p).mtimeMs] *)
Definition statSize (p : string) : M Z :=
  fun w => match lookup w p with
           | Some n => (Ok (sizeOf n), w)
           | None => (Throw ("ENOENT: no such file or directory, stat " +:+ p), w)
           end.

Definition statMtime (p : string) : M Z :=
  fun w => match lookup w p with
           | Some (File _ t) => (Ok t, w)
           | Some Dir => (Ok 0, w)
           | None => (Throw ("ENOENT: no such file or directory, stat " +:+ p), w)
           end.

(** Writing needs the parent directory and must not hit a directory. *)
Definition writeNode (p : string) (d : FileData) : M unit :=
  fun w =>
    let p' := Path.resolve (cwd w) p in
    match fs w !! Path.dirname p', fs w !! p' with
    | Some Dir, Some Dir => (Throw ("EISDIR: illegal operation on a directory, open " +:+ p), w)
    | Some Dir, _ => (Ok tt, mkWorld (<[p' := File d (now w)]> (fs w)) (cwd w) (now w))
    | _, _ => (Throw ("ENOENT: no such file or directory, open " +:+ p), w)
    end.

(** [copyFileSync(src, dest)] *)
Definition copyFileSync (src dest : string) : M unit :=
  d <- readFileSync src ;; writeNode dest d.

(** [glob(pattern)] and [glob.sync(pattern)] for an absolute pattern: the
    paths of the tree that match.  Their order is that of the listing of
    the directories, which the file system decides; the embedding takes
    the order in which the map is enumerated, and no statement below
    relies on which order it is. *)
Definition glob (pattern : string) : M (list string) :=
  fun w => (Ok (filter (fun p => Is_true (Glob.matches pattern p))
                  (fst <$> map_to_list (fs w))), w).

(** [unlinkSync(p)] *)
Definition unlinkSync (p : string) : M unit :=
  fun w =>
    match lookup w p with
    | Some (File _ _) =>
        (Ok tt, mkWorld (delete (Path.resolve (cwd w) p) (fs w)) (cwd w) (now w))
    | Some Dir => (Throw ("EISDIR: illegal operation on a directory, unlink " +:+ p), w)
    | None => (Throw ("ENOENT: no such file or directory, unlink " +:+ p), w)
    end.

End Fs.

(** ** [lib/fallback-metrics.ts]: metrics of the fallback faces *)

Module FallbackMetrics.
Import FallbackFontMetrics.

(** The table [fallbackMetrics]. *)
Definition table : list (string * FallbackFontMetrics.t) :=
  [
    ("Montserrat", mk "Arial, Helvetica Neue, Helvetica, sans-serif" "106.25%" "95%" "23%" "0%");
    ("Montserrat Variable", mk "Arial, Helvetica Neue, Helvetica, sans-serif" "106.25%" "95%" "23%" "0%");
    ("Inter", mk "Arial, Helvetica Neue, Helvetica, sans-serif" "107.5%" "90%" "22.5%" "0%");
    ("Inter Variable", mk "Arial, Helvetica Neue, Helvetica, sans-serif" "107.5%" "90%" "22.5%" "0%");
    ("Roboto", mk "Arial, Helvetica Neue, Helvetica, sans-serif" "100.3%" "92.7%" "24.4%" "0%");
    ("Open Sans", mk "Arial, Helvetica Neue, Helvetica, sans-serif" "104.5%" "93%" "24.3%" "0%");
    ("Open Sans Variable", mk "Arial, Helvetica Neue, Helvetica, sans-serif" "104.5%" "93%" "24.3%" "0%");
    ("Raleway", mk "Arial, Helvetica Neue, Helvetica, sans-serif" "105.2%" "94.2%" "23.1%" "0%");
    ("Raleway Variable", mk "Arial, Helvetica Neue, Helvetica, sans-serif" "105.2%" "94.2%" "23.1%" "0%");
    ("Poppins", mk "Arial, Helvetica Neue, Helvetica, sans-serif" "111.5%" "91%" "21.5%" "0%");
    ("Source Sans Pro", mk "Arial, Helvetica Neue, Helvetica, sans-serif" "101.2%" "91.8%" "23.8%" "0%");
    ("Source Sans 3", mk "Arial, Helvetica Neue, Helvetica, sans-serif" "101.2%" "91.8%" "23.8%" "0%");
    ("Source Sans 3 Variable", mk "Arial, Helvetica Neue, Helvetica, sans-serif" "101.2%" "91.8%" "23.8%" "0%");
    ("Lora", mk "Georgia, Times New Roman, Times, serif" "97.5%" "93%" "25%" "0%");
    ("Lora Variable", mk "Georgia, Times New Roman, Times, serif" "97.5%" "93%" "25%" "0%");
    ("Merriweather", mk "Georgia, Times New Roman, Times, serif" "92.3%" "96.5%" "26.8%" "0%");
    ("Playfair Display", mk "Georgia, Times New Roman, Times, serif" "108.7%" "88%" "22%" "0%");
    ("Playfair Display Variable", mk "Georgia, Times New Roman, Times, serif" "108.7%" "88%" "22%" "0%");
    ("PT Serif", mk "Georgia, Times New Roman, Times, serif" "98.6%" "91.5%" "24.5%" "0%");
    ("Noto Serif", mk "Georgia, Times New Roman, Times, serif" "101.1%" "91%" "24%" "0%");
    ("Crimson Text", mk "Georgia, Times New Roman, Times, serif" "93.8%" "94.5%" "26.2%" "0%");
    ("Fira Code", mk "Courier New, Courier, monospace" "97.5%" "95%" "24%" "0%");
    ("Fira Code Variable", mk "Courier New, Courier, monospace" "97.5%" "95%" "24%" "0%");
    ("JetBrains Mono", mk "Courier New, Courier, monospace" "95.3%" "96.8%" "25.2%" "0%");
    ("JetBrains Mono Variable", mk "Courier New, Courier, monospace" "95.3%" "96.8%" "25.2%" "0%");
    ("Source Code Pro", mk "Courier New, Courier, monospace" "96.8%" "94.2%" "24.8%" "0%");
    ("Source Code Variable", mk "Courier New, Courier, monospace" "96.8%" "94.2%" "24.8%" "0%");
    ("Roboto Mono", mk "Courier New, Courier, monospace" "99.2%" "93.5%" "24.5%" "0%");
    ("IBM Plex Mono", mk "Courier New, Courier, monospace" "98.5%" "94%" "25%" "0%");
    ("Bebas Neue", mk "Arial Narrow, Arial, sans-serif" "119.5%" "82%" "16%" "0%");
    ("Oswald", mk "Arial Narrow, Arial, sans-serif" "105.8%" "92.5%" "20.5%" "0%");
    ("Oswald Variable", mk "Arial Narrow, Arial, sans-serif" "105.8%" "92.5%" "20.5%" "0%");
    ("DM Sans", mk "-apple-system, BlinkMacSystemFont, Segoe UI, Helvetica, Arial, sans-serif" "102.3%" "92%" "24%" "0%");
    ("DM Sans Variable", mk "-apple-system, BlinkMacSystemFont, Segoe UI, Helvetica, Arial, sans-serif" "102.3%" "92%" "24%" "0%");
    ("Work Sans", mk "-apple-system, BlinkMacSystemFont, Segoe UI, Helvetica, Arial, sans-serif" "103.8%" "91.5%" "23.5%" "0%");
    ("Work Sans Variable", mk "-apple-system, BlinkMacSystemFont, Segoe UI, Helvetica, Arial, sans-serif" "103.8%" "91.5%" "23.5%" "0%");
    ("Material Icons", mk "sans-serif" "100%" "normal" "normal" "normal");
    ("Material Icons Rounded", mk "sans-serif" "100%" "normal" "normal" "normal");
    ("Material Symbols Rounded", mk "sans-serif" "100%" "normal" "normal" "normal");
    ("Material Symbols Rounded Variable", mk "sans-serif" "100%" "normal" "normal" "normal");
    ("Font Awesome", mk "sans-serif" "100%" "normal" "normal" "normal") ].

Definition fallbackMetrics : gmap string FallbackFontMetrics.t := list_to_map table.

(** [{ ...m, fallback: customFallback }] *)
Definition withFallback (m : FallbackFontMetrics.t) (customFallback : string) : FallbackFontMetrics.t :=
  mk customFallback (sizeAdjust m) (ascentOverride m) (descentOverride m) (lineGapOverride m).

Definition getFallbackMetricsForFont (fontFamily : string) (customFallback : option string)
  : FallbackFontMetrics.t :=
  match fallbackMetrics !! fontFamily with
  | Some m =>
      match Js.truthy customFallback with
      | Some custom => withFallback m custom
      | None => m
      end
  | None =>
      let baseFamily := Js.replace " Variable" "" fontFamily in
      match fallbackMetrics !! baseFamily with
      | Some m =>
          match Js.truthy customFallback with
          | Some custom => withFallback m custom
          | None => m
          end
      | None =>
          let lowerFamily := Js.toLowerCase fontFamily in
          if Js.includes "mono" lowerFamily || Js.includes "code" lowerFamily then
            mk (default "Courier New, Courier, monospace" (Js.truthy customFallback))
               "98%" "94%" "25%" "0%"
          else if Js.includes "serif" lowerFamily && negb (Js.includes "sans" lowerFamily) then
            mk (default "Georgia, Times New Roman, Times, serif" (Js.truthy customFallback))
               "100%" "92%" "25%" "0%"
          else if Js.includes "icon" lowerFamily || Js.includes "symbols" lowerFamily then
            mk (default "sans-serif" (Js.truthy customFallback))
               "100%" "normal" "normal" "normal"
          else
            mk (default "Arial, Helvetica, sans-serif" (Js.truthy customFallback))
               "100%" "93%" "24%" "0%"
      end
  end.

(** Two results agree on the numeric overrides. *)
Definition sameOverrides (a b : FallbackFontMetrics.t) : Prop :=
  sizeAdjust a = sizeAdjust b /\ ascentOverride a = ascentOverride b /\
  descentOverride a = descentOverride b /\ lineGapOverride a = lineGapOverride b.

End FallbackMetrics.

(** ** [lib/font-processor.ts]: resolving and publishing font files *)

(** What [parseFileName] returns: the properties of a [FontFile] that the
    file name determines. *)
Module FileInfo.
Record t := mk {
  fileName : string;
  subset : string;
  style : string;
  weight : option Z;
  variable : bool
}.
End FileInfo.

Module FontProcessor.

Record t := mk {
  options : ModuleOptions.t;
  projectRoot : string;
  outputDir : string
}.

(** The constructor. *)
Definition new (options : ModuleOptions.t) (projectRoot : string) : t :=
  mk options projectRoot
     (Path.join [projectRoot; default "public/fonts" (Js.truthy (ModuleOptions.outputDir options))]).

(** [matches.sort().pop()] on a non-empty list: the greatest path. *)
Definition lastSorted (l : list string) : option string := last (Js.sortStrings l).

Definition resolvePackagePath (self : t) (packageName : string) : M (option string) :=
  let root := projectRoot self in
  let possiblePaths :=
    [ Path.join [root; "node_modules"; packageName];
      Path.join [root; "node_modules"; ".pnpm"; packageName +:+ "@*"; "node_modules"; packageName] ]
    ++ (if Js.startsWith "@" packageName
        then [ Path.join [root; "node_modules"; ".pnpm";
                          Js.replace "/" "+" packageName +:+ "@*"; "node_modules"; packageName] ]
        else []) in
  forM possiblePaths None (fun found path =>
    match found with
    | Some _ => ret found
    | None =>
        e <- Fs.existsSync path ;;
        if e : bool then ret (Some path)
        else if Js.includes "*" path
             then matches <- Fs.glob path ;; ret (lastSorted matches)
             else ret None
    end).

(** [JSON.parse(readFileSync(p, "utf-8"))] read as font metadata.  A cache
    snapshot is a JSON object too; of the metadata properties it has only
    [version]. *)
Definition readJsonMetadata (p : string) : M FontMetadata.t :=
  d <- Fs.readFileSync p ;;
  match d with
  | MetadataJson m => ret m
  | CacheJson c =>
      ret (FontMetadata.mk None None None None None None None None None
             (Some (CacheEntry.version c)))
  | Bytes _ => throw ("SyntaxError: Unexpected token in JSON: " +:+ p)
  end.

Definition readFontMetadata (packagePath : string) (fontConfig : FontConfig.t)
  : M (option FontMetadata.t) :=
  let metadataPath := Path.join [packagePath; "metadata.json"] in
  e <- Fs.existsSync metadataPath ;;
  if negb e then
    let altPath := Path.join [packagePath; "font-metadata.json"] in
    e' <- Fs.existsSync altPath ;;
    if e' : bool then m <- readJsonMetadata altPath ;; ret (Some m)
    else ret None
  else
    m <- readJsonMetadata metadataPath ;;
    ret (Some
      match FontConfig.unicodeRanges fontConfig with
      | Some ranges =>
          FontMetadata.mk (FontMetadata.family m) (FontMetadata.id m) (FontMetadata.subsets m)
            (FontMetadata.weights m) (FontMetadata.styles m) (FontMetadata.variable m)
            (Some (ranges ∪ default ∅ (FontMetadata.unicodeRange m)))
            (FontMetadata.category m) (FontMetadata.lastModified m) (FontMetadata.version m)
      | None => m
      end).

Definition buildFilePatterns (config : FontConfig.t) (metadata : FontMetadata.t)
    (subsets styles : list string) (weights : list Z) : list string :=
  let patterns :=
    if FontConfig.variable config then
      let axes := default ["wght"] (FontConfig.axes config) in
      if Js.includes "material-symbols" (FontConfig.package config) then
        subset ← subsets; style ← styles;
        [ "*-" +:+ subset +:+ "-full-" +:+ style +:+ ".woff2";
          "*-" +:+ subset +:+ "[*]-" +:+ style +:+ ".woff2" ]
      else
        let axesPattern := Js.join "-" axes in
        subset ← subsets; style ← styles;
        ("*-" +:+ subset +:+ "-" +:+ axesPattern +:+ "-" +:+ style +:+ ".woff2")
        :: (axis ← axes; [ "*-" +:+ subset +:+ "-" +:+ axis +:+ "-" +:+ style +:+ ".woff2" ])
    else
      subset ← subsets; style ← styles;
      (weight ← weights;
         [ "*-" +:+ subset +:+ "-" +:+ Js.ofZ weight +:+ "-" +:+ style +:+ ".woff2" ])
      ++ [ "*-" +:+ subset +:+ "-*-" +:+ style +:+ ".woff2" ] in
  let woffPatterns := map (Js.replace ".woff2" ".woff") patterns in
  patterns ++ woffPatterns.

Definition parseFileName (filePath : string) (config : FontConfig.t) : option FileInfo.t :=
  let fileName := Path.basename filePath in
  let ext := Path.extname fileName in
  if negb (existsb (String.eqb ext) [".woff"; ".woff2"]) then None
  else
    let parts := Js.split "-" (Js.dropEnd (String.length ext) fileName) in
    if (length parts <? 3)%nat then None
    else
      let style := nth (length parts - 1) parts "" in
      let subset := nth (length parts - 3) parts "" in
      let weight :=
        if negb (FontConfig.variable config)
        then Js.parseInt (nth (length parts - 2) parts "")
        else None in
      Some (FileInfo.mk fileName subset style weight (FontConfig.variable config)).

(** The comparator of [files.sort] in [findFontFiles]. *)
Definition compareFiles (a b : FontFile.t) : Z :=
  let latin f := String.eqb (FontFile.subset f) "latin" in
  let normal f := String.eqb (FontFile.style f) "normal" in
  if latin a && negb (latin b) then -1
  else if negb (latin a) && latin b then 1
  else if normal a && negb (normal b) then -1
  else if negb (normal a) && normal b then 1
  else 0.

Definition findFontFiles (packagePath : string) (config : FontConfig.t)
    (metadata : FontMetadata.t) : M (list FontFile.t) :=
  let filesDir := Path.join [packagePath; "files"] in
  e <- Fs.existsSync filesDir ;;
  if negb e then throw ("No files directory found in " +:+ packagePath)
  else
    let subsets := default (default ["latin"] (FontMetadata.subsets metadata)) (FontConfig.subsets config) in
    let styles := default (default ["normal"] (FontMetadata.styles metadata)) (FontConfig.styles config) in
    let weights := default (default [400] (FontMetadata.weights metadata)) (FontConfig.weights config) in
    let patterns := buildFilePatterns config metadata subsets styles weights in
    files <- forM patterns [] (fun files pattern =>
      let globPattern := Js.backslashesToSlashes (Path.join [filesDir; pattern]) in
      foundFiles <- Fs.glob globPattern ;;
      forM foundFiles files (fun files filePath =>
        match parseFileName filePath config with
        | Some fileInfo =>
            size <- Fs.statSize filePath ;;
            ret (files ++ [ FontFile.mk filePath (FileInfo.fileName fileInfo)
                              (FileInfo.subset fileInfo) (FileInfo.style fileInfo)
                              (FileInfo.weight fileInfo) (FileInfo.variable fileInfo)
                              None None (Some size) ])
        | None => ret files
        end)) ;;
    ret (Js.sort compareFiles files).

(** The name under which a file is published. *)
Definition hashedName (family : string) (file : FontFile.t) (hash : string) : string :=
  let safeFamilyName := Js.replaceSpaceRuns "-" (Js.toLowerCase family) in
  safeFamilyName +:+ "-" +:+ FontFile.subset file +:+ "-" +:+ FontFile.style file
    +:+ "-" +:+ hash +:+ Path.extname (FontFile.fileName file).

(** [createHash("md5").update(content).digest("hex").substring(0, 8)] *)
Definition contentHash (content : string) : string := Js.take 8 (Crypto.md5_hex content).

(** The body of the loop of [copyFontFiles]: one file is read, hashed and
    copied, and its record completed with the URL and the hash. *)
Definition copyFontFile (self : t) (family : option string) (file : FontFile.t) : M FontFile.t :=
  content <- Fs.readBytes (FontFile.path file) ;;
  let hash := contentHash content in
  match family with
  | None => throw "Cannot read properties of undefined (reading 'toLowerCase')"
  | Some family =>
      let name := hashedName family file hash in
      let destPath := Path.join [outputDir self; name] in
      Fs.copyFileSync (FontFile.path file) destPath ;;;
      ret (FontFile.mk (FontFile.path file) (FontFile.fileName file)
             (FontFile.subset file) (FontFile.style file)
             (FontFile.weight file) (FontFile.variable file)
             (Some ("/fonts/" +:+ name)) (Some hash) (FontFile.size file))
  end.

Definition copyFontFiles (self : t) (files : list FontFile.t) (family : option string)
  : M (list FontFile.t) :=
  forM files [] (fun copiedFiles file =>
    copied <- copyFontFile self family file ;;
    ret (copiedFiles ++ [copied])).

(** The messages of the three failures that [processFont] raises itself:
    the package is not installed, it has no metadata file, no file matches
    the request. *)
Definition packageNotFound (package : string) : string :=
  "Package " +:+ package +:+ " not found. "
  +:+ "Please install it with: npm install " +:+ package.
Definition metadataMissing (package : string) : string :=
  "No metadata found for " +:+ package.
Definition noFilesFound (package : string) : string :=
  "No font files found for " +:+ package
  +:+ " with the specified configuration. "
  +:+ "Check your subsets, styles, and axes settings.".

Definition processFont (self : t) (fontConfig : FontConfig.t) : M ProcessedFont.t :=
  let package := FontConfig.package fontConfig in
  packagePath <- resolvePackagePath self package ;;
  match packagePath with
  | None => throw (packageNotFound package)
  | Some packagePath =>
      metadata <- readFontMetadata packagePath fontConfig ;;
      match metadata with
      | None => throw (metadataMissing package)
      | Some metadata =>
          fontFiles <- findFontFiles packagePath fontConfig metadata ;;
          if (length fontFiles =? 0)%nat
          then throw (noFilesFound package)
          else
            copiedFiles <- copyFontFiles self fontFiles (FontMetadata.family metadata) ;;
            ret (ProcessedFont.mk fontConfig metadata copiedFiles [])
      end
  end.

(** The comparator of the priority sort: [(b.priority || 0) - (a.priority || 0)]. *)
Definition comparePriority (a b : FontConfig.t) : Z :=
  default 0 (FontConfig.priority b) - default 0 (FontConfig.priority a).

Definition processAll (self : t) : M (list ProcessedFont.t) :=
  let sortedFonts := Js.sort comparePriority (ModuleOptions.fonts (options self)) in
  forM sortedFonts [] (fun processedFonts fontConfig =>
    try_catch
      (result <- processFont self fontConfig ;; ret (processedFonts ++ [result]))
      (fun message =>
         ret (processedFonts ++ [ ProcessedFont.mk fontConfig FontMetadata.empty [] [message] ]))).

(** *** The face declarations of the style sheet

    [generateCSS] joins a header, the output of [generateFontFaces], the
    custom properties, the utility classes and a closing comment.  Only
    [generateFontFaces] emits face declarations. *)

Definition predefinedRanges (subset : string) : option string :=
  if String.eqb subset "latin" then
    Some "U+0000-00FF, U+0131, U+0152-0153, U+02BB-02BC, U+02C6, U+02DA, U+02DC, U+0304, U+0308, U+0329, U+2000-206F, U+2074, U+20AC, U+2122, U+2191, U+2193, U+2212, U+2215, U+FEFF, U+FFFD"
  else if String.eqb subset "latin-ext" then
    Some "U+0100-02AF, U+0304, U+0308, U+0329, U+1E00-1E9F, U+1EF2-1EFF, U+2020, U+20A0-20AB, U+20AD-20C0, U+2113, U+2C60-2C7F, U+A720-A7FF"
  else if String.eqb subset "cyrillic" then
    Some "U+0301, U+0400-045F, U+0490-0491, U+04B0-04B1, U+2116"
  else if String.eqb subset "cyrillic-ext" then
    Some "U+0460-052F, U+1C80-1C88, U+20B4, U+2DE0-2DFF, U+A640-A69F, U+FE2E-FE2F"
  else if String.eqb subset "greek" then
    Some "U+0370-0377, U+037A-037F, U+0384-038A, U+038C, U+038E-03A1, U+03A3-03FF"
  else if String.eqb subset "greek-ext" then
    Some "U+1F00-1FFF"
  else if String.eqb subset "vietnamese" then
    Some "U+0102-0103, U+0110-0111, U+0128-0129, U+0168-0169, U+01A0-01A1, U+01AF-01B0, U+0300-0301, U+0303-0304, U+0308-0309, U+0323, U+0329, U+1EA0-1EF9, U+20AB"
  else if String.eqb subset "arabic" then
    Some "U+0600-06FF, U+200C-200E, U+2010-2011, U+204F, U+2E41, U+FB50-FDFF, U+FE80-FEFC"
  else if String.eqb subset "hebrew" then
    Some "U+0590-05FF, U+200C-2010, U+20AA, U+25CC, U+FB1D-FB4F"
  else if String.eqb subset "thai" then
    Some "U+0E01-0E5B, U+200C-200D, U+2013-2014, U+2018-2019, U+201C-201D, U+2022, U+2026, U+2039-203A, U+2060, U+2066-2069, U+207F, U+20A8, U+2219, U+25CC"
  else None.

Definition getUnicodeRange (metadata : FontMetadata.t) (subset : string) : option string :=
  match Js.truthy (FontMetadata.unicodeRange metadata ≫= (fun ranges => ranges !! subset)) with
  | Some range => Some range
  | None => predefinedRanges subset
  end.

Definition wghtAxis (metadata : FontMetadata.t) : option Axis.t :=
  (FontMetadata.variable metadata ≫= FontVariation.axes) ≫= (fun axes => axes !! "wght").

Definition generateSingleFontFace (self : t) (font : ProcessedFont.t) (file : FontFile.t) : string :=
  let config := ProcessedFont.config font in
  let metadata := ProcessedFont.metadata font in
  let display :=
    default (default "swap" (Js.truthy (ModuleOptions.display (options self))))
            (Js.truthy (FontConfig.display config)) in
  let isIcon := Js.includes "icon" (FontConfig.package config)
                || Js.includes "symbols" (FontConfig.package config) in
  let weightLine :=
    match (if FontConfig.variable config then wghtAxis metadata else None) with
    | Some axis =>
        "  font-weight: " +:+ Js.ofZ (Axis.min axis) +:+ " " +:+ Js.ofZ (Axis.max axis) +:+ ";" +:+ Js.nl
    | None =>
        match FontFile.weight file with
        | Some w => if w =? 0 then "  font-weight: 400;" +:+ Js.nl
                    else "  font-weight: " +:+ Js.ofZ w +:+ ";" +:+ Js.nl
        | None => "  font-weight: 400;" +:+ Js.nl
        end
    end in
  let format := if Js.endsWith ".woff2" (FontFile.fileName file) then "woff2" else "woff" in
  let formatHint := if FontConfig.variable config then format +:+ "-variations" else format in
  "@font-face {" +:+ Js.nl
  +:+ "  font-family: '" +:+ Js.show (FontMetadata.family metadata) +:+ "';" +:+ Js.nl
  +:+ "  font-style: " +:+ FontFile.style file +:+ ";" +:+ Js.nl
  +:+ "  font-display: " +:+ (if isIcon then "block" else display) +:+ ";" +:+ Js.nl
  +:+ weightLine
  +:+ "  src: url('" +:+ Js.show (FontFile.url file) +:+ "') format('" +:+ formatHint +:+ "');" +:+ Js.nl
  +:+ match getUnicodeRange metadata (FontFile.subset file) with
      | Some unicodeRange => "  unicode-range: " +:+ unicodeRange +:+ ";" +:+ Js.nl
      | None => ""
      end
  +:+ "}" +:+ Js.nl +:+ Js.nl.

(** The private method [getFallbackMetrics], the lookup the style sheet
    uses. *)
Definition getFallbackMetrics (family : string) (customFallback : option string)
  : FallbackFontMetrics.t :=
  match FallbackMetrics.fallbackMetrics !! family with
  | Some m => m
  | None =>
      let category :=
        if Js.includes "serif" (Js.toLowerCase family) then "serif" else "sans-serif" in
      FallbackFontMetrics.mk
        (default (if String.eqb category "serif" then "Georgia, serif" else "Arial, sans-serif")
                 (Js.truthy customFallback))
        "100%" "normal" "normal" "0%"
  end.

Definition generateFallbackFont (font : ProcessedFont.t) : Result string :=
  match FontMetadata.family (ProcessedFont.metadata font) with
  | None => Throw "Cannot read properties of undefined (reading 'toLowerCase')"
  | Some family =>
      let metrics := getFallbackMetrics family (FontConfig.fallback (ProcessedFont.config font)) in
      Ok ("/* Fallback font for " +:+ family +:+ " */" +:+ Js.nl
          +:+ "@font-face {" +:+ Js.nl
          +:+ "  font-family: '" +:+ family +:+ " Fallback';" +:+ Js.nl
          +:+ "  src: local('" +:+ FallbackFontMetrics.fallback metrics +:+ "');" +:+ Js.nl
          +:+ "  size-adjust: " +:+ FallbackFontMetrics.sizeAdjust metrics +:+ ";" +:+ Js.nl
          +:+ "  ascent-override: " +:+ FallbackFontMetrics.ascentOverride metrics +:+ ";" +:+ Js.nl
          +:+ "  descent-override: " +:+ FallbackFontMetrics.descentOverride metrics +:+ ";" +:+ Js.nl
          +:+ "  line-gap-override: " +:+ FallbackFontMetrics.lineGapOverride metrics +:+ ";" +:+ Js.nl
          +:+ "}" +:+ Js.nl +:+ Js.nl)
  end.

Definition isTrue (o : option bool) : bool := default false o.

Fixpoint generateFontFaces_from (self : t) (css : string) (results : list ProcessedFont.t)
  : Result string :=
  match results with
  | [] => Ok css
  | font :: rest =>
      match ProcessedFont.errors font with
      | _ :: _ =>
          generateFontFaces_from self
            (css +:+ "/* Error processing " +:+ FontConfig.family (ProcessedFont.config font)
                 +:+ ": " +:+ Js.join ", " (ProcessedFont.errors font) +:+ " */" +:+ Js.nl +:+ Js.nl)
            rest
      | [] =>
          let css1 :=
            css +:+ "/* " +:+ Js.show (FontMetadata.family (ProcessedFont.metadata font))
                +:+ " - " +:+ FontConfig.package (ProcessedFont.config font) +:+ " */" +:+ Js.nl in
          let css2 :=
            fold_left (fun acc file => acc +:+ generateSingleFontFace self font file)
                      (ProcessedFont.files font) css1 in
          if isTrue (ModuleOptions.fallbacks (options self))
             && FontConfig.variable (ProcessedFont.config font)
          then match generateFallbackFont font with
               | Ok fallbackCss => generateFontFaces_from self (css2 +:+ fallbackCss +:+ Js.nl) rest
               | Throw e => Throw e
               end
          else generateFontFaces_from self (css2 +:+ Js.nl) rest
      end
  end.

Definition generateFontFaces (self : t) (results : list ProcessedFont.t) : Result string :=
  generateFontFaces_from self "" results.

(** *** The rest of the style sheet

    The header, the custom properties, the utility classes of Material
    Symbols and the closing comment, and [generateCSS], which joins them
    with the face declarations. *)

Definition generateHeader : M string :=
  w <- get_world ;;
  ret (Js.lines
         [ "/* Generated by Nuxt Variable Fonts Module */";
           "/* Do not edit this file directly - it will be overwritten */";
           "/* Generated at: " +:+ Js.toISOString (now w) +:+ " */";
           "" ]).

(** [axis?.default || fallback]: an absent axis and the default [0] both
    give the fallback. *)
Definition defaultOr (axis : option Axis.t) (fallback : Z) : Z :=
  match axis with
  | Some a => if Axis.default a =? 0 then fallback else Axis.default a
  | None => fallback
  end.

Definition generateMaterialSymbolsUtilities (font : ProcessedFont.t) : Result string :=
  match FontMetadata.family (ProcessedFont.metadata font) with
  | None => Throw "Cannot read properties of undefined (reading 'toLowerCase')"
  | Some family =>
      let familyClass := Js.replaceSpaceRuns "-" (Js.toLowerCase family) in
      let axes := default ∅ (FontMetadata.variable (ProcessedFont.metadata font)
                              ≫= FontVariation.axes) in
      let FILL := axes !! "FILL" in
      let wght := axes !! "wght" in
      let GRAD := axes !! "GRAD" in
      let opsz := axes !! "opsz" in
      let setting (name : string) (axis : option Axis.t) : list string :=
        match axis with
        | Some a => [ "'" +:+ name +:+ "' " +:+ Js.ofZ (Axis.default a) ]
        | None => []
        end in
      let defaultSettings :=
        setting "FILL" FILL ++ setting "wght" wght ++ setting "GRAD" GRAD ++ setting "opsz" opsz in
      let weights :=
        [ ("thin", 100); ("light", 300); ("regular", 400); ("medium", 500); ("bold", 700) ] in
      let sizes := [20; 24; 40; 48] in
      Ok (Js.lines
            [ "/* Material Symbols Utilities */";
              "." +:+ familyClass +:+ " {";
              "  font-family: var(--font-" +:+ familyClass +:+ ");";
              "  font-weight: normal;";
              "  font-style: normal;";
              "  font-size: 24px;";
              "  line-height: 1;";
              "  letter-spacing: normal;";
              "  text-transform: none;";
              "  display: inline-block;";
              "  white-space: nowrap;";
              "  word-wrap: normal;";
              "  direction: ltr;";
              "  -webkit-font-smoothing: antialiased;";
              "  -moz-osx-font-smoothing: grayscale;";
              "  text-rendering: optimizeLegibility;";
              "  font-feature-settings: 'liga';" ]
          +:+ match defaultSettings with
              | [] => ""
              | _ => Js.lines [ "  font-variation-settings: " +:+ Js.join ", " defaultSettings +:+ ";" ]
              end
          +:+ Js.lines [ "}"; "" ]
          +:+ match FILL with
              | Some _ =>
                  Js.lines
                    [ "." +:+ familyClass +:+ ".filled {";
                      "  font-variation-settings: 'FILL' 1, 'wght' " +:+ Js.ofZ (defaultOr wght 400)
                        +:+ ", 'GRAD' " +:+ Js.ofZ (defaultOr GRAD 0)
                        +:+ ", 'opsz' " +:+ Js.ofZ (defaultOr opsz 24) +:+ ";";
                      "}";
                      "" ]
              | None => ""
              end
          +:+ fold_left
                (fun css '(name, value) =>
                   css +:+ Js.lines
                     [ "." +:+ familyClass +:+ "." +:+ name +:+ " {";
                       "  font-variation-settings: 'FILL' " +:+ Js.ofZ (defaultOr FILL 0)
                         +:+ ", 'wght' " +:+ Js.ofZ value
                         +:+ ", 'GRAD' " +:+ Js.ofZ (defaultOr GRAD 0)
                         +:+ ", 'opsz' " +:+ Js.ofZ (defaultOr opsz 24) +:+ ";";
                       "}";
                       "" ])
                weights ""
          +:+ fold_left
                (fun css size =>
                   css +:+ Js.lines
                     [ "." +:+ familyClass +:+ ".size-" +:+ Js.ofZ size +:+ " {";
                       "  font-size: " +:+ Js.ofZ size +:+ "px;";
                       "  font-variation-settings: 'FILL' " +:+ Js.ofZ (defaultOr FILL 0)
                         +:+ ", 'wght' " +:+ Js.ofZ (defaultOr wght 400)
                         +:+ ", 'GRAD' " +:+ Js.ofZ (defaultOr GRAD 0)
                         +:+ ", 'opsz' " +:+ Js.ofZ size +:+ ";";
                       "}";
                       "" ])
                sizes "")
  end.

(** The first entry of a Material Symbols package, failed or not, gets the
    utility classes. *)
Definition generateUtilities (results : list ProcessedFont.t) : Result string :=
  match List.find (fun r => Js.includes "material-symbols"
                              (FontConfig.package (ProcessedFont.config r))) results with
  | Some materialSymbols => generateMaterialSymbolsUtilities materialSymbols
  | None => Ok ""
  end.

Definition generatePerformanceHints : string :=
  Js.lines
    [ "/* Performance Optimization Tips:";
      " * - Critical fonts are preloaded automatically";
      " * - Fonts are served with immutable cache headers";
      " * - Variable fonts reduce total file size";
      " * - Fallback fonts minimize layout shift";
      " * - Unicode ranges enable progressive loading";
      " */" ]
.

(** [Object.entries(axes)] and [Object.keys(axes)] list the axes in the
    order in which the metadata document has them.  The finite map keeps
    no order; the enumeration is a parameter of what follows. *)
Section WithPropertyOrder.

Variable entries : gmap string Axis.t -> list (string * Axis.t).

Fixpoint generateCustomProperties_from (self : t) (css : string)
    (results : list ProcessedFont.t) : Result string :=
  match results with
  | [] => Ok (css +:+ Js.lines [ "}"; "" ])
  | font :: rest =>
      match ProcessedFont.errors font with
      | _ :: _ => generateCustomProperties_from self css rest
      | [] =>
          match FontMetadata.family (ProcessedFont.metadata font) with
          | None => Throw "Cannot read properties of undefined (reading 'toLowerCase')"
          | Some family =>
              let config := ProcessedFont.config font in
              let varName := Js.replaceSpaceRuns "-" (Js.toLowerCase family) in
              let fallback :=
                if FontConfig.variable config && isTrue (ModuleOptions.fallbacks (options self))
                then ", '" +:+ family +:+ " Fallback'" else "" in
              let genericFallback :=
                default (if Js.includes "serif" (Js.toLowerCase family)
                         then ", serif" else ", sans-serif")
                        (Js.truthy (FontConfig.fallback config)) in
              let css1 :=
                css +:+ "  --font-" +:+ varName +:+ ": '" +:+ family +:+ "'"
                    +:+ fallback +:+ genericFallback +:+ ";" +:+ Js.nl in
              let axes :=
                if FontConfig.variable config
                then FontMetadata.variable (ProcessedFont.metadata font) ≫= FontVariation.axes
                else None in
              let css2 :=
                match axes with
                | Some axes =>
                    fold_left
                      (fun css '(axis, values) =>
                         css +:+ Js.lines
                           [ "  --font-" +:+ varName +:+ "-" +:+ axis +:+ "-min: "
                               +:+ Js.ofZ (Axis.min values) +:+ ";";
                             "  --font-" +:+ varName +:+ "-" +:+ axis +:+ "-max: "
                               +:+ Js.ofZ (Axis.max values) +:+ ";";
                             "  --font-" +:+ varName +:+ "-" +:+ axis +:+ "-default: "
                               +:+ Js.ofZ (Axis.default values) +:+ ";" ])
                      (entries axes) css1
                | None => css1
                end in
              generateCustomProperties_from self css2 rest
          end
      end
  end.

Definition generateCustomProperties (self : t) (results : list ProcessedFont.t)
  : Result string :=
  generateCustomProperties_from self
    (Js.lines [ "/* CSS Custom Properties */"; ":root {" ]) results.

(** [sections.filter(Boolean).join("\n")]: the empty sections are left
    out. *)
Definition generateCSS (self : t) (results : list ProcessedFont.t) : M string :=
  header <- generateHeader ;;
  fontFaces <- lift (generateFontFaces self results) ;;
  customProperties <-
    (if isTrue (ModuleOptions.customProperties (options self))
     then lift (generateCustomProperties self results) else ret "") ;;
  utilities <-
    (if isTrue (ModuleOptions.utilities (options self))
     then lift (generateUtilities results) else ret "") ;;
  let sections :=
    [ header; fontFaces; customProperties; utilities; generatePerformanceHints ] in
  ret (Js.join Js.nl (filter (fun s => s <> "") sections)).

(** *** The documentation file *)

Definition generateDocHeader : M string :=
  w <- get_world ;;
  ret (Js.lines
         [ "# Variable Fonts Documentation";
           "";
           "Generated by Nuxt Variable Fonts Module";
           "Last updated: " +:+ Js.toISOString (now w);
           "" ]).

(** [x.toFixed(1)] for the quotient [x] of a byte count by a power of
    two.  On an integer below 2^53 such a division is exact, and the
    result is the decimal with one fractional digit nearest to the
    quotient, the greater one in a tie. *)
Definition toFixed1 (bytes divisor : Z) : string :=
  let tenths := (20 * bytes + divisor) / (2 * divisor) in
  Js.ofZ (tenths / 10) +:+ "." +:+ Js.ofZ (tenths mod 10).

Definition formatFileSize (bytes : Z) : string :=
  if bytes <? 1024 then Js.ofZ bytes +:+ " B"
  else if bytes <? 1024 * 1024 then toFixed1 bytes 1024 +:+ " KB"
  else toFixed1 bytes (1024 * 1024) +:+ " MB".

(** The marks of the overview are the UTF-8 forms of U+274C and U+2705,
    as they are written to the file. *)
Fixpoint generateDocOverview_from (doc : string) (results : list ProcessedFont.t) : string :=
  match results with
  | [] => doc
  | font :: rest =>
      let config := ProcessedFont.config font in
      let metadata := ProcessedFont.metadata font in
      match ProcessedFont.errors font with
      | _ :: _ =>
          generateDocOverview_from
            (doc +:+ "- ❌ **" +:+ FontConfig.family config +:+ "** - Failed to process: "
                 +:+ Js.join ", " (ProcessedFont.errors font) +:+ Js.nl)
            rest
      | [] =>
          let files := ProcessedFont.files font in
          let axes :=
            if FontConfig.variable config
            then FontMetadata.variable metadata ≫= FontVariation.axes else None in
          generateDocOverview_from
            (doc
             +:+ Js.lines
                   [ "- ✅ **" +:+ Js.show (FontMetadata.family metadata) +:+ "**";
                     "  - Package: `" +:+ FontConfig.package config +:+ "`";
                     "  - Type: " +:+ (if FontConfig.variable config then "Variable" else "Static")
                       +:+ " Font";
                     "  - Files: " +:+ Js.ofZ (Z.of_nat (length files)) +:+ " variants";
                     "  - Size: "
                       +:+ formatFileSize
                             (fold_left (fun sum f => sum + default 0 (FontFile.size f)) files 0) ]
             +:+ match axes with
                 | Some axes =>
                     Js.lines [ "  - Variable Axes: " +:+ Js.join ", " (map fst (entries axes)) ]
                 | None => ""
                 end
             +:+ Js.nl)
            rest
      end
  end.

Definition generateDocOverview (results : list ProcessedFont.t) : string :=
  generateDocOverview_from
    (Js.lines
       [ "## Overview";
         "";
         "This project uses " +:+ Js.ofZ (Z.of_nat (length results))
           +:+ " font families with optimized loading and caching strategies.";
         "";
         "### Installed Fonts";
         "" ])
    results.

Fixpoint generateDocUsage_from (doc : string) (results : list ProcessedFont.t)
  : Result string :=
  match results with
  | [] => Ok doc
  | font :: rest =>
      match ProcessedFont.errors font with
      | _ :: _ => generateDocUsage_from doc rest
      | [] =>
          match FontMetadata.family (ProcessedFont.metadata font) with
          | None => Throw "Cannot read properties of undefined (reading 'toLowerCase')"
          | Some family =>
              let config := ProcessedFont.config font in
              let varName := Js.replaceSpaceRuns "-" (Js.toLowerCase family) in
              let wght :=
                if FontConfig.variable config then wghtAxis (ProcessedFont.metadata font)
                else None in
              generateDocUsage_from
                (doc
                 +:+ Js.lines
                       [ "#### " +:+ family;
                         "";
                         "```css";
                         ".my-text {";
                         "  font-family: var(--font-" +:+ varName +:+ ");" ]
                 +:+ match wght with
                     | Some axis =>
                         Js.lines
                           [ "  /* Variable weight: " +:+ Js.ofZ (Axis.min axis) +:+ " to "
                               +:+ Js.ofZ (Axis.max axis) +:+ " */";
                             "  font-weight: 600;";
                             "  ";
                             "  /* Or use variation settings */";
                             "  font-variation-settings: 'wght' 650;" ]
                     | None => ""
                     end
                 +:+ Js.lines [ "}"; "```"; "" ]
                 +:+ (if Js.includes "material-symbols" (FontConfig.package config)
                      then
                        Js.lines
                          [ "##### Icon Usage";
                            "";
                            "```vue";
                            "<template>";
                            "  <!-- Basic icon -->";
                            "  <span class=" +:+ Js.str Js.dquote +:+ varName +:+ Js.str Js.dquote
                              +:+ ">home</span>";
                            "  ";
                            "  <!-- Filled variant -->";
                            "  <span class=" +:+ Js.str Js.dquote +:+ varName +:+ " filled"
                              +:+ Js.str Js.dquote +:+ ">favorite</span>";
                            "  ";
                            "  <!-- Custom size and weight -->";
                            "  <span class=" +:+ Js.str Js.dquote +:+ varName +:+ " bold size-48"
                              +:+ Js.str Js.dquote +:+ ">star</span>";
                            "</template>";
                            "```";
                            "" ]
                      else ""))
                rest
          end
      end
  end.

Definition generateDocUsage (results : list ProcessedFont.t) : Result string :=
  generateDocUsage_from
    (Js.lines
       [ "## Usage Examples";
         "";
         "### Using CSS Variables";
         "";
         "The module generates CSS custom properties for each font family:";
         "";
         "```css";
         ".my-heading {";
         "  font-family: var(--font-montserrat);";
         "}";
         "```";
         "";
         "### Using the Composable";
         "";
         "You can also use the `useVariableFonts` composable in your Vue components:";
         "";
         "```vue";
         "<script setup>";
         "const fonts = useVariableFonts()";
         "";
         "// Get all available font families";
         "console.log(fonts.families)";
         "";
         "// Apply font to an element";
         "onMounted(() => {";
         "  const element = document.querySelector('.dynamic-text')";
         "  fonts.applyFont(element, {";
         "    family: 'montserrat',";
         "    weight: 600,";
         "    variationSettings: { wght: 650 }";
         "  })";
         "})";
         "</script>";
         "```";
         "";
         "### Font-Specific Examples";
         "" ]
    )
    results.

Definition generateDocConfiguration : string :=
  Js.lines
    [ "## Configuration";
      "";
      "### Module Options";
      "";
      "Configure the module in your `nuxt.config.ts`:";
      "";
      "```typescript";
      "export default defineNuxtConfig({";
      "  modules: ['~/modules/variable-fonts'],";
      "";
      "  variableFonts: {";
      "    fonts: [";
      "      {";
      "        package: '@fontsource-variable/montserrat',";
      "        family: 'Montserrat',";
      "        variable: true,";
      "        preload: true,";
      "        weights: [400, 700],";
      "        styles: ['normal'],";
      "        subsets: ['latin'],";
      "        axes: ['wght']";
      "      }";
      "    ],";
      "";
      "    // Optional settings";
      "    outputDir: 'public/fonts',";
      "    cssPath: 'assets/css/variable-fonts.css',";
      "    caching: true,";
      "    cacheTTL: 86400000, // 24 hours";
      "    generateDocs: true,";
      "    verbose: false";
      "  }";
      "})";
      "```";
      "";
      "### Font Configuration Options";
      "";
      "Each font can be configured with:";
      "";
      "- `package`: NPM package name (required)";
      "- `family`: Font family name (required)";
      "- `variable`: Whether it's a variable font (required)";
      "- `preload`: Preload for critical rendering path";
      "- `weights`: Array of weights to include";
      "- `styles`: Array of styles ('normal', 'italic')";
      "- `subsets`: Character subsets to include";
      "- `axes`: Variable font axes to support";
      "- `priority`: Loading priority (higher loads first)";
      "- `display`: Font-display strategy";
      "- `fallback`: Custom fallback fonts";
      "" ]
.

Definition generateDocTroubleshooting : string :=
  Js.lines
    [ "## Troubleshooting";
      "";
      "### Common Issues";
      "";
      "1. **Font not found**: Ensure the package is installed:";
      "   ```bash";
      "   npm install @fontsource-variable/your-font";
      "   ```";
      "";
      "2. **No font files copied**: Check your configuration matches available files:";
      "   - Verify subsets, styles, and axes match what's in the package";
      "   - Enable verbose logging to see detailed errors";
      "";
      "3. **Fonts not loading**: Check browser console for 404 errors:";
      "   - Ensure `outputDir` matches your static file serving configuration";
      "   - Check that font files were copied to the output directory";
      "";
      "4. **Variable font features not working**: Ensure you're using a browser that supports variable fonts";
      "   - Check caniuse.com for browser compatibility";
      "   - Use fallback fonts for older browsers";
      "";
      "### Debug Mode";
      "";
      "Enable verbose logging for detailed information:";
      "";
      "```typescript";
      "variableFonts: {";
      "  verbose: true,";
      "  // ... other options";
      "}";
      "```";
      "" ]
.

Definition generateDocAPI : string :=
  Js.lines
    [ "## API Reference";
      "";
      "### Composables";
      "";
      "#### `useVariableFonts()`";
      "";
      "Returns an object with:";
      "";
      "- `families`: Array of available font family names";
      "- `getVariable(family)`: Get CSS variable name for a font";
      "- `applyFont(element, config)`: Apply font settings to an element";
      "";
      "### CSS Variables";
      "";
      "The module generates the following CSS variables:";
      "";
      "- `--font-[family-name]`: Font family with fallbacks";
      "- `--font-[family-name]-[axis]-min`: Minimum axis value";
      "- `--font-[family-name]-[axis]-max`: Maximum axis value";
      "- `--font-[family-name]-[axis]-default`: Default axis value";
      "";
      "### Runtime API";
      "";
      "The module provides a runtime API through `$fonts`:";
      "";
      "```typescript";
      "// In your app";
      "const { $fonts } = useNuxtApp()";
      "";
      "// Get font information";
      "$fonts.families // Array of font families";
      "$fonts.getVariable('montserrat') // Returns '--font-montserrat'";
      "```";
      "" ]
.

Definition generateDocumentation (results : list ProcessedFont.t) : M string :=
  header <- generateDocHeader ;;
  usage <- lift (generateDocUsage results) ;;
  let sections :=
    [ header; generateDocOverview results; usage; generateDocConfiguration;
      generateDocTroubleshooting; generateDocAPI ] in
  ret (Js.join Js.nl sections).

End WithPropertyOrder.

End FontProcessor.

(** ** [JSON.stringify] on the values the cache manager hashes *)

Module Json.

Definition hexDigitUpto15 (n : nat) : ascii :=
  match String.get n "0123456789abcdef" with
  | Some c => c
  | None => "0"%char
  end.

(** [QuoteJSONString] on one code unit. *)
Definition escapeChar (c : ascii) : string :=
  let n := nat_of_ascii c in
  if Ascii.eqb c Js.dquote then String Js.backslash (Js.str Js.dquote)
  else if Ascii.eqb c Js.backslash then String Js.backslash (Js.str Js.backslash)
  else if (n =? 8)%nat then String Js.backslash "b"
  else if (n =? 9)%nat then String Js.backslash "t"
  else if (n =? 10)%nat then String Js.backslash "n"
  else if (n =? 12)%nat then String Js.backslash "f"
  else if (n =? 13)%nat then String Js.backslash "r"
  else if (n <? 32)%nat then
    String Js.backslash
      (String "u" (String "0" (String "0"
         (String (hexDigitUpto15 (n / 16)) (Js.str (hexDigitUpto15 (n mod 16)))))))
  else Js.str c.

Fixpoint escape (s : string) : string :=
  match s with
  | EmptyString => EmptyString
  | String c s' => escapeChar c +:+ escape s'
  end.

Definition quote (s : string) : string :=
  String Js.dquote (escape s +:+ Js.str Js.dquote).

Definition boolean (b : bool) : string := if b then "true" else "false".

Definition number (z : Z) : string := Js.ofZ z.

Definition array (items : list string) : string := "[" +:+ Js.join "," items +:+ "]".

(** An object: the properties whose value is [undefined] are left out. *)
Definition member (kv : string * option string) : list string :=
  match kv with
  | (k, Some v) => [quote k +:+ ":" +:+ v]
  | (_, None) => []
  end.

Definition object (members : list (string * option string)) : string :=
  "{" +:+ Js.join "," (members ≫= member) +:+ "}".

End Json.

(** ** [lib/cache-manager.ts]: the change-aware cache *)

(** The object literal that [generateConfigHash] builds for one font. *)
Module ConfigData.
Record t := mk {
  package : string;
  family : string;
  variable : bool;
  weights : option (list Z);
  styles : option (list string);
  subsets : option (list string);
  axes : option (list string);
  preload : option bool;
  display : option string;
  priority : option Z
}.
End ConfigData.

Module CacheManager.

Record t := mk {
  cacheDir : string;
  cacheFile : string;
  ttl : Z;
  moduleVersion : string
}.

(** [mkdirSync(dir, { recursive: true })] *)
Fixpoint prefixes (acc : string) (segments : list string) : list string :=
  match segments with
  | [] => []
  | s :: rest =>
      if String.eqb s "" then prefixes acc rest
      else let p := acc +:+ "/" +:+ s in p :: prefixes p rest
  end.

Definition mkdirRecursive (dir : string) : M unit :=
  fun w =>
    let dirs := prefixes "" (Js.split "/" (Path.resolve (cwd w) dir)) in
    if forallb (fun p => match fs w !! p with Some (File _ _) => false | _ => true end) dirs
    then (Ok tt, mkWorld (foldr (fun p m => <[p := Dir]> m) (fs w) dirs) (cwd w) (now w))
    else (Throw ("EEXIST: file already exists, mkdir " +:+ dir), w).

(** The constructor; [ttl] defaults to one day. *)
Definition new (projectRoot : string) (ttl : option Z) : M t :=
  let cacheDir := Path.join [projectRoot; ".nuxt"; "variable-fonts-cache"] in
  mkdirRecursive cacheDir ;;;
  ret (mk cacheDir (Path.join [cacheDir; "cache.json"]) (default 86400000 ttl) "1.0.0").

Section WithCollation.

(** [a.localeCompare(b)] in the locale of the process: negative, zero or
    positive. *)
Variable localeCompare : string -> string -> Z.

(** The normalised representation of one font. *)
Definition normalize (font : FontConfig.t) : ConfigData.t :=
  ConfigData.mk
    (FontConfig.package font)
    (FontConfig.family font)
    (FontConfig.variable font)
    (Js.sortNumbers <$> FontConfig.weights font)
    (Js.sortStrings <$> FontConfig.styles font)
    (Js.sortStrings <$> FontConfig.subsets font)
    (Js.sortStrings <$> FontConfig.axes font)
    (FontConfig.preload font)
    (FontConfig.display font)
    (FontConfig.priority font).

(** What a call of [generateConfigHash] leaves behind in a font
    configuration it was given: [font.weights?.sort()] and the three
    calls after it sort the arrays where they are. *)
Definition sortedInPlace (font : FontConfig.t) : FontConfig.t :=
  FontConfig.mk
    (FontConfig.package font)
    (FontConfig.family font)
    (FontConfig.variable font)
    (FontConfig.preload font)
    (Js.sortNumbers <$> FontConfig.weights font)
    (Js.sortStrings <$> FontConfig.styles font)
    (Js.sortStrings <$> FontConfig.subsets font)
    (Js.sortStrings <$> FontConfig.axes font)
    (FontConfig.fallback font)
    (FontConfig.display font)
    (FontConfig.unicodeRanges font)
    (FontConfig.priority font).

(** The properties of the object literal, in the order in which it lists
    them, each with its JSON text. *)
Definition configMembers (d : ConfigData.t) : list (string * option string) :=
  [ ("package", Some (Json.quote (ConfigData.package d)));
    ("family", Some (Json.quote (ConfigData.family d)));
    ("variable", Some (Json.boolean (ConfigData.variable d)));
    ("weights", (fun l => Json.array (map Json.number l)) <$> ConfigData.weights d);
    ("styles", (fun l => Json.array (map Json.quote l)) <$> ConfigData.styles d);
    ("subsets", (fun l => Json.array (map Json.quote l)) <$> ConfigData.subsets d);
    ("axes", (fun l => Json.array (map Json.quote l)) <$> ConfigData.axes d);
    ("preload", Json.boolean <$> ConfigData.preload d);
    ("display", Json.quote <$> ConfigData.display d);
    ("priority", Json.number <$> ConfigData.priority d) ].

Definition stringifyConfigData (d : ConfigData.t) : string :=
  Json.object (configMembers d).

(** The normalised configuration, sorted by package name. *)
Definition configData (fonts : list FontConfig.t) : list ConfigData.t :=
  Js.sort (fun a b => localeCompare (ConfigData.package a) (ConfigData.package b))
          (map normalize fonts).

(** The text that is hashed. *)
Definition configString (fonts : list FontConfig.t) : string :=
  Json.array (map stringifyConfigData (configData fonts)).

(** What [generateConfigHash] returns.  The requests it was given are
    [map sortedInPlace fonts] afterwards: see [generateConfigHashInPlace]. *)
Definition generateConfigHash (fonts : list FontConfig.t) : string :=
  Crypto.sha256_hex (configString fonts).

(** [generateConfigHash] with what it leaves of its argument. *)
Definition generateConfigHashInPlace (fonts : list FontConfig.t)
  : string * list FontConfig.t :=
  (generateConfigHash fonts, map sortedInPlace fonts).

Definition getMetadataPath (packageName : string) : M (option string) :=
  w <- get_world ;;
  let possiblePaths :=
    [ Path.join [cwd w; "node_modules"; packageName; "metadata.json"];
      Path.join [cwd w; "node_modules"; packageName; "package.json"] ] in
  forM possiblePaths None (fun found path =>
    match found with
    | Some _ => ret found
    | None => e <- Fs.existsSync path ;; ret (if e : bool then Some path else None)
    end).

Definition getCacheTimestamp (self : t) : M Z :=
  try_catch (Fs.statMtime (cacheFile self)) (fun _ => ret 0).

(** The body of the loop over the files of one cached font: [true] as soon
    as a file is missing. *)
Fixpoint anyFileMissing (files : list FontFile.t) : M bool :=
  match files with
  | [] => ret false
  | file :: rest =>
      if String.eqb (FontFile.path file) "" then anyFileMissing rest
      else e <- Fs.existsSync (FontFile.path file) ;;
           if e : bool then anyFileMissing rest else ret true
  end.

Fixpoint checkFilesModified (self : t) (cachedFonts : list ProcessedFont.t) : M bool :=
  match cachedFonts with
  | [] => ret false
  | font :: rest =>
      match ProcessedFont.errors font with
      | _ :: _ => checkFilesModified self rest
      | [] =>
          metadataPath <- getMetadataPath (FontConfig.package (ProcessedFont.config font)) ;;
          modified <-
            match Js.truthy metadataPath with
            | Some metadataPath =>
                e <- Fs.existsSync metadataPath ;;
                if e : bool then
                  metadataTime <- Fs.statMtime metadataPath ;;
                  cacheTime <- getCacheTimestamp self ;;
                  ret (cacheTime + 1000 <? metadataTime)
                else ret false
            | None => ret false
            end ;;
          if modified : bool then ret true
          else
            missing <- anyFileMissing (ProcessedFont.files font) ;;
            if missing : bool then ret true else checkFilesModified self rest
      end
  end.

(** What [isCacheValid] answers and reads.  What it leaves of [fonts] is
    given by [isCacheValidInPlace]. *)
Definition isCacheValid (self : t) (fonts : list FontConfig.t) : M bool :=
  try_catch
    (e <- Fs.existsSync (cacheFile self) ;;
     if negb e then ret false
     else
       d <- Fs.readFileSync (cacheFile self) ;;
       match d with
       | Bytes _ => throw "SyntaxError: Unexpected token in JSON"
       | MetadataJson _ =>
           (* an object without [timestamp] and [configHash]: the version
              or, after it, the hash comparison fails *)
           ret false
       | CacheJson cache =>
           if negb (String.eqb (CacheEntry.version cache) (moduleVersion self)) then ret false
           else
             w <- get_world ;;
             let age := now w - CacheEntry.timestamp cache in
             if ttl self <? age then ret false
             else
               let currentHash := generateConfigHash fonts in
               if negb (String.eqb currentHash (CacheEntry.configHash cache)) then ret false
               else
                 filesModified <- checkFilesModified self (CacheEntry.fonts cache) ;;
                 if filesModified : bool then ret false else ret true
       end)
    (fun _ => ret false).

Definition makeRelativePath (projectRoot absolutePath : string) : string :=
  if Js.startsWith projectRoot absolutePath
  then Js.drop (String.length projectRoot + 1) absolutePath
  else absolutePath.

Definition sanitizeResults (projectRoot : string) (results : list ProcessedFont.t)
  : list ProcessedFont.t :=
  map (fun result =>
         ProcessedFont.mk (ProcessedFont.config result) (ProcessedFont.metadata result)
           (map (fun file =>
                   FontFile.mk
                     (if String.eqb (FontFile.path file) "" then ""
                      else makeRelativePath projectRoot (FontFile.path file))
                     (FontFile.fileName file) (FontFile.subset file) (FontFile.style file)
                     (FontFile.weight file) (FontFile.variable file) (FontFile.url file)
                     (FontFile.hash file) (FontFile.size file))
                (ProcessedFont.files result))
           (ProcessedFont.errors result))
      results.

(** [updateCache], with [results] as [sanitizeResults] reads them, which
    is after [generateConfigHash] has sorted the arrays of [fonts]: for
    results that hold requests of [fonts], see [updateCacheInPlace]. *)
Definition updateCache (self : t) (fonts : list FontConfig.t) (results : list ProcessedFont.t)
  : M unit :=
  try_catch
    (w <- get_world ;;
     let cache :=
       CacheEntry.mk (now w) (generateConfigHash fonts)
                     (sanitizeResults (cwd w) results) (moduleVersion self) in
     Fs.writeNode (cacheFile self) (CacheJson cache))
    (fun _ => ret tt).

(** *** The requests after a call

    The requests are objects that the module, the processor and the
    results of [processAll] share: an entry of the results holds its
    request itself, not a copy.  The two functions below are
    [isCacheValid] and [updateCache] once more, returning next to their
    result what the call leaves of the objects it was given. *)

(** An entry whose request is one of the requests that have been sorted. *)
Definition sortedRequest (result : ProcessedFont.t) : ProcessedFont.t :=
  ProcessedFont.mk (sortedInPlace (ProcessedFont.config result))
    (ProcessedFont.metadata result) (ProcessedFont.files result)
    (ProcessedFont.errors result).

(** [isCacheValid] with the requests as it leaves them: sorted once
    [generateConfigHash] has been called, also when the check of the files
    throws afterwards and the [catch] answers. *)
Definition isCacheValidInPlace (self : t) (fonts : list FontConfig.t)
  : M (bool * list FontConfig.t) :=
  try_catch
    (e <- Fs.existsSync (cacheFile self) ;;
     if negb e then ret (false, fonts)
     else
       d <- Fs.readFileSync (cacheFile self) ;;
       match d with
       | Bytes _ => throw "SyntaxError: Unexpected token in JSON"
       | MetadataJson metadata =>
           (* no [timestamp], so that the age is [NaN] and the hash is
              made, and no [configHash] to compare it with *)
           if bool_decide (FontMetadata.version metadata = Some (moduleVersion self))
           then let '(_, fonts) := generateConfigHashInPlace fonts in ret (false, fonts)
           else ret (false, fonts)
       | CacheJson cache =>
           if negb (String.eqb (CacheEntry.version cache) (moduleVersion self))
           then ret (false, fonts)
           else
             w <- get_world ;;
             let age := now w - CacheEntry.timestamp cache in
             if ttl self <? age then ret (false, fonts)
             else
               let '(currentHash, fonts) := generateConfigHashInPlace fonts in
               if negb (String.eqb currentHash (CacheEntry.configHash cache))
               then ret (false, fonts)
               else
                 try_catch
                   (filesModified <- checkFilesModified self (CacheEntry.fonts cache) ;;
                    if filesModified : bool then ret (false, fonts) else ret (true, fonts))
                   (fun _ => ret (false, fonts))
       end)
    (fun _ => ret (false, fonts)).

(** [updateCache] on results that hold requests of [fonts], as those of
    [processAll] do: the snapshot is made of the results after the sort,
    and the requests stay sorted whether the file can be written or not. *)
Definition updateCacheInPlace (self : t) (fonts : list FontConfig.t)
    (results : list ProcessedFont.t) : M (list FontConfig.t * list ProcessedFont.t) :=
  let results := map sortedRequest results in
  updateCache self fonts results ;;;
  ret (map sortedInPlace fonts, results).

End WithCollation.

(** [getCachedData]: the fonts of the snapshot; [None] stands for both
    [null] and a document without the property. *)
Definition getCachedData (self : t) : M (option (list ProcessedFont.t)) :=
  try_catch
    (e <- Fs.existsSync (cacheFile self) ;;
     if negb e then ret None
     else
       cacheContent <- Fs.readFileSync (cacheFile self) ;;
       match cacheContent with
       | Bytes _ => throw "SyntaxError: Unexpected token in JSON"
       | MetadataJson _ => ret None
       | CacheJson cache => ret (Some (CacheEntry.fonts cache))
       end)
    (fun _ => ret None).

(** [clearCache]: the snapshot is copied to a backup named after the
    clock, then removed. *)
Definition clearCache (self : t) : M unit :=
  try_catch
    (e <- Fs.existsSync (cacheFile self) ;;
     if e : bool then
       cacheContent <- Fs.readFileSync (cacheFile self) ;;
       match cacheContent with
       | Bytes _ => throw "SyntaxError: Unexpected token in JSON"
       | _ =>
           w <- get_world ;;
           let backupFile :=
             Path.join [cacheDir self; "cache.backup." +:+ Js.ofZ (now w) +:+ ".json"] in
           Fs.writeNode backupFile cacheContent ;;;
           Fs.unlinkSync (cacheFile self)
       end
     else ret tt)
    (fun _ => ret tt).

(** [getCacheManager]: the module-wide instance, made by the first call;
    [cacheManagerInstance] is the variable that holds it. *)
Definition getCacheManager (cacheManagerInstance : option t) (projectRoot : string)
    (ttl : option Z) : M (t * option t) :=
  match cacheManagerInstance with
  | Some instance => ret (instance, Some instance)
  | None => instance <- new projectRoot ttl ;; ret (instance, Some instance)
  end.

End CacheManager.

(** ** The runtime: [runtime/plugin.client.ts] and the composable
    [useVariableFonts] *)

(** An entry of the font data that the server hands to the client. *)
Module FontData.
Record t := mk {
  name : string;
  variable : bool;
  axes : option (gmap string Axis.t);
  weights : option (list Z);
  styles : option (list string)
}.
End FontData.

Module FontFamilyInfo.
Record t := mk {
  name : string;
  cssVariable : string;
  isVariable : bool;
  axes : option (gmap string Axis.t);
  weights : option (list Z);
  styles : option (list string);
  hasItalic : option bool
}.
End FontFamilyInfo.

(** The [$fonts] object of the client plugin. *)
Module Plugin.

(** [fontData.families.map(...)]; the plugin leaves [hasItalic] unset. *)
Definition families (fontData : list FontData.t) : list FontFamilyInfo.t :=
  map (fun family =>
         FontFamilyInfo.mk
           (FontData.name family)
           ("--font-" +:+ Js.replaceSpaceRuns "-" (Js.toLowerCase (FontData.name family)))
           (FontData.variable family) (FontData.axes family) (FontData.weights family)
           (FontData.styles family) None)
      fontData.

Definition getVariable (family : string) : string :=
  let normalizedName := Js.replaceSpaceRuns "-" (Js.toLowerCase family) in
  "--font-" +:+ normalizedName.

End Plugin.

Module Composable.

(** The initial value of the state [families], taken from
    [nuxtApp.$fonts.families]. *)
Definition initialFamilies (fonts : list FontFamilyInfo.t) : list FontFamilyInfo.t :=
  map (fun family =>
         FontFamilyInfo.mk
           (FontFamilyInfo.name family) (FontFamilyInfo.cssVariable family)
           (FontFamilyInfo.isVariable family) (FontFamilyInfo.axes family)
           (FontFamilyInfo.weights family) (FontFamilyInfo.styles family)
           ((fun styles => bool_decide ("italic" ∈ styles)) <$> FontFamilyInfo.styles family))
      fonts.

Definition getFamily (families : list FontFamilyInfo.t) (name : string)
  : option FontFamilyInfo.t :=
  let normalizedName := Js.replaceSpaceRuns "-" (Js.toLowerCase name) in
  List.find (fun f => String.eqb (Js.replaceSpaceRuns "-" (Js.toLowerCase (FontFamilyInfo.name f)))
                                 normalizedName)
            families.

Definition getVariable (families : list FontFamilyInfo.t) (family : string) : string :=
  let fontInfo := getFamily families family in
  default ("--font-" +:+ Js.replaceSpaceRuns "-" (Js.toLowerCase family))
          (Js.truthy (FontFamilyInfo.cssVariable <$> fontInfo)).

Definition createFontStack (families : list FontFamilyInfo.t) (familyNames : list string)
  : string :=
  Js.join ", "
    (map (fun name =>
            match getFamily families name with
            | Some fontInfo => "var(" +:+ FontFamilyInfo.cssVariable fontInfo +:+ ")"
            | None => Js.str Js.dquote +:+ name +:+ Js.str Js.dquote
            end)
         familyNames).

(** [updateVariationSetting(current, axis, value)]; [value] is the text
    that the template literal prints for the number. *)
Definition updateVariationSetting (current axis value : string) : string :=
  let settings :=
    filter (fun s => s <> "" /\ Js.includes ("'" +:+ axis +:+ "'") s = false)
           (map Js.trim (Js.split "," current)) in
  Js.join ", " (settings ++ [ "'" +:+ axis +:+ "' " +:+ value ]).

End Composable.

(** ** [index.ts]: the run of the module *)

Module Link.
Record t := mk {
  rel : string;
  as_ : option string;
  type : option string;
  href : option string;
  crossorigin : option string
}.
End Link.

Module Index.

(** What a run leaves behind outside the file system: the list that
    [getProcessedFonts] returns, and the contents of the template
    [types/variable-fonts.d.ts] once [addTemplate] has registered it. *)
Record State := mkState {
  processedFonts : list ProcessedFont.t;
  typeTemplate : option string
}.

(** The state when the processor has just been constructed. *)
Definition initial : State := mkState [] None.

(** [results.map((r) => r.metadata.family.toLowerCase().replace(/\s+/g, "-"))] *)
Fixpoint fontNames (results : list ProcessedFont.t) : Result (list string) :=
  match results with
  | [] => Ok []
  | r :: rest =>
      match FontMetadata.family (ProcessedFont.metadata r) with
      | None => Throw "Cannot read properties of undefined (reading 'toLowerCase')"
      | Some family =>
          match fontNames rest with
          | Ok names => Ok (Js.replaceSpaceRuns "-" (Js.toLowerCase family) :: names)
          | Throw e => Throw e
          end
      end
  end.

(** [generateFontTypes]: the contents of the template it registers. *)
Definition generateFontTypes (results : list ProcessedFont.t) : Result string :=
  match fontNames results with
  | Throw e => Throw e
  | Ok fontNames =>
      Ok (Js.lines
            [ "// Auto-generated font types";
              "export type VariableFontFamily = "
                +:+ Js.join " | " (map (fun n => "'" +:+ n +:+ "'") fontNames);
              "";
              "export interface VariableFontConfig {";
              "  family: VariableFontFamily";
              "  weight?: number | string";
              "  style?: 'normal' | 'italic'";
              "  variationSettings?: Record<string, number>";
              "}";
              "";
              "declare module '#app' {";
              "  interface NuxtApp {";
              "    $fonts: {";
              "      families: VariableFontFamily[]";
              "      getVariable: (family: VariableFontFamily) => string";
              "      applyFont: (element: HTMLElement, config: VariableFontConfig) => void";
              "    }";
              "  }";
              "}";
              "";
              "export {}" ])
  end.

(** [join(rootDir, p!)] for an option that may be unset. *)
Definition joinOption (rootDir : string) (p : option string) : M string :=
  match p with
  | Some p => ret (Path.join [rootDir; p])
  | None =>
      throw ("The " +:+ Js.str Js.dquote +:+ "path" +:+ Js.str Js.dquote
             +:+ " argument must be of type string. Received undefined")
  end.

Section WithEnvironment.

Variable localeCompare : string -> string -> Z.
Variable entries : gmap string Axis.t -> list (string * Axis.t).

(** The processor holds the options of the module themselves: it reads
    the requests as the calls before have left them. *)
Definition withRequests (self : FontProcessor.t) (requests : list FontConfig.t)
  : FontProcessor.t :=
  let options := FontProcessor.options self in
  FontProcessor.mk
    (ModuleOptions.mk requests
       (ModuleOptions.outputDir options) (ModuleOptions.cssPath options)
       (ModuleOptions.caching options) (ModuleOptions.cacheTTL options)
       (ModuleOptions.generateDocs options) (ModuleOptions.docsPath options)
       (ModuleOptions.preconnect options) (ModuleOptions.crossorigin options)
       (ModuleOptions.display options) (ModuleOptions.fallbacks options)
       (ModuleOptions.customProperties options) (ModuleOptions.utilities options)
       (ModuleOptions.verbose options))
    (FontProcessor.projectRoot self) (FontProcessor.outputDir self).

(** The function [processFonts] of [setup], over the objects it closes
    over; the [catch] logs and rethrows.

    The requests of [options.fonts] are shared: [isCacheValid] sorts
    their arrays once it gets to the hash, [processAll] reads them after
    that and puts them into its entries, and [updateCache] sorts them
    again, under the entries.  The state is returned next to the outcome,
    since [processAll] has replaced the list of processed fonts by the
    time a later statement throws ([processAll] itself catches what
    [processFont] throws; its branch for a throw has the list as its first
    statement leaves it).  An entry is recorded as it is when the run
    ends; what a run leaves of the requests themselves is what
    [isCacheValidInPlace] and [updateCacheInPlace] return.  The directory of the style sheet, [join(cssPath, "..")], is
    the directory part of a path that needs no normalisation. *)
Definition processFonts (options : ModuleOptions.t) (rootDir : string)
    (fontProcessor : FontProcessor.t) (cacheManager : CacheManager.t)
    (force : bool) (state : State) (w : World) : Result unit * State * World :=
  match (if negb force && FontProcessor.isTrue (ModuleOptions.caching options)
         then CacheManager.isCacheValidInPlace localeCompare cacheManager
                (ModuleOptions.fonts options)
         else ret (false, ModuleOptions.fonts options)) w with
  | (Throw e, w) => (Throw e, state, w)
  | (Ok (true, _), w) => (Ok tt, state, w)
  | (Ok (false, requests), w) =>
      let fontProcessor := withRequests fontProcessor requests in
      match FontProcessor.processAll fontProcessor w with
      | (Throw e, w) => (Throw e, mkState [] (typeTemplate state), w)
      | (Ok results, w) =>
          match
            (cssContent <- FontProcessor.generateCSS entries fontProcessor results ;;
             cssPath <- joinOption rootDir (ModuleOptions.cssPath options) ;;
             let cssDir := Path.dirname cssPath in
             CacheManager.mkdirRecursive cssDir ;;;
             Fs.writeNode cssPath (Bytes cssContent) ;;;
             (if FontProcessor.isTrue (ModuleOptions.generateDocs options)
              then
                docsContent <- FontProcessor.generateDocumentation entries results ;;
                docsPath <- joinOption rootDir (ModuleOptions.docsPath options) ;;
                Fs.writeNode docsPath (Bytes docsContent)
              else ret tt)) w
          with
          | (Throw e, w) => (Throw e, mkState results (typeTemplate state), w)
          | (Ok _, w) =>
              match
                (if FontProcessor.isTrue (ModuleOptions.caching options)
                 then CacheManager.updateCacheInPlace localeCompare cacheManager requests results
                 else ret (requests, results)) w
              with
              | (Throw e, w) => (Throw e, mkState results (typeTemplate state), w)
              | (Ok (_, results), w) =>
                  match generateFontTypes results with
                  | Throw e => (Throw e, mkState results (typeTemplate state), w)
                  | Ok typeContent => (Ok tt, mkState results (Some typeContent), w)
                  end
              end
          end
      end
  end.

End WithEnvironment.

(** The file a preload link points to. *)
Definition mainFile (font : ProcessedFont.t) : option FontFile.t :=
  match List.find (fun f => String.eqb (FontFile.subset f) "latin"
                            && String.eqb (FontFile.style f) "normal")
                  (ProcessedFont.files font) with
  | Some f => Some f
  | None => head (ProcessedFont.files font)
  end.

(** The hook on [app:resolved], registered when a preconnect hint or a
    preload is asked for: what it makes of [head.link]. *)
Definition appResolved (options : ModuleOptions.t) (processedFonts : list ProcessedFont.t)
    (link : list Link.t) : list Link.t :=
  if FontProcessor.isTrue (ModuleOptions.preconnect options)
     || existsb (fun f => FontProcessor.isTrue (FontConfig.preload f)) (ModuleOptions.fonts options)
  then
    link
    ++ (if FontProcessor.isTrue (ModuleOptions.preconnect options)
        then [ Link.mk "preconnect" None None (Some "/fonts") (ModuleOptions.crossorigin options) ]
        else [])
    ++ (font ← processedFonts;
        if FontProcessor.isTrue (FontConfig.preload (ProcessedFont.config font))
           && (0 <? length (ProcessedFont.files font))%nat
        then match mainFile font with
             | Some file =>
                 [ Link.mk "preload" (Some "font") (Some "font/woff2") (FontFile.url file)
                           (ModuleOptions.crossorigin options) ]
             | None => []
             end
        else [])
  else link.

End Index.

(** ** Vocabulary of the statements *)

Module Numeral.
Import Decimal.

(** The value of a run of digits read from the left, as [digits_acc] reads
    it, on decimal numerals. *)
Fixpoint readUint (acc : N) (d : uint) : N :=
  match d with
  | Nil => acc
  | D0 d' => readUint (10 * acc + 0) d'
  | D1 d' => readUint (10 * acc + 1) d'
  | D2 d' => readUint (10 * acc + 2) d'
  | D3 d' => readUint (10 * acc + 3) d'
  | D4 d' => readUint (10 * acc + 4) d'
  | D5 d' => readUint (10 * acc + 5) d'
  | D6 d' => readUint (10 * acc + 6) d'
  | D7 d' => readUint (10 * acc + 7) d'
  | D8 d' => readUint (10 * acc + 8) d'
  | D9 d' => readUint (10 * acc + 9) d'
  end%N.


End Numeral.

(** The place of a file in the order of [compareFiles]: Latin before the
    other subsets, and within each group the normal style before the
    others. *)
Definition isLatin (f : FontFile.t) : bool := String.eqb (FontFile.subset f) "latin".
Definition isNormal (f : FontFile.t) : bool := String.eqb (FontFile.style f) "normal".
Definition fileRank (f : FontFile.t) : nat :=
  ((if isLatin f then 0 else 2) + (if isNormal f then 0 else 1))%nat.

(** The files that the loops of [findFontFiles] collect, in the order in
    which they are matched: the list that its sort is given. *)
Definition matchedFiles (packagePath : string) (config : FontConfig.t)
    (metadata : FontMetadata.t) : M (list FontFile.t) :=
  let filesDir := Path.join [packagePath; "files"] in
  let subsets := default (default ["latin"] (FontMetadata.subsets metadata)) (FontConfig.subsets config) in
  let styles := default (default ["normal"] (FontMetadata.styles metadata)) (FontConfig.styles config) in
  let weights := default (default [400] (FontMetadata.weights metadata)) (FontConfig.weights config) in
  let patterns := FontProcessor.buildFilePatterns config metadata subsets styles weights in
  forM patterns [] (fun files pattern =>
    let globPattern := Js.backslashesToSlashes (Path.join [filesDir; pattern]) in
    foundFiles <- Fs.glob globPattern ;;
    forM foundFiles files (fun files filePath =>
      match FontProcessor.parseFileName filePath config with
      | Some fileInfo =>
          size <- Fs.statSize filePath ;;
          ret (files ++ [ FontFile.mk filePath (FileInfo.fileName fileInfo)
                            (FileInfo.subset fileInfo) (FileInfo.style fileInfo)
                            (FileInfo.weight fileInfo) (FileInfo.variable fileInfo)
                            None None (Some size) ])
      | None => ret files
      end)).

(** The entry that [processAll] records for a font whose processing threw
    [message]. *)
Definition failedEntry (fontConfig : FontConfig.t) (message : string) : ProcessedFont.t :=
  ProcessedFont.mk fontConfig FontMetadata.empty [] [message].

(** *** Reading the hashed text back

    An encoder is delimited by [ok] when, from an encoding followed by a
    rest that satisfies [ok], both the value and the rest can be told. *)
Definition Delimited {A} (ok : string -> Prop) (enc : A -> string) : Prop :=
  forall a b r r', ok r -> ok r' -> enc a +:+ r = enc b +:+ r' -> a = b /\ r = r'.

Definition anyRest (r : string) : Prop := True.

(** A rest that cannot be taken for more digits of a number. *)
Definition endsNumber (r : string) : Prop :=
  match r with
  | String c _ => Js.is_digit c = false
  | EmptyString => True
  end.

(** The code units that [JSON.stringify] escapes. *)
Definition escapedChars : list ascii :=
  Js.dquote :: Js.backslash :: map ascii_of_nat (seq 0 32).

(** Whether [s] begins with [p], by recursion on [p]. *)
Fixpoint hasPrefix (p s : string) : bool :=
  match p, s with
  | EmptyString, _ => true
  | String a p', String b s' => Ascii.eqb a b && hasPrefix p' s'
  | String _ _, EmptyString => false
  end.

(** The first code unit that a piece of escaped text stands for, and the
    text after it. *)
Definition decodeEscape (s : string) : option (ascii * string) :=
  match List.find (fun c => hasPrefix (Json.escapeChar c) s) escapedChars with
  | Some c => Some (c, Js.drop (String.length (Json.escapeChar c)) s)
  | None =>
      match s with
      | String c rest => Some (c, rest)
      | EmptyString => None
      end
  end.

(** The text of the members of an object that follow its first member,
    in front of the text [rest]. *)
Definition memberText (kv : string * option string) (rest : string) : string :=
  match kv with
  | (k, Some v) => "," +:+ Json.quote k +:+ ":" +:+ v +:+ rest
  | (_, None) => rest
  end.

Definition membersText (members : list (string * option string)) (rest : string) : string :=
  foldr memberText rest members.

(** What introduces the member [key] after another member. *)
Definition memberIntro (key : string) : string := "," +:+ Json.quote key +:+ ":".

Definition numbersArray (l : list Z) : string := Json.array (map Json.number l).
Definition stringsArray (l : list string) : string := Json.array (map Json.quote l).

#[global] Instance configData_eq_dec : EqDecision ConfigData.t.
Proof. solve_decision. Defined.

(** The world after [elapsed] milliseconds in which nothing happened. *)
Definition tick (w : World) (elapsed : Z) : World :=
  mkWorld (fs w) (cwd w) (now w + elapsed).

(** The cache file can be written: its directory is there, and it is not
    itself a directory. *)
Definition cacheWritable (self : CacheManager.t) (w : World) : Prop :=
  let p := Path.resolve (cwd w) (CacheManager.cacheFile self) in
  fs w !! Path.dirname p = Some Dir /\ fs w !! p <> Some Dir.

(** No file of the tree has been modified later than one second after the
    reading of the clock. *)
Definition mtimeOf (n : Node) : Z :=
  match n with
  | File _ t => t
  | Dir => 0
  end.

Definition notModifiedSince (w : World) : Prop :=
  map_Forall (fun _ n => mtimeOf n <= now w + 1000) (fs w).

(** A source file is present, and where it lies its relative form leads
    back to it: under the working directory, or elsewhere under an
    absolute path of which the working directory is no prefix. *)
Definition sourcePresent (w : World) (p : string) : Prop :=
  is_Some (fs w !! p) /\
  ((exists rel, p = cwd w +:+ "/" +:+ rel /\ Js.startsWith "/" rel = false) \/
   (Js.startsWith (cwd w) p = false /\ Js.startsWith "/" p = true)).

Definition sourcesPresent (w : World) (results : list ProcessedFont.t) : Prop :=
  Forall (fun font =>
            ProcessedFont.errors font = [] ->
            Forall (fun file => sourcePresent w (FontFile.path file))
                   (ProcessedFont.files font))
         results.

(** Two optional arrays with the same elements, in any order. *)
Definition permutedOption {A} (a b : option (list A)) : Prop :=
  match a, b with
  | Some l, Some l' => Permutation l l'
  | None, None => True
  | _, _ => False
  end.

(** Two requests that differ at most in the order of the elements of
    their array-valued fields. *)
Definition reordered (a b : FontConfig.t) : Prop :=
  FontConfig.package a = FontConfig.package b /\
  FontConfig.family a = FontConfig.family b /\
  FontConfig.variable a = FontConfig.variable b /\
  FontConfig.preload a = FontConfig.preload b /\
  permutedOption (FontConfig.weights a) (FontConfig.weights b) /\
  permutedOption (FontConfig.styles a) (FontConfig.styles b) /\
  permutedOption (FontConfig.subsets a) (FontConfig.subsets b) /\
  permutedOption (FontConfig.axes a) (FontConfig.axes b) /\
  FontConfig.fallback a = FontConfig.fallback b /\
  FontConfig.display a = FontConfig.display b /\
  FontConfig.unicodeRanges a = FontConfig.unicodeRanges b /\
  FontConfig.priority a = FontConfig.priority b.

(** The number of places at which [needle] occurs in [s]. *)
Fixpoint countOccurrences (needle s : string) : nat :=
  ((if String.prefix needle s then 1 else 0) +
   match s with
   | EmptyString => 0
   | String _ s' => countOccurrences needle s'
   end)%nat.

(** A batch: the fonts are processed one after the other, each in the
    world the one before has left, whether it succeeded or threw; a font
    that throws gets its failed entry. *)
Inductive batch (self : FontProcessor.t)
  : list FontConfig.t -> World -> list ProcessedFont.t -> World -> Prop :=
  | batch_nil w : batch self [] w [] w
  | batch_ok c cs w r w1 rs w' :
      FontProcessor.processFont self c w = (Ok r, w1) ->
      batch self cs w1 rs w' ->
      batch self (c :: cs) w (r :: rs) w'
  | batch_failed c cs w e w1 rs w' :
      FontProcessor.processFont self c w = (Throw e, w1) ->
      batch self cs w1 rs w' ->
      batch self (c :: cs) w (failedEntry c e :: rs) w'.

(** A file that has been published carries its URL and its hash. *)
Definition published (f : FontFile.t) : Prop :=
  is_Some (FontFile.url f) /\ is_Some (FontFile.hash f).

(** ** Concrete runs

    The end-to-end scenario of the specification (one variable font, one
    file of 1000 bytes) and a few small variations, used to exercise the
    definitions and the statements. *)

Module Scenario.

Definition request : FontConfig.t :=
  FontConfig.mk "pkg-a" "Demo" true None (Some [400; 700]) (Some ["normal"])
    (Some ["latin"]) (Some ["wght"]) None None None None.

Definition metadata : FontMetadata.t :=
  FontMetadata.mk (Some "Demo") (Some "demo") (Some ["latin"]) (Some [400; 700])
    (Some ["normal"])
    (Some (FontVariation.mk (Some {[ "wght" := Axis.mk 400 700 400 ]}) None))
    None None None None.

(** The defaults of the module ([index.ts]). *)
Definition optionsFor (fonts : list FontConfig.t) : ModuleOptions.t :=
  ModuleOptions.mk fonts (Some "public/fonts") (Some "assets/css/variable-fonts.css")
    (Some true) (Some 86400000) (Some true) (Some "VARIABLE_FONTS_README.md")
    (Some true) (Some "anonymous") (Some "swap") (Some true) (Some true) (Some true)
    (Some false).

Definition options : ModuleOptions.t := optionsFor [request].

Definition content : string := string_of_list_ascii (repeat "A"%char 1000).

Definition fontPath : string := "/proj/node_modules/pkg-a/files/demo-latin-wght-normal.woff2".

Definition tree : gmap string Node :=
  list_to_map
    [ ("/proj", Dir);
      ("/proj/public", Dir);
      ("/proj/public/fonts", Dir);
      ("/proj/.nuxt", Dir);
      ("/proj/.nuxt/variable-fonts-cache", Dir);
      ("/proj/node_modules", Dir);
      ("/proj/node_modules/pkg-a", Dir);
      ("/proj/node_modules/pkg-a/metadata.json", File (MetadataJson metadata) 1000);
      ("/proj/node_modules/pkg-a/files", Dir);
      (fontPath, File (Bytes content) 1000) ].

Definition world : World := mkWorld tree "/proj" 5000.

Definition processor : FontProcessor.t := FontProcessor.new options "/proj".

(** The file as [findFontFiles] describes it. *)
Definition resolved : FontFile.t :=
  FontFile.mk fontPath "demo-latin-wght-normal.woff2" "latin" "normal" None true
    None None (Some 1000).

(** What a run returns, or the empty list if it throws. *)
Definition value {A} (r : Result (list A) * World) : list A :=
  match fst r with
  | Ok l => l
  | Throw _ => []
  end.

(** A package that ships one face in both container formats, here with
    the same bytes in both files. *)
Definition twinTree : gmap string Node :=
  list_to_map
    [ ("/proj", Dir);
      ("/proj/public", Dir);
      ("/proj/public/fonts", Dir);
      ("/proj/node_modules", Dir);
      ("/proj/node_modules/pkg-s", Dir);
      ("/proj/node_modules/pkg-s/files", Dir);
      ("/proj/node_modules/pkg-s/files/twin-latin-400-normal.woff2", File (Bytes "same bytes") 1000);
      ("/proj/node_modules/pkg-s/files/twin-latin-400-normal.woff", File (Bytes "same bytes") 1000) ].

Definition twinWorld : World := mkWorld twinTree "/proj" 5000.

Definition twinProcessor : FontProcessor.t := FontProcessor.new (optionsFor []) "/proj".

(** The same font installed on another machine, under another root. *)
Definition otherTree : gmap string Node :=
  list_to_map
    [ ("/srv", Dir);
      ("/srv/app", Dir);
      ("/srv/app/static", Dir);
      ("/srv/app/node_modules", Dir);
      ("/srv/app/node_modules/pkg-a", Dir);
      ("/srv/app/node_modules/pkg-a/files", Dir);
      ("/srv/app/node_modules/pkg-a/files/demo-latin-wght-normal.woff2",
       File (Bytes content) 77) ].

Definition otherWorld : World := mkWorld otherTree "/srv/app" 9000.

Definition otherProcessor : FontProcessor.t :=
  FontProcessor.new
    (ModuleOptions.mk [request] (Some "static") None None None None None None None None
       None None None None)
    "/srv/app".

Definition otherResolved : FontFile.t :=
  FontFile.mk "/srv/app/node_modules/pkg-a/files/demo-latin-wght-normal.woff2"
    "demo-latin-wght-normal.woff2" "latin" "normal" None true None None (Some 1000).

(** A second family taken from the same package. *)
Definition sibling : FontConfig.t :=
  FontConfig.mk "pkg-a" "Demo Display" true None (Some [400; 700]) (Some ["normal"])
    (Some ["latin"]) (Some ["wght"]) None None None None.

(** The request of the scenario with its arrays in another order, and a
    request for another package. *)
Definition shuffled : FontConfig.t :=
  FontConfig.mk "pkg-a" "Demo" true None (Some [700; 400]) (Some ["normal"])
    (Some ["latin"]) (Some ["wght"]) None None None None.

Definition other : FontConfig.t :=
  FontConfig.mk "pkg-b" "Other" false None (Some [400]) (Some ["italic"; "normal"])
    (Some ["latin-ext"; "latin"]) None None None None (Some 2).

Definition otherShuffled : FontConfig.t :=
  FontConfig.mk "pkg-b" "Other" false None (Some [400]) (Some ["normal"; "italic"])
    (Some ["latin"; "latin-ext"]) None None None None (Some 2).

(** The request of the scenario with a second axis. *)
Definition twoAxes : FontConfig.t :=
  FontConfig.mk "pkg-a" "Demo" true None (Some [400; 700]) (Some ["normal"])
    (Some ["latin"]) (Some ["wght"; "opsz"]) None None None None.

(** The request of the scenario asking for another weight, and with a
    custom fallback. *)
Definition heavier : FontConfig.t :=
  FontConfig.mk "pkg-a" "Demo" true None (Some [400; 900]) (Some ["normal"])
    (Some ["latin"]) (Some ["wght"]) None None None None.

Definition withFallback : FontConfig.t :=
  FontConfig.mk "pkg-a" "Demo" true None (Some [400; 700]) (Some ["normal"])
    (Some ["latin"]) (Some ["wght"]) (Some "Georgia, serif") None None None.

(** The cache manager of the project, the world after the fonts have been
    processed, and the world after the cache has then been updated. *)
Definition cacheManager : CacheManager.t :=
  CacheManager.mk "/proj/.nuxt/variable-fonts-cache"
    "/proj/.nuxt/variable-fonts-cache/cache.json" 86400000 "1.0.0".

Definition processed : World := snd (FontProcessor.processAll processor world).

Definition results : list ProcessedFont.t := value (FontProcessor.processAll processor world).

Definition cached : World :=
  snd (CacheManager.updateCache Js.compareZ cacheManager [request] results processed).

(** A second request, for a package that is not installed, with the
    higher priority. *)
Definition missingRequest : FontConfig.t :=
  FontConfig.mk "pkg-missing" "Ghost" true None None None None None None None None (Some 10).

Definition mixedProcessor : FontProcessor.t :=
  FontProcessor.new (optionsFor [request; missingRequest]) "/proj".

(** Four faces of one family, in the order in which they were matched. *)
Definition face (subset style : string) : FontFile.t :=
  FontFile.mk ("/proj/node_modules/pkg-q/files/quad-" +:+ subset +:+ "-400-" +:+ style +:+ ".woff2")
    ("quad-" +:+ subset +:+ "-400-" +:+ style +:+ ".woff2") subset style (Some 400) false
    None None (Some 10).

Definition quartet : list FontFile.t :=
  [ face "cyrillic" "italic"; face "latin" "italic";
    face "cyrillic" "normal"; face "latin" "normal" ].

Definition staticRequest : FontConfig.t :=
  FontConfig.mk "pkg-s" "Twin" false None (Some [400]) (Some ["normal"]) (Some ["latin"])
    None None None None None.

(** A package with the four faces, and a request for them that names the
    Cyrillic subset and the italic style first. *)
Definition quartetTree : gmap string Node :=
  list_to_map
    [ ("/proj", Dir);
      ("/proj/node_modules", Dir);
      ("/proj/node_modules/pkg-q", Dir);
      ("/proj/node_modules/pkg-q/files", Dir);
      ("/proj/node_modules/pkg-q/files/quad-cyrillic-400-italic.woff2", File (Bytes "0123456789") 1000);
      ("/proj/node_modules/pkg-q/files/quad-cyrillic-400-normal.woff2", File (Bytes "0123456789") 1000);
      ("/proj/node_modules/pkg-q/files/quad-latin-400-italic.woff2", File (Bytes "0123456789") 1000);
      ("/proj/node_modules/pkg-q/files/quad-latin-400-normal.woff2", File (Bytes "0123456789") 1000) ].

Definition quartetWorld : World := mkWorld quartetTree "/proj" 5000.

Definition quartetRequest : FontConfig.t :=
  FontConfig.mk "pkg-q" "Quad" false None (Some [400]) (Some ["italic"; "normal"])
    (Some ["cyrillic"; "latin"]) None None None None None.

Definition twin (ext : string) : FontFile.t :=
  FontFile.mk ("/proj/node_modules/pkg-s/files/twin-latin-400-normal" +:+ ext)
    ("twin-latin-400-normal" +:+ ext) "latin" "normal" (Some 400) false
    None None (Some 10).

End Scenario.

(** ** Vocabulary of the further properties *)

(** A computation that leaves the world as it found it. *)
Definition readsOnly {A} (m : M A) : Prop := forall w, snd (m w) = w.

(** The priority under which a request is sorted. *)
Definition priorityOf (c : FontConfig.t) : Z := default 0 (FontConfig.priority c).

(** What stands between the subset and the style in the patterns of a
    request: the weights and the wildcard for a static font, the joined
    axes and each axis for a variable one, the two forms of the Material
    Symbols packages. *)
Definition patternKeys (config : FontConfig.t) (weights : list Z) : list string :=
  if FontConfig.variable config then
    if Js.includes "material-symbols" (FontConfig.package config)
    then [ "-full-"; "[*]-" ]
    else
      let axes := default ["wght"] (FontConfig.axes config) in
      map (fun axis => "-" +:+ axis +:+ "-") (Js.join "-" axes :: axes)
  else map (fun weight => "-" +:+ Js.ofZ weight +:+ "-") weights ++ [ "-*-" ].

(** The pattern of the [.woff2] file of a subset, a key and a style. *)
Definition woff2Pattern (subset key style : string) : string :=
  "*-" +:+ subset +:+ key +:+ style +:+ ".woff2".

(** A lower-case hexadecimal digit. *)
Definition isHexDigit (c : ascii) : bool :=
  existsb (Ascii.eqb c) (list_ascii_of_string "0123456789abcdef").

(** Further concrete cases. *)
Module Cases.

(** The package of the scenario without its directory of font files. *)
Definition bareTree : gmap string Node :=
  list_to_map
    [ ("/proj", Dir);
      ("/proj/public", Dir);
      ("/proj/public/fonts", Dir);
      ("/proj/node_modules", Dir);
      ("/proj/node_modules/pkg-a", Dir);
      ("/proj/node_modules/pkg-a/metadata.json", File (MetadataJson Scenario.metadata) 1000) ].

Definition bareWorld : World := mkWorld bareTree "/proj" 5000.

(** The request of the scenario with an empty list of subsets. *)
Definition noSubsets : FontConfig.t :=
  FontConfig.mk "pkg-a" "Demo" true None (Some [400; 700]) (Some ["normal"])
    (Some []) (Some ["wght"]) None None None None.

(** The request of the scenario with a range of its own for the Latin
    subset. *)
Definition ownRange : FontConfig.t :=
  FontConfig.mk "pkg-a" "Demo" true None (Some [400; 700]) (Some ["normal"])
    (Some ["latin"]) (Some ["wght"]) None None (Some {[ "latin" := "U+0041-005A" ]}) None.

(** The package of the scenario with its metadata under the alternative
    name. *)
Definition alternativeTree : gmap string Node :=
  list_to_map
    [ ("/proj", Dir);
      ("/proj/node_modules", Dir);
      ("/proj/node_modules/pkg-a", Dir);
      ("/proj/node_modules/pkg-a/font-metadata.json", File (MetadataJson Scenario.metadata) 1000) ].

Definition alternativeWorld : World := mkWorld alternativeTree "/proj" 5000.

End Cases.

(** A project whose packages are installed by [pnpm]: two versions of the
    package of the scenario in the store, none at the top. *)
Module Store.

Definition tree : gmap string Node :=
  list_to_map
    [ ("/proj", Dir);
      ("/proj/node_modules", Dir);
      ("/proj/node_modules/.pnpm", Dir);
      ("/proj/node_modules/.pnpm/pkg-a@5.0.9", Dir);
      ("/proj/node_modules/.pnpm/pkg-a@5.0.9/node_modules", Dir);
      ("/proj/node_modules/.pnpm/pkg-a@5.0.9/node_modules/pkg-a", Dir);
      ("/proj/node_modules/.pnpm/pkg-a@5.0.10", Dir);
      ("/proj/node_modules/.pnpm/pkg-a@5.0.10/node_modules", Dir);
      ("/proj/node_modules/.pnpm/pkg-a@5.0.10/node_modules/pkg-a", Dir) ].

Definition world : World := mkWorld tree "/proj" 5000.

End Store.

(** The first entry of a Material Symbols package, which the utility
    classes are made for. *)
Definition materialSymbolsEntry (results : list ProcessedFont.t) : option ProcessedFont.t :=
  List.find (fun r => Js.includes "material-symbols"
                        (FontConfig.package (ProcessedFont.config r))) results.

(** Every entry without errors has a family name in its metadata. *)
Definition named (results : list ProcessedFont.t) : Prop :=
  Forall (fun r => ProcessedFont.errors r = [] ->
                   is_Some (FontMetadata.family (ProcessedFont.metadata r)))
         results.

(** A request for Material Symbols whose package is not installed. *)
Module Icons.

Definition request : FontConfig.t :=
  FontConfig.mk "material-symbols-rounded" "Material Symbols Rounded" true None None None
    None None None None None None.

Definition processor : FontProcessor.t :=
  FontProcessor.new (Scenario.optionsFor [Scenario.request; request]) "/proj".

Definition results : list ProcessedFont.t :=
  Scenario.value (FontProcessor.processAll processor Scenario.world).

Definition processed : World := snd (FontProcessor.processAll processor Scenario.world).

End Icons.

(** The backup that [clearCache] writes when the clock reads [time]. *)
Definition backupFile (self : CacheManager.t) (time : Z) : string :=
  Path.join [CacheManager.cacheDir self; "cache.backup." +:+ Js.ofZ time +:+ ".json"].

(** A file can be written at [p]: its directory is there, and [p] is not
    itself a directory. *)
Definition writable (w : World) (p : string) : Prop :=
  fs w !! Path.dirname (Path.resolve (cwd w) p) = Some Dir /\
  fs w !! Path.resolve (cwd w) p <> Some Dir.

(** The files are in the order of [compareFiles]. *)
Definition ranked (files : list FontFile.t) : Prop :=
  StronglySorted (fun a b => (fileRank a <= fileRank b)%nat) files.

(** The line of the overview of the documentation for a font that
    failed. *)
Definition failureLine (font : ProcessedFont.t) : string :=
  "- ❌ **" +:+ FontConfig.family (ProcessedFont.config font) +:+ "** - Failed to process: "
    +:+ Js.join ", " (ProcessedFont.errors font) +:+ Js.nl.

(** The links that the hook adds for a preload. *)
Definition preloads (links : list Link.t) : list Link.t :=
  filter (fun l => Link.rel l = "preload") links.

(** The request of the scenario with a preload. *)
Module Preloaded.

Definition request : FontConfig.t :=
  FontConfig.mk "pkg-a" "Demo" true (Some true) (Some [400; 700]) (Some ["normal"])
    (Some ["latin"]) (Some ["wght"; "opsz"]) None None None None.

Definition options : ModuleOptions.t := Scenario.optionsFor [request].

Definition processor : FontProcessor.t := FontProcessor.new options "/proj".

(** The project of the scenario with the directory of the style sheet. *)
Definition world : World :=
  mkWorld (<["/proj/assets" := Dir]> (<["/proj/assets/css" := Dir]> Scenario.tree)) "/proj" 5000.

End Preloaded.

(** The project of [Preloaded] after a run and the update of its cache. *)
Module PreloadedRun.

Definition results : list ProcessedFont.t :=
  Scenario.value (FontProcessor.processAll Preloaded.processor Preloaded.world).

Definition processed : World :=
  snd (FontProcessor.processAll Preloaded.processor Preloaded.world).

Definition cached : World :=
  snd (CacheManager.updateCacheInPlace Js.compareZ Scenario.cacheManager [Preloaded.request]
         results processed).

End PreloadedRun.

(** The project of the scenario with a font of two axes, named after its
    axes in their sorted order, asked for with the axes in another order;
    and the same project with the snapshot of an earlier configuration. *)
Module Stale.

Definition request : FontConfig.t :=
  FontConfig.mk "pkg-a" "Demo" true None (Some [400; 700]) (Some ["normal"])
    (Some ["latin"]) (Some ["wght"; "opsz"]) None None None None.

Definition options : ModuleOptions.t := Scenario.optionsFor [request].

Definition processor : FontProcessor.t := FontProcessor.new options "/proj".

Definition tree : gmap string Node :=
  list_to_map
    [ ("/proj", Dir);
      ("/proj/assets", Dir);
      ("/proj/assets/css", Dir);
      ("/proj/public", Dir);
      ("/proj/public/fonts", Dir);
      ("/proj/.nuxt", Dir);
      ("/proj/.nuxt/variable-fonts-cache", Dir);
      ("/proj/node_modules", Dir);
      ("/proj/node_modules/pkg-a", Dir);
      ("/proj/node_modules/pkg-a/metadata.json", File (MetadataJson Scenario.metadata) 1000);
      ("/proj/node_modules/pkg-a/files", Dir);
      ("/proj/node_modules/pkg-a/files/demo-latin-opsz-wght-normal.woff2",
       File (Bytes Scenario.content) 1000) ].

Definition snapshot : CacheEntry.t := CacheEntry.mk 4000 "an earlier hash" [] "1.0.0".

Definition fresh : World := mkWorld tree "/proj" 5000.

Definition world : World :=
  mkWorld (<["/proj/.nuxt/variable-fonts-cache/cache.json" := File (CacheJson snapshot) 4000]> tree)
    "/proj" 5000.

End Stale.

(** * Properties of the pipeline *)

Local Open Scope M_scope.

(** ** Facts about the effects *)

Section Effects.

Lemma bind_Ok {A B} (m : M A) (k : A -> M B) w b w' :
  bind m k w = (Ok b, w') ->
  exists a w1, m w = (Ok a, w1) /\ k a w1 = (Ok b, w').
Proof.
  unfold bind. destruct (m w) as [[a|e] w1]; intros H; [eauto | discriminate].
Qed.

Lemma bind_unfold {A B} (m : M A) (k : A -> M B) w :
  bind m k w = match m w with
               | (Ok a, w') => k a w'
               | (Throw e, w') => (Throw e, w')
               end.
Proof. reflexivity. Qed.

Lemma readFileSync_world p w r w' : Fs.readFileSync p w = (r, w') -> w' = w.
Proof.
  unfold Fs.readFileSync. destruct (Fs.lookup w p) as [[|d t]|]; congruence.
Qed.

Lemma readFileSync_Ok p w d w' :
  Fs.readFileSync p w = (Ok d, w') -> exists t, Fs.lookup w p = Some (File d t).
Proof.
  unfold Fs.readFileSync. destruct (Fs.lookup w p) as [[|d0 t]|]; intros H; inversion H; eauto.
Qed.

Lemma readBytes_Ok p w b w' :
  Fs.readBytes p w = (Ok b, w') ->
  w' = w /\ exists t, Fs.lookup w p = Some (File (Bytes b) t).
Proof.
  unfold Fs.readBytes. intros H. apply bind_Ok in H as (d & w1 & Hr & Hk).
  pose proof (readFileSync_world _ _ _ _ Hr) as ->.
  apply readFileSync_Ok in Hr as [t Ht].
  destruct d; inversion Hk; subst; eauto.
Qed.

Lemma readBytes_world p w r w' : Fs.readBytes p w = (r, w') -> w' = w.
Proof.
  unfold Fs.readBytes, bind. destruct (Fs.readFileSync p w) as [[d|e] w1] eqn:Hr.
  - apply readFileSync_world in Hr as ->. destruct d; unfold ret, throw; congruence.
  - apply readFileSync_world in Hr as ->. congruence.
Qed.

(** A write either fails and leaves the world alone, or puts a file at
    the resolved path and touches nothing else. *)
Lemma writeNode_Ok p d w w' :
  Fs.writeNode p d w = (Ok tt, w') ->
  fs w' = <[Path.resolve (cwd w) p := File d (now w)]> (fs w) /\ cwd w' = cwd w /\ now w' = now w.
Proof.
  unfold Fs.writeNode.
  destruct (fs w !! Path.dirname (Path.resolve (cwd w) p)) as [[|? ?]|];
    destruct (fs w !! Path.resolve (cwd w) p) as [[|? ?]|]; intros H; inversion H; auto.
Qed.

Lemma writeNode_Throw p d w e w' : Fs.writeNode p d w = (Throw e, w') -> w' = w.
Proof.
  unfold Fs.writeNode.
  destruct (fs w !! Path.dirname (Path.resolve (cwd w) p)) as [[|? ?]|];
    destruct (fs w !! Path.resolve (cwd w) p) as [[|? ?]|]; intros H; inversion H; auto.
Qed.

Lemma writeNode_isFile_self p d w w' :
  Fs.writeNode p d w = (Ok tt, w') -> Fs.isFile w' p.
Proof.
  intros H. apply writeNode_Ok in H as (Hfs & Hcwd & _).
  exists d, (now w). unfold Fs.lookup. rewrite Hfs, Hcwd. apply lookup_insert_eq.
Qed.

Lemma writeNode_isFile_mono p d w r w' q :
  Fs.writeNode p d w = (r, w') -> Fs.isFile w q -> Fs.isFile w' q.
Proof.
  intros H (d0 & t0 & Hq). destruct r as [[]|e].
  - apply writeNode_Ok in H as (Hfs & Hcwd & _). unfold Fs.isFile, Fs.lookup.
    rewrite Hfs, Hcwd. unfold Fs.lookup in Hq.
    destruct (decide (Path.resolve (cwd w) p = Path.resolve (cwd w) q)) as [->|Hne].
    + rewrite lookup_insert_eq. eauto.
    + rewrite lookup_insert_ne by done. eauto.
  - apply writeNode_Throw in H as ->. exists d0, t0. done.
Qed.

End Effects.

(** ** Publishing: [copyFontFiles] *)

Section Publishing.

Import FontProcessor.

(** What one turn of the loop does when it succeeds. *)
Lemma copyFontFile_Ok self family file w out w' :
  copyFontFile self family file w = (Ok out, w') ->
  exists fam content t,
    family = Some fam /\
    Fs.lookup w (FontFile.path file) = Some (File (Bytes content) t) /\
    out = FontFile.mk (FontFile.path file) (FontFile.fileName file)
            (FontFile.subset file) (FontFile.style file)
            (FontFile.weight file) (FontFile.variable file)
            (Some ("/fonts/" +:+ hashedName fam file (contentHash content)))
            (Some (contentHash content)) (FontFile.size file) /\
    Fs.isFile w' (Path.join [outputDir self; hashedName fam file (contentHash content)]).
Proof.
  unfold copyFontFile. intros H.
  apply bind_Ok in H as (content & w1 & Hread & H).
  apply readBytes_Ok in Hread as (-> & t & Hlook).
  destruct family as [fam|]; [|discriminate].
  apply bind_Ok in H as ([] & w2 & Hcopy & H).
  inversion H; subst; clear H.
  exists fam, content, t. repeat split; try done.
  unfold Fs.copyFileSync in Hcopy.
  apply bind_Ok in Hcopy as (d & w3 & Hr & Hw).
  pose proof (readFileSync_world _ _ _ _ Hr) as ->.
  eapply writeNode_isFile_self; eauto.
Qed.

(** Files, once there, stay: a turn of the loop only adds or overwrites a
    regular file. *)
Lemma copyFontFile_isFile_mono self family file w r w' q :
  copyFontFile self family file w = (r, w') -> Fs.isFile w q -> Fs.isFile w' q.
Proof.
  unfold copyFontFile, bind. intros H Hq.
  destruct (Fs.readBytes (FontFile.path file) w) as [[content|e] w1] eqn:Hread;
    apply readBytes_world in Hread as ->; [|inversion H; subst; done].
  destruct family as [fam|]; [|inversion H; subst; done].
  unfold Fs.copyFileSync, bind in H.
  destruct (Fs.readFileSync (FontFile.path file) w) as [[d|e] w1] eqn:Hr;
    apply readFileSync_world in Hr as ->; [|inversion H; subst; done].
  match type of H with
  | context [Fs.writeNode ?p ?d ?w] => destruct (Fs.writeNode p d w) as [[[]|e] w2] eqn:Hw
  end; inversion H; subst; eapply writeNode_isFile_mono; eauto.
Qed.

Lemma copyLoop_isFile_mono self family files acc w r w' q :
  forM files acc (fun copiedFiles file =>
    copied <- copyFontFile self family file ;; ret (copiedFiles ++ [copied])) w = (r, w') ->
  Fs.isFile w q -> Fs.isFile w' q.
Proof.
  revert acc w. induction files as [|f files IH]; intros acc w H Hq; simpl in H.
  - inversion H; subst; done.
  - unfold bind at 1 in H. unfold bind at 1 in H.
    destruct (copyFontFile self family f w) as [[o|e] w1] eqn:Hstep.
    + simpl in H. eapply IH; [exact H|]. eapply copyFontFile_isFile_mono; eauto.
    + inversion H; subst. eapply copyFontFile_isFile_mono; eauto.
Qed.

(** The loop, unrolled: each output is the result of one turn, taken in
    the world the earlier turns have left. *)
Lemma copyLoop_Ok self family files acc w outs w' :
  forM files acc (fun copiedFiles file =>
    copied <- copyFontFile self family file ;; ret (copiedFiles ++ [copied])) w = (Ok outs, w') ->
  exists news,
    outs = acc ++ news /\
    Forall2 (fun file out => exists wa wb, copyFontFile self family file wa = (Ok out, wb) /\
                                     forall q, Fs.isFile wb q -> Fs.isFile w' q)
            files news.
Proof.
  revert acc w. induction files as [|f files IH]; intros acc w H; simpl in H.
  - inversion H; subst. exists []. split; [by rewrite app_nil_r | constructor].
  - apply bind_Ok in H as (acc1 & w1 & Hstep & H).
    apply bind_Ok in Hstep as (o & w2 & Hone & Hret). inversion Hret; subst; clear Hret.
    pose proof H as Hrest. apply IH in H as (news & -> & Hall).
    exists (o :: news). split; [by rewrite <- app_assoc|].
    constructor; [|done]. exists w, w1. split; [done|].
    intros q Hq. eapply copyLoop_isFile_mono; eauto.
Qed.

End Publishing.

Section PublishingClaims.

Import FontProcessor.

(** C10.  Whatever the module options are, the output directory among
    them, every published file gets the URL [/fonts/] followed by its
    hashed name; the output directory only decides where the copy is put:
    that same name, under the output directory, holds a file after the
    run. *)
Theorem C10_url_is_fonts_prefix_and_name
    (options : ModuleOptions.t) (projectRoot : string)
    (files : list FontFile.t) (family : option string)
    (w : World) (copied : list FontFile.t) (w' : World) :
  copyFontFiles (new options projectRoot) files family w = (Ok copied, w') ->
  Forall2 (fun file out =>
             exists fam hash,
               family = Some fam /\
               FontFile.hash out = Some hash /\
               FontFile.url out = Some ("/fonts/" +:+ hashedName fam file hash) /\
               Fs.isFile w' (Path.join [outputDir (new options projectRoot);
                                        hashedName fam file hash]))
          files copied.
Proof.
  unfold copyFontFiles. intros H.
  apply copyLoop_Ok in H as (news & -> & Hall). simpl.
  eapply Forall2_impl; [exact Hall|].
  intros file out (wa & wb & Hstep & Hmono).
  apply copyFontFile_Ok in Hstep as (fam & content & t & -> & _ & -> & Hdest).
  exists fam, (contentHash content). simpl. auto.
Qed.

Lemma C10_witness :
  Forall2 (fun file out =>
             exists fam hash,
               Some "Demo" = Some fam /\
               FontFile.hash out = Some hash /\
               FontFile.url out = Some ("/fonts/" +:+ hashedName fam file hash) /\
               Fs.isFile (snd (copyFontFiles Scenario.processor [Scenario.resolved]
                                 (Some "Demo") Scenario.world))
                 (Path.join [outputDir Scenario.processor; hashedName fam file hash]))
          [Scenario.resolved]
          (Scenario.value (copyFontFiles Scenario.processor [Scenario.resolved]
                             (Some "Demo") Scenario.world)).
Proof.
  apply (C10_url_is_fonts_prefix_and_name Scenario.options "/proj" [Scenario.resolved]
           (Some "Demo") Scenario.world).
  vm_compute. reflexivity.
Defined.

(** C5, as amended.  The hash a published file carries is the digest of
    the bytes that were read, and nothing else.  Two turns of the
    publishing loop, on any two machines (processors, worlds), over files
    with the same bytes, family, subset, style and file-name extension,
    give the same hashed name: the same URL, and a file of that name in
    either output directory. *)
Theorem C5_same_content_same_name
    (self1 self2 : FontProcessor.t) (family : option string)
    (f1 f2 : FontFile.t) (w1 w2 : World) (bytes : string) (t1 t2 : Z)
    (o1 o2 : FontFile.t) (w1' w2' : World) :
  Fs.lookup w1 (FontFile.path f1) = Some (File (Bytes bytes) t1) ->
  Fs.lookup w2 (FontFile.path f2) = Some (File (Bytes bytes) t2) ->
  FontFile.subset f1 = FontFile.subset f2 ->
  FontFile.style f1 = FontFile.style f2 ->
  Path.extname (FontFile.fileName f1) = Path.extname (FontFile.fileName f2) ->
  copyFontFile self1 family f1 w1 = (Ok o1, w1') ->
  copyFontFile self2 family f2 w2 = (Ok o2, w2') ->
  FontFile.hash o1 = Some (contentHash bytes) /\
  FontFile.hash o2 = Some (contentHash bytes) /\
  exists name,
    FontFile.url o1 = Some ("/fonts/" +:+ name) /\
    FontFile.url o2 = Some ("/fonts/" +:+ name) /\
    Fs.isFile w1' (Path.join [outputDir self1; name]) /\
    Fs.isFile w2' (Path.join [outputDir self2; name]).
Proof.
  intros Hb1 Hb2 Hsubset Hstyle Hext H1 H2.
  apply copyFontFile_Ok in H1 as (fam1 & c1 & u1 & Hf1 & Hl1 & -> & Hd1).
  apply copyFontFile_Ok in H2 as (fam2 & c2 & u2 & Hf2 & Hl2 & -> & Hd2).
  rewrite Hb1 in Hl1. rewrite Hb2 in Hl2.
  inversion Hl1; inversion Hl2; subst c1 c2 u1 u2.
  assert (fam2 = fam1) as -> by congruence.
  assert (hashedName fam1 f2 (contentHash bytes) = hashedName fam1 f1 (contentHash bytes)) as Hname.
  { unfold hashedName. by rewrite Hsubset, Hstyle, Hext. }
  simpl. repeat split.
  exists (hashedName fam1 f1 (contentHash bytes)).
  rewrite Hname in *. auto.
Qed.

Lemma C5_witness :
  FontFile.hash (FontFile.mk Scenario.fontPath "demo-latin-wght-normal.woff2" "latin" "normal"
                   None true (Some "/fonts/demo-latin-normal-7644672d.woff2")
                   (Some "7644672d") (Some 1000))
    = Some (contentHash Scenario.content) /\
  FontFile.hash (FontFile.mk (FontFile.path Scenario.otherResolved)
                   "demo-latin-wght-normal.woff2" "latin" "normal"
                   None true (Some "/fonts/demo-latin-normal-7644672d.woff2")
                   (Some "7644672d") (Some 1000))
    = Some (contentHash Scenario.content) /\
  exists name,
    Some "/fonts/demo-latin-normal-7644672d.woff2" = Some ("/fonts/" +:+ name) /\
    Some "/fonts/demo-latin-normal-7644672d.woff2" = Some ("/fonts/" +:+ name) /\
    Fs.isFile (snd (copyFontFile Scenario.processor (Some "Demo") Scenario.resolved
                      Scenario.world))
              (Path.join [outputDir Scenario.processor; name]) /\
    Fs.isFile (snd (copyFontFile Scenario.otherProcessor (Some "Demo")
                      Scenario.otherResolved Scenario.otherWorld))
              (Path.join [outputDir Scenario.otherProcessor; name]).
Proof.
  apply (C5_same_content_same_name Scenario.processor Scenario.otherProcessor (Some "Demo")
           Scenario.resolved Scenario.otherResolved Scenario.world Scenario.otherWorld
           Scenario.content 1000 77).
  - vm_compute. reflexivity.
  - vm_compute. reflexivity.
  - reflexivity.
  - reflexivity.
  - reflexivity.
  - vm_compute. reflexivity.
  - vm_compute. reflexivity.
Defined.

(** C5 as the specification states it, without the condition on the
    extension, fails: a package that ships one face as [.woff2] and as
    [.woff] with the same bytes gets two different published names. *)
Lemma C5_counterexample :
  Fs.lookup Scenario.twinWorld (FontFile.path (Scenario.twin ".woff2"))
    = Some (File (Bytes "same bytes") 1000) /\
  Fs.lookup Scenario.twinWorld (FontFile.path (Scenario.twin ".woff"))
    = Some (File (Bytes "same bytes") 1000) /\
  FontFile.subset (Scenario.twin ".woff2") = FontFile.subset (Scenario.twin ".woff") /\
  FontFile.style (Scenario.twin ".woff2") = FontFile.style (Scenario.twin ".woff") /\
  map FontFile.url
      (Scenario.value (copyFontFiles Scenario.twinProcessor [Scenario.twin ".woff2"]
                         (Some "Twin") Scenario.twinWorld))
    = [Some "/fonts/twin-latin-normal-b7c7a19f.woff2"] /\
  map FontFile.url
      (Scenario.value (copyFontFiles Scenario.twinProcessor [Scenario.twin ".woff"]
                         (Some "Twin") Scenario.twinWorld))
    = [Some "/fonts/twin-latin-normal-b7c7a19f.woff"].
Proof. vm_compute. repeat split; reflexivity. Qed.

End PublishingClaims.

(** ** Fallback metrics *)

Section FallbackMetricsClaims.

Import FallbackFontMetrics.

(** The exported lookup honours a custom fallback in every tier: the stack
    is the custom string, the overrides are those the lookup gives without
    one. *)
Lemma getFallbackMetricsForFont_custom (fontFamily custom : string) :
  custom <> "" ->
  fallback (FallbackMetrics.getFallbackMetricsForFont fontFamily (Some custom)) = custom /\
  FallbackMetrics.sameOverrides
    (FallbackMetrics.getFallbackMetricsForFont fontFamily (Some custom))
    (FallbackMetrics.getFallbackMetricsForFont fontFamily None).
Proof.
  intros Hne. unfold FallbackMetrics.getFallbackMetricsForFont, FallbackMetrics.sameOverrides.
  assert (Js.truthy (Some custom) = Some custom) as -> by (destruct custom; done).
  simpl (Js.truthy None).
  destruct (FallbackMetrics.fallbackMetrics !! fontFamily) as [m|]; [done|].
  destruct (FallbackMetrics.fallbackMetrics !! Js.replace " Variable" "" fontFamily) as [m|];
    [done|].
  repeat match goal with |- context [if ?b then _ else _] => destruct b end; done.
Qed.

(** The tiers of the exported lookup, on the family of the specification:
    no entry for the name with or without its qualifier, so the keyword
    decides. *)
Example getFallbackMetricsForFont_mono :
  FallbackMetrics.getFallbackMetricsForFont "Some Mono Variable" None
  = mk "Courier New, Courier, monospace" "98%" "94%" "25%" "0%".
Proof. vm_compute. reflexivity. Qed.

(** C7, at the input where the code departs from it.  The lookup that the
    style sheet uses, [FontProcessor.getFallbackMetrics], returns the
    table entry of an exactly matching family unchanged and drops the
    custom fallback, where the exported [getFallbackMetricsForFont]
    returns the custom string; and it has neither the tier for the
    [Variable] qualifier nor the keyword defaults for monospace and icon
    families. *)
Theorem C7_processor_lookup_ignores_custom_fallback :
  fallback (FontProcessor.getFallbackMetrics "Montserrat" (Some "Foo"))
    = "Arial, Helvetica Neue, Helvetica, sans-serif" /\
  fallback (FallbackMetrics.getFallbackMetricsForFont "Montserrat" (Some "Foo")) = "Foo" /\
  FontProcessor.getFallbackMetrics "Some Mono Variable" (Some "Foo")
    = mk "Foo" "100%" "normal" "normal" "0%" /\
  FallbackMetrics.getFallbackMetricsForFont "Some Mono Variable" (Some "Foo")
    = mk "Foo" "98%" "94%" "25%" "0%".
Proof. vm_compute. repeat split; reflexivity. Qed.

End FallbackMetricsClaims.

(** ** File names: [parseFileName] *)

Section ParseInt.

Import Decimal Numeral.

Lemma readUint_of_lu (d e : uint) :
  readUint (DecimalPos.Unsigned.of_lu e) d = DecimalPos.Unsigned.of_lu (revapp d e).
Proof.
  revert e. induction d; intros e; simpl; try reflexivity;
    rewrite <- IHd; f_equal; simpl; lia.
Qed.

Lemma readUint_of_uint (d : uint) : readUint 0 d = Pos.of_uint d.
Proof.
  rewrite DecimalPos.Unsigned.of_uint_alt. unfold rev.
  rewrite <- readUint_of_lu. reflexivity.
Qed.

Lemma digits_acc_string_of_uint (d : uint) (acc : N) :
  Js.digits_acc (Z.of_N acc) (NilEmpty.string_of_uint d) = Z.of_N (readUint acc d).
Proof.
  revert acc. induction d; intros acc; simpl; try reflexivity;
    rewrite <- IHd; f_equal; rewrite N2Z.inj_add, N2Z.inj_mul; reflexivity.
Qed.

Lemma digits_to_uint (p : positive) :
  Js.digits (NilEmpty.string_of_uint (Pos.to_uint p)) = Some (Z.pos p).
Proof.
  pose proof (digits_acc_string_of_uint (Pos.to_uint p) 0) as H.
  rewrite readUint_of_uint, DecimalPos.Unsigned.of_to in H. simpl in H.
  pose proof (DecimalPos.Unsigned.to_uint_nonnil p) as Hnil.
  unfold Js.digits.
  destruct (Pos.to_uint p) eqn:E; [done| | | | | | | | | |]; simpl in *; by rewrite H.
Qed.

#[local] Arguments Js.nearestDouble : simpl never.

(** The integers up to 2^53 are doubles. *)
Lemma nearestDouble_exact (v : Z) : 0 <= v <= 2 ^ 53 -> Js.nearestDouble v = v.
Proof.
  intros Hv. destruct (decide (v = 2 ^ 53)) as [->|Hne]; [vm_compute; reflexivity|].
  unfold Js.nearestDouble. destruct (Z.ltb_spec v (2 ^ 53)); [reflexivity | lia].
Qed.

Lemma toNumber_exact (z : Z) : Z.abs z <= 2 ^ 53 -> Js.toNumber z = z.
Proof.
  intros Hz. unfold Js.toNumber. destruct (Z.ltb_spec z 0).
  - rewrite nearestDouble_exact by lia. lia.
  - apply nearestDouble_exact. lia.
Qed.

(** [parseInt] reads the decimal form of an integer as its Number value. *)
Lemma parseInt_ofZ (z : Z) : Js.parseInt (Js.ofZ z) = Some (Js.toNumber z).
Proof.
  unfold Js.ofZ, Z.to_int. destruct z as [|p|p]; [reflexivity| |].
  - simpl.
    assert (Js.parseInt (NilEmpty.string_of_uint (Pos.to_uint p))
            = Js.nearestDouble <$> Js.digits (NilEmpty.string_of_uint (Pos.to_uint p))) as ->
      by (destruct (Pos.to_uint p); reflexivity).
    rewrite digits_to_uint. reflexivity.
  - simpl. unfold Js.parseInt. simpl. rewrite digits_to_uint. reflexivity.
Qed.

(** A field that starts with neither white space, a sign nor a digit is
    not a number. *)
Lemma parseInt_not_numeric (c : ascii) (s : string) :
  Js.is_space c = false -> Js.is_digit c = false -> c <> "-"%char -> c <> "+"%char ->
  Js.parseInt (String c s) = None.
Proof.
  intros Hs Hd Hm Hp. unfold Js.parseInt. cbn [Js.skipSpace]. rewrite Hs.
  assert (Js.digits (String c s) = None) as Hnone by (simpl; by rewrite Hd).
  destruct c as [[] [] [] [] [] [] [] []]; try congruence;
    cbv beta iota; by rewrite Hnone.
Qed.

End ParseInt.

Section ParseFileName.

Import FontProcessor.

Lemma nth_from_end {A} (l : list A) (k : nat) (d : A) :
  (k < length l)%nat -> rev l !! k = Some (nth (length l - S k) l d).
Proof.
  intros Hk. rewrite <- (rev_nth l d Hk).
  destruct (nth_lookup_or_length (rev l) k d) as [H|H]; [exact H|].
  rewrite length_rev in H. lia.
Qed.

Lemma fontExtension (ext : string) :
  existsb (String.eqb ext) [".woff"; ".woff2"] = true <-> ext = ".woff" \/ ext = ".woff2".
Proof.
  simpl. rewrite !orb_true_iff, !String.eqb_eq. intuition discriminate.
Qed.

(** C8.  With [fields] the name without its extension, split at the
    hyphens: a name with another extension than [.woff] and [.woff2], or
    with fewer than three fields, is discarded; otherwise the descriptor
    has the last field as style and the third from last as subset, and its
    weight is unset for a variable request and is what [parseInt] makes
    of the second field from last for a static one: the Number value of
    the integer when the field is its decimal form, which is the integer
    itself up to 2^53, and unset, not an error, when the field is empty
    or does not start like a number.  (A field of more than 308
    characters can spell a number beyond the doubles and is left out.) *)
Theorem C8_parseFileName_grammar (filePath : string) (config : FontConfig.t) :
  let fileName := Path.basename filePath in
  let ext := Path.extname fileName in
  let fields := Js.split "-" (Js.dropEnd (String.length ext) fileName) in
  (ext <> ".woff" -> ext <> ".woff2" -> parseFileName filePath config = None) /\
  ((length fields < 3)%nat -> parseFileName filePath config = None) /\
  (ext = ".woff" \/ ext = ".woff2" -> (3 <= length fields)%nat ->
   exists style weightField subset info,
     rev fields !! 0%nat = Some style /\
     rev fields !! 1%nat = Some weightField /\
     rev fields !! 2%nat = Some subset /\
     parseFileName filePath config = Some info /\
     FileInfo.fileName info = fileName /\
     FileInfo.style info = style /\
     FileInfo.subset info = subset /\
     FileInfo.variable info = FontConfig.variable config /\
     (FontConfig.variable config = true -> FileInfo.weight info = None) /\
     (FontConfig.variable config = false ->
      ((String.length weightField <= 308)%nat ->
       FileInfo.weight info = Js.parseInt weightField) /\
      (forall z, weightField = Js.ofZ z -> (String.length weightField <= 308)%nat ->
         FileInfo.weight info = Some (Js.toNumber z)) /\
      (forall z, Z.abs z <= 2 ^ 53 -> weightField = Js.ofZ z ->
         FileInfo.weight info = Some z) /\
      (forall c rest, weightField = String c rest ->
         Js.is_space c = false -> Js.is_digit c = false ->
         c <> "-"%char -> c <> "+"%char -> FileInfo.weight info = None) /\
      (weightField = "" -> FileInfo.weight info = None))).
Proof.
  intros fileName ext fields. unfold parseFileName.
  fold fileName. fold ext. fold fields.
  destruct (existsb (String.eqb ext) [".woff"; ".woff2"]) eqn:Hext; simpl negb; cbv iota.
  - apply fontExtension in Hext.
    split; [intros H1 H2; destruct Hext; contradiction|].
    destruct (length fields <? 3)%nat eqn:Hlen.
    + apply Nat.ltb_lt in Hlen. split; [done|]. intros _ Hge. lia.
    + apply Nat.ltb_ge in Hlen. split; [intros Hlt; lia|]. intros _ _.
      eexists _, _, _, _.
      split; [apply (nth_from_end fields 0 ""); lia|].
      split; [apply (nth_from_end fields 1 ""); lia|].
      split; [apply (nth_from_end fields 2 ""); lia|].
      split; [reflexivity|]. simpl.
      do 4 (split; [reflexivity|]).
      split; intros Hv; rewrite Hv; simpl; [reflexivity|].
      split; [reflexivity|]. split; [|split; [|split]].
      * intros z -> _. apply parseInt_ofZ.
      * intros z Hz ->. rewrite parseInt_ofZ. f_equal. by apply toNumber_exact.
      * intros c rest -> Hs Hd Hm Hp. by apply parseInt_not_numeric.
      * intros ->. reflexivity.
  - split; [done|]. split; [done|].
    intros Hor. apply fontExtension in Hor. congruence.
Qed.

Lemma C8_witness :
  (exists info,
     parseFileName "/proj/node_modules/pkg-s/files/twin-latin-400-normal.woff2"
       Scenario.staticRequest = Some info /\
     FileInfo.style info = "normal" /\ FileInfo.subset info = "latin" /\
     FileInfo.weight info = Some 400) /\
  (parseFileName "/proj/node_modules/pkg-s/files/x-latin-9007199254740993-normal.woff2"
     Scenario.staticRequest ≫= FileInfo.weight) = Some 9007199254740992.
Proof.
  split; [|vm_compute; reflexivity].
  destruct (proj2 (proj2 (C8_parseFileName_grammar
                            "/proj/node_modules/pkg-s/files/twin-latin-400-normal.woff2"
                            Scenario.staticRequest)))
    as (style & weightField & subset & info & H0 & H1 & H2 & Hp & _ & Hs & Hsub & _ & _ & Hw).
  - right. reflexivity.
  - vm_compute. lia.
  - exists info. vm_compute in H0, H1, H2.
    destruct (Hw eq_refl) as (_ & _ & Hz & _).
    repeat split; [exact Hp | congruence | congruence |].
    apply Hz; [vm_compute; discriminate|]. inversion H1. reflexivity.
Defined.

End ParseFileName.

(** ** Sorting with a comparator *)

Section Sorting.

Context {A : Type} (cmp : A -> A -> Z).

Lemma insert_Permutation (x : A) (l : list A) : Permutation (Js.insert cmp x l) (x :: l).
Proof.
  induction l as [|y l IH]; simpl; [done|].
  destruct (0 <? cmp x y); [|done].
  rewrite IH. apply perm_swap.
Qed.

Lemma sort_Permutation (l : list A) : Permutation (Js.sort cmp l) l.
Proof.
  induction l as [|x l IH]; simpl; [done|].
  rewrite insert_Permutation. by constructor.
Qed.

Lemma sort_length (l : list A) : length (Js.sort cmp l) = length l.
Proof. apply Permutation_length, sort_Permutation. Qed.

(** What a consistent comparator satisfies. *)
Hypothesis cmp_asym : forall a b, 0 < cmp a b -> cmp b a <= 0.
Hypothesis cmp_trans : forall a b c, cmp a b <= 0 -> cmp b c <= 0 -> cmp a c <= 0.

Lemma insert_sorted (x : A) (l : list A) :
  StronglySorted (Js.cmp_le cmp) l -> StronglySorted (Js.cmp_le cmp) (Js.insert cmp x l).
Proof.
  induction 1 as [|y l Hsorted IH Hall]; simpl.
  - repeat constructor.
  - destruct (0 <? cmp x y) eqn:Hxy.
    + apply Z.ltb_lt in Hxy. constructor; [exact IH|].
      rewrite insert_Permutation. constructor; [by apply cmp_asym | exact Hall].
    + apply Z.ltb_ge in Hxy. constructor; [by constructor|].
      constructor; [exact Hxy|].
      eapply Forall_impl; [exact Hall|]. intros z Hz. by apply (cmp_trans x y z).
Qed.

Lemma sort_sorted (l : list A) : StronglySorted (Js.cmp_le cmp) (Js.sort cmp l).
Proof.
  induction l as [|x l IH]; simpl; [constructor | by apply insert_sorted].
Qed.

(** Two sorted arrangements of the same elements are the same list, as
    soon as elements that may come in either order are equal. *)
Lemma sorted_Permutation_unique (l1 l2 : list A) :
  (forall a b, In a l1 -> In b l1 -> cmp a b <= 0 -> cmp b a <= 0 -> a = b) ->
  StronglySorted (Js.cmp_le cmp) l1 -> StronglySorted (Js.cmp_le cmp) l2 ->
  Permutation l1 l2 -> l1 = l2.
Proof.
  intros Hanti Hs1. revert l2. induction Hs1 as [|x l1 Hs1 IH Hall1]; intros l2 Hs2 Hperm.
  - apply Permutation_nil in Hperm. by subst.
  - destruct Hs2 as [|y l2 Hs2 Hall2]; [by apply Permutation_sym, Permutation_nil_cons in Hperm|].
    assert (x = y) as ->.
    { assert (In x (y :: l2)) as Hx by (eapply Permutation_in; [exact Hperm | by left]).
      assert (In y (x :: l1)) as Hy
        by (eapply Permutation_in; [symmetry; exact Hperm | by left]).
      destruct Hx as [->|Hx]; [done|]. destruct Hy as [->|Hy]; [done|].
      apply Hanti; [by left | by right | |].
      - rewrite Forall_forall in Hall1. apply Hall1. by apply list_elem_of_In.
      - rewrite Forall_forall in Hall2. apply Hall2. by apply list_elem_of_In. }
    f_equal. apply IH; [|done|by apply Permutation_cons_inv in Hperm].
    intros a b Ha Hb. apply Hanti; by right.
Qed.

Lemma sort_Permutation_unique (l1 l2 : list A) :
  (forall a b, In a l1 -> In b l1 -> cmp a b <= 0 -> cmp b a <= 0 -> a = b) ->
  Permutation l1 l2 -> Js.sort cmp l1 = Js.sort cmp l2.
Proof.
  intros Hanti Hperm. apply sorted_Permutation_unique.
  - intros a b Ha Hb. apply Hanti; eapply Permutation_in; eauto using sort_Permutation.
  - apply sort_sorted.
  - apply sort_sorted.
  - by rewrite !sort_Permutation.
Qed.

End Sorting.

(** Positions in a sorted list follow the order. *)
Lemma StronglySorted_lookup {A} (R : A -> A -> Prop) (l : list A) (i j : nat) (a b : A) :
  StronglySorted R l -> (i < j)%nat -> l !! i = Some a -> l !! j = Some b -> R a b.
Proof.
  intros Hs. revert i j. induction Hs as [|x l Hs IH Hall]; intros i j Hij Hi Hj; [done|].
  destruct j as [|j]; [lia|]. simpl in Hj.
  destruct i as [|i]; simpl in Hi.
  - inversion Hi; subst. rewrite Forall_forall in Hall. apply Hall.
    by eapply list_elem_of_lookup_2.
  - eapply IH; [|exact Hi|exact Hj]. lia.
Qed.

(** Stability: an element that is inserted passes only elements it is
    strictly greater than, so the elements of one class stay in the order
    in which they came. *)
Section Stability.

Context {A : Type} (cmp : A -> A -> Z) (P : A -> Prop) `{!forall x, Decision (P x)}.
Hypothesis same_class : forall x y, P x -> P y -> cmp x y <= 0.

Lemma insert_filter_in (x : A) (l : list A) :
  P x -> filter P (Js.insert cmp x l) = x :: filter P l.
Proof.
  intros Hx. induction l as [|y l IH]; simpl.
  - by rewrite filter_cons_True.
  - destruct (0 <? cmp x y) eqn:Hxy.
    + apply Z.ltb_lt in Hxy.
      assert (~ P y) as Hy by (intros Hy; specialize (same_class x y Hx Hy); lia).
      rewrite !(filter_cons_False _ y) by done. exact IH.
    + by rewrite filter_cons_True.
Qed.

Lemma insert_filter_out (x : A) (l : list A) :
  ~ P x -> filter P (Js.insert cmp x l) = filter P l.
Proof.
  intros Hx. induction l as [|y l IH]; simpl.
  - by rewrite filter_cons_False.
  - destruct (0 <? cmp x y) eqn:Hxy.
    + rewrite !(filter_cons _ y). destruct (decide (P y)); by rewrite IH.
    + by rewrite filter_cons_False.
Qed.

Lemma sort_filter (l : list A) : filter P (Js.sort cmp l) = filter P l.
Proof.
  induction l as [|x l IH]; simpl; [done|].
  rewrite filter_cons. destruct (decide (P x)).
  - rewrite insert_filter_in by done. by rewrite IH.
  - rewrite insert_filter_out by done. exact IH.
Qed.

End Stability.

(** ** The order of the resolved files *)

Section ResolvedOrder.

Import FontProcessor.

Lemma compareFiles_gt (a b : FontFile.t) :
  0 < compareFiles a b <-> (fileRank b < fileRank a)%nat.
Proof.
  unfold compareFiles, fileRank, isLatin, isNormal.
  destruct (String.eqb (FontFile.subset a) "latin"), (String.eqb (FontFile.subset b) "latin"),
    (String.eqb (FontFile.style a) "normal"), (String.eqb (FontFile.style b) "normal");
    simpl; lia.
Qed.

Lemma compareFiles_le (a b : FontFile.t) :
  compareFiles a b <= 0 <-> (fileRank a <= fileRank b)%nat.
Proof. pose proof (compareFiles_gt a b). lia. Qed.

Lemma compareFiles_sorted (files : list FontFile.t) :
  StronglySorted (Js.cmp_le compareFiles) (Js.sort compareFiles files).
Proof.
  apply sort_sorted.
  - intros a b. rewrite compareFiles_gt, compareFiles_le. lia.
  - intros a b c. rewrite !compareFiles_le. lia.
Qed.

Lemma sorted_rank_position (files : list FontFile.t) (i j : nat) (a b : FontFile.t) :
  Js.sort compareFiles files !! i = Some a ->
  Js.sort compareFiles files !! j = Some b ->
  (fileRank a < fileRank b)%nat -> (i < j)%nat.
Proof.
  intros Hi Hj Hrank.
  destruct (decide (i < j)%nat) as [|Hge]; [done|]. exfalso.
  destruct (decide (i = j)) as [->|Hne].
  - rewrite Hi in Hj. inversion Hj; subst. lia.
  - assert (Js.cmp_le compareFiles b a) as Hle.
    { eapply (StronglySorted_lookup _ _ j i); eauto using compareFiles_sorted. lia. }
    apply compareFiles_le in Hle. lia.
Qed.

(** What [findFontFiles] returns is the list of the matched files, put
    through the sort. *)
Lemma findFontFiles_sorted packagePath config metadata w files w' :
  findFontFiles packagePath config metadata w = (Ok files, w') ->
  exists matched, files = Js.sort compareFiles matched.
Proof.
  unfold findFontFiles. intros H.
  apply bind_Ok in H as (e & w1 & _ & H).
  destruct (negb e); [discriminate|].
  apply bind_Ok in H as (matched & w2 & _ & H).
  inversion H. eauto.
Qed.

(** The order of a list that has been put through the sort: it holds the
    same files; every Latin file comes before every file of another
    subset; among files that are alike in being Latin or not, every
    normal-style file comes before every file of another style; files
    alike in both respects keep their original order; so a Latin normal
    file comes before any file that is not Latin or not normal. *)
Lemma sort_compareFiles_order (files : list FontFile.t) :
  let sorted := Js.sort compareFiles files in
  Permutation sorted files /\
  (forall i j a b, sorted !! i = Some a -> sorted !! j = Some b ->
     isLatin a = true -> isLatin b = false -> (i < j)%nat) /\
  (forall i j a b, sorted !! i = Some a -> sorted !! j = Some b ->
     isLatin a = isLatin b -> isNormal a = true -> isNormal b = false -> (i < j)%nat) /\
  (forall latin normal : bool,
     filter (fun f => isLatin f = latin /\ isNormal f = normal) sorted
     = filter (fun f => isLatin f = latin /\ isNormal f = normal) files) /\
  (forall i j a b, sorted !! i = Some a -> sorted !! j = Some b ->
     isLatin a = true -> isNormal a = true ->
     isLatin b = false \/ isNormal b = false -> (i < j)%nat).
Proof.
  intros sorted. split; [apply sort_Permutation|].
  split; [|split; [|split]].
  - intros i j a b Hi Hj Ha Hb. eapply sorted_rank_position; eauto.
    unfold fileRank. rewrite Ha, Hb. destruct (isNormal a), (isNormal b); simpl; lia.
  - intros i j a b Hi Hj Hab Ha Hb. eapply sorted_rank_position; eauto.
    unfold fileRank. rewrite Hab, Ha, Hb. destruct (isLatin b); simpl; lia.
  - intros latin normal. apply sort_filter.
    intros x y [Hx1 Hx2] [Hy1 Hy2]. apply compareFiles_le.
    unfold fileRank. rewrite Hx1, Hx2, Hy1, Hy2. lia.
  - intros i j a b Hi Hj Ha1 Ha2 Hb. eapply sorted_rank_position; eauto.
    unfold fileRank. rewrite Ha1, Ha2.
    destruct Hb as [-> | ->]; [destruct (isNormal b) | destruct (isLatin b)]; simpl; lia.
Qed.

(** What [findFontFiles] returns is what its loops have matched, put
    through the sort. *)
Lemma findFontFiles_matched packagePath config metadata w files w' :
  findFontFiles packagePath config metadata w = (Ok files, w') ->
  exists matched,
    matchedFiles packagePath config metadata w = (Ok matched, w') /\
    files = Js.sort compareFiles matched.
Proof.
  unfold findFontFiles. intros H.
  apply bind_Ok in H as (e & w1 & He & H).
  unfold Fs.existsSync in He. inversion He; subst e w1; clear He.
  destruct (negb _); [discriminate|].
  apply bind_Ok in H as (matched & w2 & Hloop & H).
  inversion H; subst. exists matched. split; [exact Hloop | reflexivity].
Qed.

Lemma matches_absolute (p path : string) :
  Glob.matches (String "/" p) path = true -> Js.startsWith "/" path = true.
Proof.
  unfold Glob.matches. cbn [String.length Glob.tokens].
  change (Glob.tokens (S (String.length p)) true (String "/" p))
    with (Glob.Lit "/" :: Glob.tokens (String.length p) true p).
  cbn [Glob.matchTokens]. destruct path as [|d path]; [discriminate|].
  intros H. apply andb_true_iff in H as [Hd _]. apply Ascii.eqb_eq in Hd. subst d.
  unfold Js.startsWith. cbn [String.prefix].
  destruct (ascii_dec "/" "/"); [by destruct path | done].
Qed.

Lemma glob_found (pattern : string) (w : World) (found : list string) (w' : World) :
  Js.startsWith "/" pattern = true ->
  Fs.glob pattern w = (Ok found, w') ->
  w' = w /\ Forall (fun p => is_Some (Fs.lookup w p)) found.
Proof.
  intros Habs H. unfold Fs.glob in H. inversion H; subst; clear H. split; [reflexivity|].
  apply Forall_forall. intros path Hin.
  apply list_elem_of_filter in Hin as [Hmatch Hin].
  apply list_elem_of_fmap in Hin as ([path' node] & -> & Hin). cbn [fst] in *.
  apply elem_of_map_to_list in Hin.
  destruct pattern as [|c pattern]; [discriminate|].
  unfold Js.startsWith in Habs. cbn [String.prefix] in Habs.
  destruct (ascii_dec "/" c) as [<-|]; [|discriminate].
  apply Is_true_true in Hmatch. apply matches_absolute in Hmatch.
  unfold Fs.lookup, Path.resolve. rewrite Hmatch. eauto.
Qed.


Lemma statSize_found (p : string) (w : World) :
  is_Some (Fs.lookup w p) -> exists size, Fs.statSize p w = (Ok size, w).
Proof. intros [n Hn]. unfold Fs.statSize. rewrite Hn. eauto. Qed.

Lemma backslashesToSlashes_absolute (s : string) :
  Js.startsWith "/" s = true -> Js.startsWith "/" (Js.backslashesToSlashes s) = true.
Proof.
  destruct s as [|c s]; [discriminate|]. unfold Js.startsWith. cbn [String.prefix].
  destruct (ascii_dec "/" c) as [<-|]; [|discriminate]. intros _.
  cbn. by destruct (Js.backslashesToSlashes s).
Qed.

Lemma startsWith_append (p a b : string) :
  Js.startsWith p a = true -> Js.startsWith p (a +:+ b) = true.
Proof.
  unfold Js.startsWith. revert a. induction p as [|c p IH]; intros a H;
    [by destruct (a +:+ b)|].
  destruct a as [|x a]; [discriminate|].
  change (String x a +:+ b) with (String x (a +:+ b)).
  cbn [String.prefix] in *. destruct (ascii_dec c x); [by apply IH | discriminate].
Qed.

(** A loop whose body returns on every element returns. *)
Lemma forM_returns {A S} (body : S -> A -> M S) (l : list A) (s : S) (w : World) :
  Forall (fun x => forall s, exists s', body s x w = (Ok s', w)) l ->
  exists s', forM l s body w = (Ok s', w).
Proof.
  intros Hall. revert s. induction Hall as [|x l Hx _ IH]; intros s; cbn [forM]; [by eauto|].
  rewrite bind_unfold. destruct (Hx s) as [s1 ->]. apply IH.
Qed.

(** The loops of [findFontFiles] run to their end for a package with an
    absolute path: every path that [glob] returns is there for [statSync]. *)
Lemma matchedFiles_returns (packagePath : string) (config : FontConfig.t)
    (metadata : FontMetadata.t) (w : World) :
  Js.startsWith "/" packagePath = true ->
  exists matched, matchedFiles packagePath config metadata w = (Ok matched, w).
Proof.
  intros Habs. unfold matchedFiles. cbv zeta.
  match goal with
  | |- exists matched, forM _ [] ?body w = _ =>
      enough (forall patterns files, exists matched,
                forM patterns files body w = (Ok matched, w)) as Hloop by apply Hloop
  end.
  intros patterns.
  induction patterns as [|pattern patterns IH]; intros files; cbn [forM]; [by eauto|].
  rewrite !bind_unfold.
  destruct (Fs.glob _ w) as [[found|e] w1] eqn:Hglob; [|discriminate Hglob].
  apply glob_found in Hglob as [-> Hfound].
  2:{ apply backslashesToSlashes_absolute. unfold Path.join. cbn [Js.join].
      by do 2 apply startsWith_append. }
  cbv beta.
  match goal with
  | |- context [forM found files ?body w] =>
      destruct (forM_returns body found files w) as [files' ->]
  end.
  - apply Forall_forall. intros filePath Hin accumulated.
    rewrite Forall_forall in Hfound. specialize (Hfound filePath Hin).
    destruct (parseFileName filePath config) as [fileInfo|]; [|by eauto].
    rewrite bind_unfold. destruct (statSize_found _ _ Hfound) as [size ->]. by eauto.
  - apply IH.
Qed.

Lemma findFontFiles_returns (packagePath : string) (config : FontConfig.t)
    (metadata : FontMetadata.t) (w : World) :
  Js.startsWith "/" packagePath = true ->
  is_Some (Fs.lookup w (Path.join [packagePath; "files"])) ->
  exists files, findFontFiles packagePath config metadata w = (Ok files, w).
Proof.
  intros Habs Hdir.
  destruct (matchedFiles_returns packagePath config metadata w Habs) as [matched Hloop].
  unfold findFontFiles. rewrite bind_unfold. unfold Fs.existsSync.
  rewrite bool_decide_eq_true_2 by exact Hdir. cbn [negb].
  rewrite bind_unfold. unfold matchedFiles in Hloop. rewrite Hloop. eauto.
Qed.

(** C6.  The default subset is [latin], literally.  For a package with
    an absolute path that has its directory of files, [findFontFiles]
    returns.  Whenever it returns, its result holds the files that its
    loops have matched; in it every Latin file comes before every file of
    another subset; among files that are alike in being Latin or not,
    every normal-style file comes before every file of another style;
    files alike in both respects are in the order in which they were
    matched; so a Latin normal file comes before any file that is not
    Latin or not normal. *)
Theorem C6_resolved_files_order (packagePath : string) (config : FontConfig.t)
    (metadata : FontMetadata.t) (w : World) :
  (Js.startsWith "/" packagePath = true ->
   is_Some (Fs.lookup w (Path.join [packagePath; "files"])) ->
   exists files, findFontFiles packagePath config metadata w = (Ok files, w)) /\
  (forall (files : list FontFile.t) (w' : World),
     findFontFiles packagePath config metadata w = (Ok files, w') ->
     exists matched,
       matchedFiles packagePath config metadata w = (Ok matched, w') /\
       Permutation files matched /\
       (forall i j a b, files !! i = Some a -> files !! j = Some b ->
          isLatin a = true -> isLatin b = false -> (i < j)%nat) /\
       (forall i j a b, files !! i = Some a -> files !! j = Some b ->
          isLatin a = isLatin b -> isNormal a = true -> isNormal b = false -> (i < j)%nat) /\
       (forall latin normal : bool,
          filter (fun f => isLatin f = latin /\ isNormal f = normal) files
          = filter (fun f => isLatin f = latin /\ isNormal f = normal) matched) /\
       (forall i j a b, files !! i = Some a -> files !! j = Some b ->
          isLatin a = true -> isNormal a = true ->
          isLatin b = false \/ isNormal b = false -> (i < j)%nat)).
Proof.
  split.
  - apply findFontFiles_returns.
  - intros files w' Hrun.
    apply findFontFiles_matched in Hrun as (matched & Hmatched & ->).
    exists matched. split; [exact Hmatched|].
    apply sort_compareFiles_order.
Qed.

Lemma C6_witness :
  exists files matched,
    findFontFiles "/proj/node_modules/pkg-q" Scenario.quartetRequest FontMetadata.empty
      Scenario.quartetWorld = (Ok files, Scenario.quartetWorld) /\
    matchedFiles "/proj/node_modules/pkg-q" Scenario.quartetRequest FontMetadata.empty
      Scenario.quartetWorld = (Ok matched, Scenario.quartetWorld) /\
    map (fun f => (FontFile.subset f, FontFile.style f)) matched
    = [ ("cyrillic", "italic"); ("cyrillic", "italic"); ("cyrillic", "normal");
        ("cyrillic", "normal"); ("latin", "italic"); ("latin", "italic");
        ("latin", "normal"); ("latin", "normal") ] /\
    map (fun f => (FontFile.subset f, FontFile.style f)) files
    = [ ("latin", "normal"); ("latin", "normal"); ("latin", "italic"); ("latin", "italic");
        ("cyrillic", "normal"); ("cyrillic", "normal"); ("cyrillic", "italic");
        ("cyrillic", "italic") ] /\
    (forall i j a b, files !! i = Some a -> files !! j = Some b ->
       isLatin a = true -> isNormal a = true ->
       isLatin b = false \/ isNormal b = false -> (i < j)%nat).
Proof.
  assert (exists files matched,
            findFontFiles "/proj/node_modules/pkg-q" Scenario.quartetRequest FontMetadata.empty
              Scenario.quartetWorld = (Ok files, Scenario.quartetWorld) /\
            matchedFiles "/proj/node_modules/pkg-q" Scenario.quartetRequest FontMetadata.empty
              Scenario.quartetWorld = (Ok matched, Scenario.quartetWorld) /\
            map (fun f => (FontFile.subset f, FontFile.style f)) matched
            = [ ("cyrillic", "italic"); ("cyrillic", "italic"); ("cyrillic", "normal");
                ("cyrillic", "normal"); ("latin", "italic"); ("latin", "italic");
                ("latin", "normal"); ("latin", "normal") ] /\
            map (fun f => (FontFile.subset f, FontFile.style f)) files
            = [ ("latin", "normal"); ("latin", "normal"); ("latin", "italic");
                ("latin", "italic"); ("cyrillic", "normal"); ("cyrillic", "normal");
                ("cyrillic", "italic"); ("cyrillic", "italic") ])
    as (files & matched & Hrun & Hmatched & Horder & Hsorted)
    by (eexists _, _; repeat split; vm_compute; reflexivity).
  destruct (C6_resolved_files_order "/proj/node_modules/pkg-q" Scenario.quartetRequest
              FontMetadata.empty Scenario.quartetWorld) as [_ Hresult].
  destruct (Hresult files Scenario.quartetWorld Hrun) as (_ & _ & _ & _ & _ & _ & Hfirst).
  exists files, matched. split; [exact Hrun|]. split; [exact Hmatched|].
  split; [exact Horder|]. split; [exact Hsorted | exact Hfirst].
Defined.

End ResolvedOrder.

(** ** The orchestrator: [processFont] and [processAll] *)

Section Orchestrator.

Import FontProcessor.

(** A font that is processed without error is fully resolved. *)
Lemma processFont_Ok self fontConfig w result w' :
  processFont self fontConfig w = (Ok result, w') ->
  ProcessedFont.config result = fontConfig /\
  ProcessedFont.errors result = [] /\
  ProcessedFont.files result <> [] /\
  Forall published (ProcessedFont.files result) /\
  is_Some (FontMetadata.family (ProcessedFont.metadata result)).
Proof.
  unfold processFont. intros H.
  apply bind_Ok in H as ([packagePath|] & w1 & _ & H); [|discriminate].
  apply bind_Ok in H as ([metadata|] & w2 & _ & H); [|discriminate].
  apply bind_Ok in H as (fontFiles & w3 & _ & H).
  destruct (length fontFiles =? 0)%nat eqn:Hlen; [discriminate|].
  apply Nat.eqb_neq in Hlen.
  apply bind_Ok in H as (copiedFiles & w4 & Hcopy & H).
  inversion H; subst; clear H. simpl.
  unfold copyFontFiles in Hcopy. apply copyLoop_Ok in Hcopy as (news & -> & Hall). simpl.
  pose proof (Forall2_length _ _ _ Hall) as Hlength.
  split; [done|]. split; [done|].
  split; [intros ->; simpl in Hlength; lia|].
  split.
  - clear -Hall. induction Hall as [|file out files outs (wa & wb & Hstep & _) _ IH];
      constructor; [|exact IH].
    apply copyFontFile_Ok in Hstep as (fam & content & t & _ & _ & -> & _).
    split; simpl; eauto.
  - destruct Hall as [|file out files outs (wa & wb & Hstep & _) _]; [done|].
    apply copyFontFile_Ok in Hstep as (fam & content & t & Hfam & _).
    rewrite Hfam. eauto.
Qed.

(** The three failures of the specification, as [processFont] raises
    them. *)
Lemma processFont_packageNotFound self fontConfig w w1 :
  resolvePackagePath self (FontConfig.package fontConfig) w = (Ok None, w1) ->
  processFont self fontConfig w = (Throw (packageNotFound (FontConfig.package fontConfig)), w1).
Proof. intros H. unfold processFont, bind. by rewrite H. Qed.

Lemma processFont_metadataMissing self fontConfig w packagePath w1 w2 :
  resolvePackagePath self (FontConfig.package fontConfig) w = (Ok (Some packagePath), w1) ->
  readFontMetadata packagePath fontConfig w1 = (Ok None, w2) ->
  processFont self fontConfig w = (Throw (metadataMissing (FontConfig.package fontConfig)), w2).
Proof. intros H1 H2. unfold processFont, bind. by rewrite H1, H2. Qed.

Lemma processFont_noFilesFound self fontConfig w packagePath w1 metadata w2 w3 :
  resolvePackagePath self (FontConfig.package fontConfig) w = (Ok (Some packagePath), w1) ->
  readFontMetadata packagePath fontConfig w1 = (Ok (Some metadata), w2) ->
  findFontFiles packagePath fontConfig metadata w2 = (Ok [], w3) ->
  processFont self fontConfig w = (Throw (noFilesFound (FontConfig.package fontConfig)), w3).
Proof. intros H1 H2 H3. unfold processFont, bind. by rewrite H1, H2, H3. Qed.

(** The loop of [processAll] never throws: it runs the whole batch. *)
Lemma processLoop_batch self (fonts : list FontConfig.t) (acc : list ProcessedFont.t) w :
  exists results w',
    forM fonts acc (fun processedFonts fontConfig =>
      try_catch
        (result <- processFont self fontConfig ;; ret (processedFonts ++ [result]))
        (fun message => ret (processedFonts ++ [failedEntry fontConfig message]))) w
    = (Ok (acc ++ results), w') /\
    batch self fonts w results w'.
Proof.
  revert acc w. induction fonts as [|c fonts IH]; intros acc w; simpl.
  - exists [], w. split; [by rewrite app_nil_r | constructor].
  - unfold bind at 1. unfold try_catch at 1. unfold bind at 1.
    destruct (processFont self c w) as [[r|e] w1] eqn:Hfont; simpl.
    + destruct (IH (acc ++ [r]) w1) as (results & w' & Hloop & Hbatch).
      exists (r :: results), w'. rewrite Hloop, <- app_assoc.
      split; [done | by econstructor].
    + destruct (IH (acc ++ [failedEntry c e]) w1) as (results & w' & Hloop & Hbatch).
      exists (failedEntry c e :: results), w'. rewrite Hloop, <- app_assoc.
      split; [done | by eapply batch_failed].
Qed.

Lemma batch_entries self fonts w results w' :
  batch self fonts w results w' ->
  Forall2 (fun fontConfig entry =>
             ProcessedFont.config entry = fontConfig /\
             ((ProcessedFont.errors entry = [] /\
               ProcessedFont.files entry <> [] /\
               Forall published (ProcessedFont.files entry) /\
               is_Some (FontMetadata.family (ProcessedFont.metadata entry))) \/
              (exists message, entry = failedEntry fontConfig message)))
          fonts results.
Proof.
  induction 1 as [|c cs w r w1 rs w' Hfont _ IH|c cs w e w1 rs w' Hfont _ IH]; constructor;
    try done.
  - apply processFont_Ok in Hfont as (? & ? & ? & ? & ?). split; [done|]. by left.
  - split; [done|]. right. eauto.
Qed.

(** C9.  [processAll] always returns, with one entry for every
    configured font, in the order of descending priority: it runs the
    whole batch, and a font whose processing throws, be it for a missing
    package, missing metadata or no matching file, gets the entry that
    records the message on its [errors], after which the next font is
    processed. *)
Theorem C9_failure_does_not_abort_batch (self : FontProcessor.t) (w : World) :
  exists results w',
    processAll self w = (Ok results, w') /\
    batch self (Js.sort comparePriority (ModuleOptions.fonts (options self))) w results w' /\
    map ProcessedFont.config results
      = Js.sort comparePriority (ModuleOptions.fonts (options self)) /\
    Permutation (map ProcessedFont.config results) (ModuleOptions.fonts (options self)) /\
    length results = length (ModuleOptions.fonts (options self)) /\
    Forall (fun entry =>
              ProcessedFont.errors entry = [] \/
              exists message,
                entry = failedEntry (ProcessedFont.config entry) message)
           results.
Proof.
  unfold processAll.
  destruct (processLoop_batch self
              (Js.sort comparePriority (ModuleOptions.fonts (options self))) [] w)
    as (results & w' & Hloop & Hbatch).
  exists results, w'. split; [exact Hloop|]. split; [exact Hbatch|].
  pose proof (batch_entries _ _ _ _ _ Hbatch) as Hentries.
  assert (map ProcessedFont.config results
          = Js.sort comparePriority (ModuleOptions.fonts (options self))) as Hconfigs.
  { clear -Hentries. induction Hentries as [|c r cs rs [Hc _] _ IH]; simpl; [done|].
    by rewrite Hc, IH. }
  split; [exact Hconfigs|].
  split; [rewrite Hconfigs; apply sort_Permutation|].
  split; [rewrite <- (length_map ProcessedFont.config), Hconfigs; apply sort_length|].
  clear -Hentries. induction Hentries as [|c r cs rs [Hc Hr] _ IH]; constructor; [|done].
  destruct Hr as [(He & _)|(message & ->)]; [by left|]. right. simpl. eauto.
Qed.

(** C2.  Every entry that [processAll] returns is either failed, with
    errors and no file, or fully resolved, without error and with a
    non-empty list of files that all carry their URL and hash. *)
Theorem C2_no_partial_publication (self : FontProcessor.t) (w : World) :
  exists results w',
    processAll self w = (Ok results, w') /\
    Forall (fun entry =>
              (ProcessedFont.errors entry <> [] -> ProcessedFont.files entry = []) /\
              (ProcessedFont.errors entry = [] ->
               ProcessedFont.files entry <> [] /\
               Forall published (ProcessedFont.files entry) /\
               is_Some (FontMetadata.family (ProcessedFont.metadata entry))) /\
              ~ (ProcessedFont.errors entry <> [] /\ ProcessedFont.files entry <> []))
           results.
Proof.
  unfold processAll.
  destruct (processLoop_batch self
              (Js.sort comparePriority (ModuleOptions.fonts (options self))) [] w)
    as (results & w' & Hloop & Hbatch).
  exists results, w'. split; [exact Hloop|].
  pose proof (batch_entries _ _ _ _ _ Hbatch) as Hentries.
  clear -Hentries. induction Hentries as [|c r cs rs [Hc Hr] _ IH]; constructor; [|done].
  destruct Hr as [(He & Hf & Hp & Hm)|(message & ->)].
  - split; [congruence|]. split; [done|]. intros [? _]. congruence.
  - simpl. split; [done|]. split; [done|]. intros [_ ?]. congruence.
Qed.

(** With two axes the patterns differ and the one file is published
    once. *)
Example two_axes_published_once :
  map (fun entry => length (ProcessedFont.files entry))
      (Scenario.value
         (processAll (FontProcessor.new (Scenario.optionsFor [Scenario.twoAxes]) "/proj")
            Scenario.world))
  = [1%nat].
Proof. vm_compute. reflexivity. Qed.

Lemma C9_witness :
  map ProcessedFont.errors (Scenario.value (processAll Scenario.mixedProcessor Scenario.world))
  = [ [packageNotFound "pkg-missing"]; [] ] /\
  map ProcessedFont.config (Scenario.value (processAll Scenario.mixedProcessor Scenario.world))
  = [ Scenario.missingRequest; Scenario.request ].
Proof.
  destruct (C9_failure_does_not_abort_batch Scenario.mixedProcessor Scenario.world)
    as (results & w' & Hrun & _ & Hconfigs & _).
  split; [vm_compute; reflexivity|].
  unfold Scenario.value. rewrite Hrun. simpl fst. cbv iota. rewrite Hconfigs.
  vm_compute. reflexivity.
Defined.

Lemma C2_witness :
  Forall (fun entry =>
            (ProcessedFont.errors entry <> [] -> ProcessedFont.files entry = []) /\
            (ProcessedFont.errors entry = [] ->
             ProcessedFont.files entry <> [] /\
             Forall published (ProcessedFont.files entry) /\
             is_Some (FontMetadata.family (ProcessedFont.metadata entry))) /\
            ~ (ProcessedFont.errors entry <> [] /\ ProcessedFont.files entry <> []))
         (Scenario.value (processAll Scenario.mixedProcessor Scenario.world)).
Proof.
  destruct (C2_no_partial_publication Scenario.mixedProcessor Scenario.world)
    as (results & w' & Hrun & Hall).
  unfold Scenario.value. rewrite Hrun. simpl fst. cbv iota. exact Hall.
Defined.

(** C1, at the scenario of the specification.  The request names one
    axis, so the pattern of the joined axes and the pattern of the single
    axis are the same pattern; the one file of the package matches both,
    and nothing removes the second match.  The run publishes the file
    twice, under the expected URL, and the style sheet has two identical
    face blocks for it, each with the weight range and the variations
    format. *)
Theorem C1_single_axis_file_is_published_twice :
  buildFilePatterns Scenario.request Scenario.metadata ["latin"] ["normal"] [400; 700]
  = [ "*-latin-wght-normal.woff2"; "*-latin-wght-normal.woff2";
      "*-latin-wght-normal.woff"; "*-latin-wght-normal.woff" ] /\
  exists entry file css,
    fst (processAll Scenario.processor Scenario.world) = Ok [entry] /\
    ProcessedFont.errors entry = [] /\
    ProcessedFont.files entry = [file; file] /\
    FontFile.path file = Scenario.fontPath /\
    FontFile.size file = Some 1000 /\
    FontFile.url file = Some "/fonts/demo-latin-normal-7644672d.woff2" /\
    generateFontFaces Scenario.processor [entry] = Ok css /\
    countOccurrences (generateSingleFontFace Scenario.processor entry file) css = 2%nat /\
    Js.includes "font-weight: 400 700;"
      (generateSingleFontFace Scenario.processor entry file) = true /\
    Js.includes "src: url('/fonts/demo-latin-normal-7644672d.woff2') format('woff2-variations');"
      (generateSingleFontFace Scenario.processor entry file) = true.
Proof.
  split; [vm_compute; reflexivity|].
  eexists _, _, _.
  split; [vm_compute; reflexivity|].
  vm_compute. repeat split; reflexivity.
Qed.

End Orchestrator.

(** ** Comparison of strings by code units *)

Section StringOrder.

Lemma ascii_compare_Lt_trans (a b c : ascii) :
  Ascii.compare a b = Lt -> Ascii.compare b c = Lt -> Ascii.compare a c = Lt.
Proof.
  unfold Ascii.compare. rewrite !N.compare_lt_iff. lia.
Qed.

Lemma string_compare_Lt_trans (a b c : string) :
  String.compare a b = Lt -> String.compare b c = Lt -> String.compare a c = Lt.
Proof.
  revert b c. induction a as [|x a IH]; intros [|y b] [|z c]; simpl; try done.
  destruct (Ascii.compare x y) eqn:Hxy; try done.
  - apply Ascii.compare_eq_iff in Hxy as ->.
    destruct (Ascii.compare y z) eqn:Hyz; try done. apply IH.
  - destruct (Ascii.compare y z) eqn:Hyz; try done.
    + apply Ascii.compare_eq_iff in Hyz as <-. by rewrite Hxy.
    + by rewrite (ascii_compare_Lt_trans x y z).
Qed.

Lemma compareZ_sign (a b : string) : Js.compareZ a b < 0 <-> 0 < Js.compareZ b a.
Proof.
  unfold Js.compareZ. rewrite (String.compare_antisym a b).
  destruct (String.compare b a); simpl; lia.
Qed.

Lemma compareZ_refl (a : string) : Js.compareZ a a = 0.
Proof.
  unfold Js.compareZ. pose proof (String.compare_antisym a a) as H.
  destruct (String.compare a a); simpl in H; congruence.
Qed.

Lemma compareZ_zero (a b : string) : Js.compareZ a b = 0 -> a = b.
Proof.
  unfold Js.compareZ. destruct (String.compare a b) eqn:H; try done.
  by apply String.compare_eq_iff in H.
Qed.

Lemma compareZ_trans (a b c : string) :
  Js.compareZ a b <= 0 -> Js.compareZ b c <= 0 -> Js.compareZ a c <= 0.
Proof.
  unfold Js.compareZ.
  destruct (String.compare a b) eqn:Hab; [| |lia].
  - apply String.compare_eq_iff in Hab as ->. done.
  - destruct (String.compare b c) eqn:Hbc; [| |lia].
    + apply String.compare_eq_iff in Hbc as <-. by rewrite Hab.
    + by rewrite (string_compare_Lt_trans a b c).
Qed.

Lemma compareZ_antisym (a b : string) :
  Js.compareZ a b <= 0 -> Js.compareZ b a <= 0 -> a = b.
Proof.
  intros Hab Hba. apply compareZ_zero.
  pose proof (compareZ_sign a b). pose proof (compareZ_sign b a). lia.
Qed.

(** The sort without comparator puts the same elements in the same order,
    whatever order they came in. *)
Lemma sortStrings_Permutation (l l' : list string) :
  Permutation l l' -> Js.sortStrings l = Js.sortStrings l'.
Proof.
  apply sort_Permutation_unique.
  - intros a b Hab. apply compareZ_sign in Hab. lia.
  - apply compareZ_trans.
  - intros a b _ _. apply compareZ_antisym.
Qed.

Lemma ofZ_inj (a b : Z) : Js.ofZ a = Js.ofZ b -> a = b.
Proof.
  unfold Js.ofZ. intros H. apply DecimalZ.to_int_inj.
  pose proof (NilEmpty.isi (Z.to_int a)) as Ha. rewrite H, NilEmpty.isi in Ha. congruence.
Qed.

Lemma sortNumbers_Permutation (l l' : list Z) :
  Permutation l l' -> Js.sortNumbers l = Js.sortNumbers l'.
Proof.
  apply sort_Permutation_unique.
  - intros a b Hab. apply compareZ_sign in Hab. lia.
  - intros a b c. apply compareZ_trans.
  - intros a b _ _ Hab Hba. apply ofZ_inj. by apply compareZ_antisym.
Qed.

End StringOrder.

(** ** The configuration hash *)

Section ConfigHash.

Import CacheManager.

Lemma fmap_sortStrings (a b : option (list string)) :
  permutedOption a b -> Js.sortStrings <$> a = Js.sortStrings <$> b.
Proof.
  destruct a, b; simpl; try done. intros H. f_equal. by apply sortStrings_Permutation.
Qed.

Lemma fmap_sortNumbers (a b : option (list Z)) :
  permutedOption a b -> Js.sortNumbers <$> a = Js.sortNumbers <$> b.
Proof.
  destruct a, b; simpl; try done. intros H. f_equal. by apply sortNumbers_Permutation.
Qed.

(** The order of the elements of the arrays is normalised away. *)
Lemma normalize_reordered (a b : FontConfig.t) : reordered a b -> normalize a = normalize b.
Proof.
  intros (Hp & Hf & Hv & Hpre & Hw & Hst & Hsu & Hax & _ & Hd & _ & Hpri).
  unfold normalize.
  rewrite Hp, Hf, Hv, Hpre, Hd, Hpri.
  by rewrite (fmap_sortNumbers _ _ Hw), (fmap_sortStrings _ _ Hst),
    (fmap_sortStrings _ _ Hsu), (fmap_sortStrings _ _ Hax).
Qed.

(** Sorting the arrays where they are does not show in the normalised
    form: hashing a second time gives the same hash. *)
Lemma normalize_sortedInPlace (font : FontConfig.t) :
  normalize (sortedInPlace font) = normalize font.
Proof.
  symmetry. apply normalize_reordered.
  unfold reordered, sortedInPlace; simpl.
  repeat split;
    match goal with
    | |- permutedOption ?o _ =>
        destruct o; simpl; [symmetry; apply sort_Permutation | exact I]
    | _ => reflexivity
    end.
Qed.

(** The collation of the process: a comparison whose sign is reversed
    when its arguments are swapped, and whose order is transitive. *)
Variable localeCompare : string -> string -> Z.
Hypothesis localeCompare_sign : forall a b, localeCompare a b < 0 <-> 0 < localeCompare b a.
Hypothesis localeCompare_trans :
  forall a b c, localeCompare a b <= 0 -> localeCompare b c <= 0 -> localeCompare a c <= 0.

Lemma configData_Permutation (fonts fonts' : list FontConfig.t) :
  (forall a b, In a fonts -> In b fonts ->
     localeCompare (FontConfig.package a) (FontConfig.package b) = 0 ->
     normalize a = normalize b) ->
  Permutation (map normalize fonts) (map normalize fonts') ->
  configData localeCompare fonts = configData localeCompare fonts'.
Proof.
  intros Hdistinct Hperm. unfold configData. apply sort_Permutation_unique; [| | |exact Hperm].
  - intros a b Hab. apply localeCompare_sign in Hab. lia.
  - intros a b c. apply localeCompare_trans.
  - intros a' b' Ha Hb Hab Hba.
    apply in_map_iff in Ha as (a & <- & Ha). apply in_map_iff in Hb as (b & <- & Hb).
    apply Hdistinct; [done|done|]. simpl in Hab, Hba.
    pose proof (localeCompare_sign (FontConfig.package a) (FontConfig.package b)).
    pose proof (localeCompare_sign (FontConfig.package b) (FontConfig.package a)).
    lia.
Qed.


End ConfigHash.

Section ConfigHashExamples.

Import CacheManager.



(** The same under every collation: a package name compares equal to
    itself. *)
Lemma same_package_order_matters (localeCompare : string -> string -> Z) :
  localeCompare "pkg-a" "pkg-a" = 0 ->
  generateConfigHash localeCompare [Scenario.request; Scenario.sibling]
  <> generateConfigHash localeCompare [Scenario.sibling; Scenario.request].
Proof.
  intros Hsame. unfold generateConfigHash, configString, configData. simpl.
  rewrite Hsame. simpl. intros H. vm_compute in H. discriminate.
Qed.

End ConfigHashExamples.

(** ** The hashed text determines the normalised configuration *)

#[local] Arguments String.append !_ _ / : simpl nomatch.

Section JsonText.

Lemma append_assoc (a b c : string) : (a +:+ b) +:+ c = a +:+ (b +:+ c).
Proof. induction a as [|x a IH]; simpl; [done | f_equal; exact IH]. Qed.

Lemma append_nil_r (a : string) : a +:+ "" = a.
Proof. induction a as [|x a IH]; simpl; [done | f_equal; exact IH]. Qed.

Lemma hasPrefix_append (a b : string) : hasPrefix a (a +:+ b) = true.
Proof.
  induction a as [|x a IH]; simpl; [done|]. by rewrite Ascii.eqb_refl.
Qed.

(** Escaping is a prefix code: the escaped text can be read back one
    code unit at a time. *)
Lemma decodeEscape_escapeChar (c : ascii) (r : string) :
  decodeEscape (Json.escapeChar c +:+ r) = Some (c, r).
Proof.
  destruct c as [[] [] [] [] [] [] [] []]; vm_compute; reflexivity.
Qed.

Lemma decodeEscape_dquote (r : string) :
  decodeEscape (String Js.dquote r) = Some (Js.dquote, r).
Proof. vm_compute. reflexivity. Qed.

(** No escape begins with the quote that ends the text. *)
Lemma escapeChar_not_dquote (c : ascii) (r r' : string) :
  Json.escapeChar c +:+ r <> String Js.dquote r'.
Proof.
  intros H. pose proof H as H0.
  apply (f_equal decodeEscape) in H.
  rewrite decodeEscape_escapeChar, decodeEscape_dquote in H.
  inversion H; subst. vm_compute in H0. discriminate.
Qed.

Lemma escape_delimited (s s' r r' : string) :
  Json.escape s +:+ String Js.dquote r = Json.escape s' +:+ String Js.dquote r' ->
  s = s' /\ r = r'.
Proof.
  revert s'. induction s as [|c s IH]; intros [|c' s']; simpl; intros H.
  - by inversion H.
  - rewrite append_assoc in H. symmetry in H. by apply escapeChar_not_dquote in H.
  - rewrite append_assoc in H. by apply escapeChar_not_dquote in H.
  - rewrite !append_assoc in H.
    apply (f_equal decodeEscape) in H. rewrite !decodeEscape_escapeChar in H.
    inversion H as [[Hc Hrest]]. apply IH in Hrest as [-> ->]. done.
Qed.

Lemma quote_delimited : Delimited anyRest Json.quote.
Proof.
  intros a b r r' _ _ H. unfold Json.quote in H. simpl in H.
  inversion H as [H']. rewrite !append_assoc in H'. simpl in H'.
  by apply escape_delimited in H'.
Qed.

Lemma boolean_delimited : Delimited anyRest Json.boolean.
Proof.
  intros [] [] r r' _ _ H; simpl in H; inversion H; done.
Qed.

Lemma uint_delimited (d d' : Decimal.uint) (r r' : string) :
  endsNumber r -> endsNumber r' ->
  NilEmpty.string_of_uint d +:+ r = NilEmpty.string_of_uint d' +:+ r' ->
  d = d' /\ r = r'.
Proof.
  revert d'. induction d; intros d'; destruct d'; simpl; intros Hr Hr' H;
    try (by inversion H);
    try (by subst; simpl in *; discriminate);
    try (inversion H as [H']; by destruct (IHd _ Hr Hr' H') as [-> ->]).
Qed.

Lemma to_uint_first_digit (p : positive) (r : string) :
  exists c s, NilEmpty.string_of_uint (Pos.to_uint p) +:+ r = String c s /\ c <> "-"%char.
Proof.
  pose proof (DecimalPos.Unsigned.to_uint_nonnil p) as Hnil.
  destruct (Pos.to_uint p); [done| | | | | | | | | |]; simpl; eexists _, _; split; done.
Qed.

Lemma number_delimited : Delimited endsNumber Json.number.
Proof.
  intros a b r r' Hr Hr' H. unfold Json.number, Js.ofZ in H.
  destruct a as [|p|p], b as [|q|q]; simpl in H.
  - by inversion H.
  - apply (uint_delimited (Decimal.D0 Decimal.Nil)) in H as [H _]; [|done|done].
    symmetry in H. by apply DecimalPos.Unsigned.to_uint_nonzero in H.
  - discriminate.
  - apply (uint_delimited _ (Decimal.D0 Decimal.Nil)) in H as [H _]; [|done|done].
    by apply DecimalPos.Unsigned.to_uint_nonzero in H.
  - apply uint_delimited in H as [H ->]; [|done|done].
    by apply DecimalPos.Unsigned.to_uint_inj in H as ->.
  - destruct (to_uint_first_digit p r) as (c & s & Hc & Hne). rewrite Hc in H.
    inversion H. congruence.
  - discriminate.
  - destruct (to_uint_first_digit q r') as (c & s & Hc & Hne). rewrite Hc in H.
    inversion H. congruence.
  - inversion H as [H']. apply uint_delimited in H' as [H' ->]; [|done|done].
    by apply DecimalPos.Unsigned.to_uint_inj in H' as ->.
Qed.

(** The elements of an array, each followed by a comma or by the closing
    bracket. *)
Lemma join_delimited {A} (ok : string -> Prop) (enc : A -> string) :
  Delimited ok enc ->
  (forall r, ok (String "," r)) -> (forall r, ok (String "]" r)) ->
  (forall a r r', enc a +:+ r <> String "]" r') ->
  forall l l' r r',
    Js.join "," (map enc l) +:+ String "]" r = Js.join "," (map enc l') +:+ String "]" r' ->
    l = l' /\ r = r'.
Proof.
  intros Henc Hcomma Hbracket Hhead.
  induction l as [|x l IH]; intros [|y l'] r r' H.
  - simpl in H. by inversion H.
  - exfalso. simpl in H. symmetry in H. destruct l'; simpl in H.
    + by apply Hhead in H.
    + rewrite append_assoc in H. by apply Hhead in H.
  - exfalso. simpl in H. destruct l; simpl in H.
    + by apply Hhead in H.
    + rewrite append_assoc in H. by apply Hhead in H.
  - destruct l as [|x2 l], l' as [|y2 l'].
    + simpl in H. apply Henc in H as [-> H]; [|simpl; auto|simpl; auto]. by inversion H.
    + exfalso. change (enc x +:+ String "]" r
                       = (enc y +:+ "," +:+ Js.join "," (map enc (y2 :: l'))) +:+ String "]" r')
        in H.
      rewrite append_assoc in H. apply Henc in H as [_ H]; [|simpl; auto|simpl; auto]. simpl in H. discriminate.
    + exfalso. change ((enc x +:+ "," +:+ Js.join "," (map enc (x2 :: l))) +:+ String "]" r
                       = enc y +:+ String "]" r') in H.
      rewrite append_assoc in H. apply Henc in H as [_ H]; [|simpl; auto|simpl; auto]. simpl in H. discriminate.
    + change ((enc x +:+ "," +:+ Js.join "," (map enc (x2 :: l))) +:+ String "]" r
              = (enc y +:+ "," +:+ Js.join "," (map enc (y2 :: l'))) +:+ String "]" r') in H.
      rewrite !append_assoc in H. apply Henc in H as [-> H]; [|simpl; auto|simpl; auto].
      assert (Js.join "," (map enc (x2 :: l)) +:+ String "]" r
              = Js.join "," (map enc (y2 :: l')) +:+ String "]" r') as H'
        by (by inversion H).
      apply IH in H' as [H' ->]. by rewrite H'.
Qed.

Lemma array_delimited {A} (ok : string -> Prop) (enc : A -> string) :
  Delimited ok enc ->
  (forall r, ok (String "," r)) -> (forall r, ok (String "]" r)) ->
  (forall a r r', enc a +:+ r <> String "]" r') ->
  Delimited anyRest (fun l => Json.array (map enc l)).
Proof.
  intros Henc Hcomma Hbracket Hhead l l' r r' _ _ H. unfold Json.array in H.
  simpl in H. inversion H as [H']. rewrite !append_assoc in H'. simpl in H'.
  eapply join_delimited; eauto.
Qed.

Lemma quote_head (s r r' : string) (c : ascii) :
  c <> Js.dquote -> Json.quote s +:+ r <> String c r'.
Proof. unfold Json.quote. simpl. intros Hc H. inversion H. congruence. Qed.

Lemma number_head (z : Z) (r r' : string) : Json.number z +:+ r <> String "]" r'.
Proof.
  unfold Json.number, Js.ofZ. destruct z as [|p|p]; simpl; try discriminate.
  intros H. pose proof (DecimalPos.Unsigned.to_uint_nonnil p) as Hnil.
  destruct (Pos.to_uint p); [done| | | | | | | | | |]; simpl in H; discriminate.
Qed.

Lemma stringsArray_delimited : Delimited anyRest stringsArray.
Proof.
  apply (array_delimited anyRest); [apply quote_delimited|done|done|].
  intros a r r'. by apply quote_head.
Qed.

Lemma numbersArray_delimited : Delimited anyRest numbersArray.
Proof.
  apply (array_delimited endsNumber); [apply number_delimited|done|done|].
  intros a r r'. apply number_head.
Qed.

Lemma append_cancel_l (a x y : string) : a +:+ x = a +:+ y -> x = y.
Proof. induction a as [|c a IH]; simpl; intros H; [done|]. inversion H. auto. Qed.

(** The members of an object, joined: the first one, then each further
    one behind its comma. *)
Lemma join_members (k v : string) (ms : list (string * option string)) (rest : string) :
  Js.join "," (((k, Some v) :: ms) ≫= Json.member) +:+ rest
  = Json.quote k +:+ ":" +:+ v +:+ membersText ms rest.
Proof.
  revert k v. induction ms as [|[k' [v'|]] ms IH]; intros k v.
  - simpl. by rewrite !append_assoc.
  - change (((k, Some v) :: (k', Some v') :: ms) ≫= Json.member)
      with ((Json.quote k +:+ ":" +:+ v) :: (((k', Some v') :: ms) ≫= Json.member)).
    change (membersText ((k', Some v') :: ms) rest)
      with ("," +:+ Json.quote k' +:+ ":" +:+ v' +:+ membersText ms rest).
    rewrite <- IH.
    change (((k', Some v') :: ms) ≫= Json.member)
      with ((Json.quote k' +:+ ":" +:+ v') :: (ms ≫= Json.member)).
    cbn [Js.join]. by rewrite !append_assoc.
  - change (((k, Some v) :: (k', None) :: ms) ≫= Json.member)
      with (((k, Some v) :: ms) ≫= Json.member).
    apply IH.
Qed.

Lemma stringify_members (d : ConfigData.t) (r : string) :
  CacheManager.stringifyConfigData d +:+ r
  = "{" +:+ Json.quote "package" +:+ ":" +:+ Json.quote (ConfigData.package d)
    +:+ membersText (tail (CacheManager.configMembers d)) ("}" +:+ r).
Proof.
  unfold CacheManager.stringifyConfigData, Json.object, CacheManager.configMembers.
  rewrite !append_assoc. rewrite (join_members "package"). reflexivity.
Qed.

Lemma memberText_Some (key v t : string) :
  memberText (key, Some v) t = memberIntro key +:+ v +:+ t.
Proof. unfold memberText, memberIntro. by rewrite !append_assoc. Qed.

(** One member of the object: present on both sides with the same value,
    or absent on both, since what follows does not begin like it. *)
Lemma member_inj {A} (key : string) (enc : A -> string) (ok : string -> Prop)
    (o1 o2 : option A) (t1 t2 : string) :
  Delimited ok enc -> ok t1 -> ok t2 ->
  hasPrefix (memberIntro key) t1 = false -> hasPrefix (memberIntro key) t2 = false ->
  memberText (key, enc <$> o1) t1 = memberText (key, enc <$> o2) t2 ->
  o1 = o2 /\ t1 = t2.
Proof.
  intros Henc Hok1 Hok2 Hp1 Hp2 H.
  destruct o1 as [a|], o2 as [b|]; cbn [fmap option_fmap option_map] in H.
  - rewrite !memberText_Some in H. apply append_cancel_l in H.
    apply Henc in H as [-> ->]; done.
  - exfalso. rewrite memberText_Some in H. cbn [memberText] in H.
    rewrite <- H, hasPrefix_append in Hp2. discriminate.
  - exfalso. rewrite memberText_Some in H. cbn [memberText] in H.
    rewrite H, hasPrefix_append in Hp1. discriminate.
  - done.
Qed.

Ltac later_members :=
  unfold membersText, memberText; cbn [foldr];
  repeat lazymatch goal with
  | |- hasPrefix _ (match fmap _ ?o with Some _ => _ | None => _ end) = false =>
      destruct o; [reflexivity | cbn [fmap option_fmap option_map]]
  end;
  reflexivity.

Ltac member_stage H key enc ok Henc :=
  apply (member_inj key enc ok) in H as [? H];
  [ | exact Henc | try done | try done | later_members | later_members ].

(** The text of one normalised font determines it, and where it ends. *)
Lemma stringify_delimited : Delimited anyRest CacheManager.stringifyConfigData.
Proof.
  intros d1 d2 r1 r2 _ _ H. rewrite !stringify_members in H.
  destruct d1 as [pkg1 fam1 v1 w1 st1 su1 ax1 pre1 dis1 pri1].
  destruct d2 as [pkg2 fam2 v2 w2 st2 su2 ax2 pre2 dis2 pri2].
  cbn [ConfigData.package] in H.
  apply (append_cancel_l "{") in H. apply append_cancel_l in H.
  apply (append_cancel_l ":") in H.
  apply quote_delimited in H as [-> H]; [|done|done].
  unfold CacheManager.configMembers in H.
  cbn [tail membersText foldr ConfigData.family ConfigData.variable ConfigData.weights
         ConfigData.styles ConfigData.subsets ConfigData.axes ConfigData.preload
         ConfigData.display ConfigData.priority] in H.
  change (Some (Json.quote fam1)) with (Json.quote <$> Some fam1) in H.
  change (Some (Json.quote fam2)) with (Json.quote <$> Some fam2) in H.
  change (Some (Json.boolean v1)) with (Json.boolean <$> Some v1) in H.
  change (Some (Json.boolean v2)) with (Json.boolean <$> Some v2) in H.
  member_stage H "family" Json.quote anyRest quote_delimited.
  member_stage H "variable" Json.boolean anyRest boolean_delimited.
  member_stage H "weights" (fun l => Json.array (map Json.number l)) anyRest
    numbersArray_delimited.
  member_stage H "styles" (fun l => Json.array (map Json.quote l)) anyRest
    stringsArray_delimited.
  member_stage H "subsets" (fun l => Json.array (map Json.quote l)) anyRest
    stringsArray_delimited.
  member_stage H "axes" (fun l => Json.array (map Json.quote l)) anyRest
    stringsArray_delimited.
  member_stage H "preload" Json.boolean anyRest boolean_delimited.
  member_stage H "display" Json.quote anyRest quote_delimited.
  member_stage H "priority" Json.number endsNumber number_delimited.
  apply (append_cancel_l "}") in H. split; congruence.
Qed.

Lemma stringify_head (d : ConfigData.t) (r r' : string) :
  CacheManager.stringifyConfigData d +:+ r <> String "]" r'.
Proof. rewrite stringify_members. discriminate. Qed.

(** The hashed text determines the normalised, sorted configuration. *)
Lemma configText_inj (l l' : list ConfigData.t) :
  Json.array (map CacheManager.stringifyConfigData l)
  = Json.array (map CacheManager.stringifyConfigData l') ->
  l = l'.
Proof.
  intros H.
  destruct (array_delimited anyRest CacheManager.stringifyConfigData stringify_delimited
              ltac:(done) ltac:(done) stringify_head l l' "" "" I I) as [Hl _]; [|done].
  by rewrite !append_nil_r.
Qed.

End JsonText.

(** ** The cache: [isCacheValid] and [updateCache] *)

Section CacheValidity.

Import CacheManager.

Variable localeCompare : string -> string -> Z.

Lemma count_occ_replace (l : list ConfigData.t) (i : nat) (x y : ConfigData.t) :
  l !! i = Some x -> y <> x ->
  count_occ configData_eq_dec l x = S (count_occ configData_eq_dec (<[i:=y]> l) x).
Proof.
  revert i. induction l as [|a l IH]; intros [|i] Hi Hne; simpl in *; try done.
  - inversion Hi; subst a.
    destruct (configData_eq_dec x x); [|done]. destruct (configData_eq_dec y x); done.
  - destruct (configData_eq_dec a x); by rewrite (IH i Hi Hne).
Qed.

(** A change of one request that survives normalisation changes the text
    that is hashed. *)
Lemma configString_changes (fonts : list FontConfig.t) (i : nat) (c c' : FontConfig.t) :
  fonts !! i = Some c -> normalize c' <> normalize c ->
  configString localeCompare (<[i:=c']> fonts) <> configString localeCompare fonts.
Proof.
  intros Hi Hne Heq. unfold configString in Heq. apply configText_inj in Heq.
  assert (Permutation (map normalize (<[i:=c']> fonts)) (map normalize fonts)) as Hperm.
  { rewrite <- (sort_Permutation
                  (fun a b => localeCompare (ConfigData.package a) (ConfigData.package b))
                  (map normalize (<[i:=c']> fonts))).
    rewrite <- (sort_Permutation
                  (fun a b => localeCompare (ConfigData.package a) (ConfigData.package b))
                  (map normalize fonts)).
    unfold configData in Heq. by rewrite Heq. }
  change (map normalize (<[i:=c']> fonts)) with (normalize <$> <[i:=c']> fonts) in Hperm.
  rewrite list_fmap_insert in Hperm.
  assert ((normalize <$> fonts) !! i = Some (normalize c)) as Hi'
    by (by rewrite list_lookup_fmap, Hi).
  pose proof (count_occ_replace _ i _ _ Hi' Hne) as Hcount.
  pose proof (proj1 (Permutation_count_occ configData_eq_dec _ _) Hperm (normalize c))
    as Hsame.
  change (map normalize fonts) with (normalize <$> fonts) in Hsame. lia.
Qed.

(** A snapshot with another hash is stale. *)
Lemma isCacheValid_stale self fonts w cache t :
  Fs.lookup w (cacheFile self) = Some (File (CacheJson cache) t) ->
  CacheEntry.configHash cache <> generateConfigHash localeCompare fonts ->
  isCacheValid localeCompare self fonts w = (Ok false, w).
Proof.
  intros Hfile Hhash. unfold isCacheValid, try_catch.
  rewrite bind_unfold. cbn [Fs.existsSync]. rewrite bool_decide_eq_true_2 by eauto. cbn [negb].
  rewrite bind_unfold. unfold Fs.readFileSync at 1. rewrite Hfile.
  destruct (String.eqb (CacheEntry.version cache) (moduleVersion self)); cbn [negb]; [|done].
  rewrite bind_unfold. cbn [get_world].
  destruct (ttl self <? now w - CacheEntry.timestamp cache); [done|].
  destruct (String.eqb (generateConfigHash localeCompare fonts) (CacheEntry.configHash cache))
    eqn:Heq; [|done].
  apply String.eqb_eq in Heq. congruence.
Qed.

(** What [updateCache] writes. *)
Lemma updateCache_writes self fonts results w :
  cacheWritable self w ->
  updateCache localeCompare self fonts results w
  = (Ok tt,
     mkWorld (<[Path.resolve (cwd w) (cacheFile self) :=
                File (CacheJson (CacheEntry.mk (now w) (generateConfigHash localeCompare fonts)
                                   (sanitizeResults (cwd w) results) (moduleVersion self)))
                     (now w)]> (fs w))
             (cwd w) (now w)).
Proof.
  intros [Hdir Hfile]. unfold updateCache, try_catch, bind, get_world, Fs.writeNode.
  rewrite Hdir.
  destruct (fs w !! Path.resolve (cwd w) (cacheFile self)) as [[|d t]|]; done.
Qed.


(** The checks on the files: nothing is reported as modified or missing
    when no node is newer than the cache file by more than a second and
    every recorded path leads to a node. *)
Lemma statMtime_lookup p w n :
  Fs.lookup w p = Some n -> Fs.statMtime p w = (Ok (mtimeOf n), w).
Proof. unfold Fs.statMtime. intros ->. by destruct n. Qed.

Lemma anyFileMissing_false (files : list FontFile.t) (w : World) :
  Forall (fun file => FontFile.path file = "" \/ is_Some (Fs.lookup w (FontFile.path file)))
         files ->
  anyFileMissing files w = (Ok false, w).
Proof.
  induction 1 as [|file files Hfile _ IH]; simpl; [done|].
  destruct (String.eqb (FontFile.path file) "") eqn:Hempty; [exact IH|].
  apply String.eqb_neq in Hempty. destruct Hfile as [|Hfile]; [done|].
  rewrite bind_unfold. cbn [Fs.existsSync]. rewrite bool_decide_eq_true_2 by done. exact IH.
Qed.

Lemma getMetadataPath_run (packageName : string) (w : World) :
  exists r, getMetadataPath packageName w = (Ok r, w).
Proof.
  unfold getMetadataPath. rewrite bind_unfold. cbn [get_world forM].
  rewrite bind_unfold. rewrite bind_unfold. cbn [Fs.existsSync].
  destruct (bool_decide _); cbn [ret]; rewrite bind_unfold.
  - cbn [ret]. eauto.
  - rewrite bind_unfold. cbn [Fs.existsSync]. cbn [ret]. eauto.
Qed.

Lemma checkFilesModified_false self (fonts : list ProcessedFont.t) (w : World) (T : Z) :
  Fs.statMtime (cacheFile self) w = (Ok T, w) ->
  map_Forall (fun _ n => mtimeOf n <= T + 1000) (fs w) ->
  Forall (fun font =>
            ProcessedFont.errors font = [] ->
            Forall (fun file => FontFile.path file = "" \/
                                is_Some (Fs.lookup w (FontFile.path file)))
                   (ProcessedFont.files font))
         fonts ->
  checkFilesModified self fonts w = (Ok false, w).
Proof.
  intros Hstat Hmtimes. induction 1 as [|font fonts Hfont _ IH]; simpl; [done|].
  destruct (ProcessedFont.errors font) as [|e es]; [|exact IH].
  rewrite bind_unfold.
  destruct (getMetadataPath_run (FontConfig.package (ProcessedFont.config font)) w) as [r ->].
  rewrite bind_unfold.
  assert ((match Js.truthy r with
           | Some metadataPath =>
               e <- Fs.existsSync metadataPath ;;
               (if e : bool
                then metadataTime <- Fs.statMtime metadataPath ;;
                     cacheTime <- getCacheTimestamp self ;;
                     ret (cacheTime + 1000 <? metadataTime)
                else ret false)
           | None => ret false
           end) w = (Ok false, w)) as ->.
  { destruct (Js.truthy r) as [mp|]; [|done].
    rewrite bind_unfold. cbn [Fs.existsSync].
    destruct (bool_decide (is_Some (Fs.lookup w mp))) eqn:He; [|done].
    apply bool_decide_eq_true in He as [n Hn].
    rewrite bind_unfold, (statMtime_lookup _ _ _ Hn).
    rewrite bind_unfold. unfold getCacheTimestamp, try_catch. rewrite Hstat.
    unfold ret. f_equal. f_equal. apply Z.ltb_ge.
    apply (Hmtimes _ _ Hn). }
  rewrite bind_unfold, anyFileMissing_false by auto. exact IH.
Qed.

Lemma prefix_append (a b : string) : String.prefix a (a +:+ b) = true.
Proof.
  induction a as [|x a IH]; simpl; [by destruct b|].
  destruct (ascii_dec x x); [exact IH | done].
Qed.

Lemma drop_append (a b : string) (c : ascii) :
  Js.drop (String.length a + 1) (a +:+ String c b) = b.
Proof. induction a as [|x a IH]; simpl; [done | exact IH]. Qed.

(** The relative form of a source path leads back to the file. *)
Lemma sourcePresent_kept (w : World) (p : string) :
  sourcePresent w p ->
  is_Some (fs w !! Path.resolve (cwd w) (makeRelativePath (cwd w) p)).
Proof.
  intros [Hp [(rel & -> & Hrel)|[Hout Habs]]]; unfold makeRelativePath.
  - unfold Js.startsWith. rewrite prefix_append.
    change (cwd w +:+ "/" +:+ rel) with (cwd w +:+ String "/" rel).
    rewrite drop_append. unfold Path.resolve. by rewrite Hrel.
  - rewrite Hout. unfold Path.resolve. by rewrite Habs.
Qed.

Lemma insert_is_Some {V} (m : gmap string V) (i k : string) (x : V) :
  is_Some (m !! k) -> is_Some (<[i:=x]> m !! k).
Proof.
  intros H. destruct (decide (i = k)) as [->|Hne].
  - rewrite lookup_insert_eq. eauto.
  - by rewrite lookup_insert_ne.
Qed.

(** The snapshot that [updateCache] has written is valid for the same
    requests, within the time to live. *)
Lemma isCacheValid_fresh self fonts results w0 elapsed :
  elapsed <= ttl self ->
  notModifiedSince w0 ->
  sourcesPresent w0 results ->
  let w1 :=
    mkWorld (<[Path.resolve (cwd w0) (cacheFile self) :=
               File (CacheJson (CacheEntry.mk (now w0) (generateConfigHash localeCompare fonts)
                                  (sanitizeResults (cwd w0) results) (moduleVersion self)))
                    (now w0)]> (fs w0))
            (cwd w0) (now w0) in
  isCacheValid localeCompare self fonts (tick w1 elapsed) = (Ok true, tick w1 elapsed).
Proof.
  intros Hfresh Hmtimes Hsources w1.
  set (cache := CacheEntry.mk (now w0) (generateConfigHash localeCompare fonts)
                  (sanitizeResults (cwd w0) results) (moduleVersion self)) in *.
  set (w2 := tick w1 elapsed).
  assert (Fs.lookup w2 (cacheFile self) = Some (File (CacheJson cache) (now w0))) as Hfile
    by apply lookup_insert_eq.
  unfold isCacheValid, try_catch.
  rewrite bind_unfold. cbn [Fs.existsSync]. rewrite bool_decide_eq_true_2 by eauto. cbn [negb].
  rewrite bind_unfold. unfold Fs.readFileSync at 1. rewrite Hfile.
  cbn [CacheEntry.version CacheEntry.timestamp CacheEntry.configHash CacheEntry.fonts cache].
  rewrite !String.eqb_refl. cbn [negb].
  rewrite bind_unfold. cbn [get_world].
  replace (now w2 - now w0) with elapsed by (simpl; lia).
  rewrite (proj2 (Z.ltb_ge _ _) Hfresh).
  rewrite bind_unfold.
  rewrite (checkFilesModified_false self _ w2 (now w0)); [done| | |].
  - by apply (statMtime_lookup _ _ _ Hfile).
  - apply map_Forall_insert_2; [simpl; lia | exact Hmtimes].
  - unfold sanitizeResults. apply Forall_map.
    eapply Forall_impl; [exact Hsources|]. intros font Hfont. cbn [ProcessedFont.errors ProcessedFont.files].
    intros Herrors. apply Forall_map.
    eapply Forall_impl; [exact (Hfont Herrors)|]. intros file Hfile'. cbn [FontFile.path].
    destruct (String.eqb (FontFile.path file) ""); [by left|]. right.
    apply sourcePresent_kept in Hfile'. by apply insert_is_Some.
Qed.

(** The answer depends on the requests through their hash only. *)
Lemma isCacheValid_same_hash self fonts fonts' w :
  generateConfigHash localeCompare fonts' = generateConfigHash localeCompare fonts ->
  isCacheValid localeCompare self fonts' w = isCacheValid localeCompare self fonts w.
Proof. intros H. unfold isCacheValid. by rewrite H. Qed.

(** Which changes of a request survive normalisation: all but a
    reordering of its arrays and a change of the two properties that are
    not hashed. *)
Lemma sortStrings_inv (l l' : list string) :
  Js.sortStrings l = Js.sortStrings l' -> Permutation l l'.
Proof.
  intros H. rewrite <- (sort_Permutation Js.compareZ l), <- (sort_Permutation Js.compareZ l').
  unfold Js.sortStrings in H. by rewrite H.
Qed.

Lemma sortNumbers_inv (l l' : list Z) :
  Js.sortNumbers l = Js.sortNumbers l' -> Permutation l l'.
Proof.
  intros H. unfold Js.sortNumbers in H.
  rewrite <- (sort_Permutation (fun a b => Js.compareZ (Js.ofZ a) (Js.ofZ b)) l),
    <- (sort_Permutation (fun a b => Js.compareZ (Js.ofZ a) (Js.ofZ b)) l').
  by rewrite H.
Qed.

Lemma normalize_eq (a b : FontConfig.t) :
  normalize a = normalize b <->
  FontConfig.package a = FontConfig.package b /\
  FontConfig.family a = FontConfig.family b /\
  FontConfig.variable a = FontConfig.variable b /\
  FontConfig.preload a = FontConfig.preload b /\
  permutedOption (FontConfig.weights a) (FontConfig.weights b) /\
  permutedOption (FontConfig.styles a) (FontConfig.styles b) /\
  permutedOption (FontConfig.subsets a) (FontConfig.subsets b) /\
  permutedOption (FontConfig.axes a) (FontConfig.axes b) /\
  FontConfig.display a = FontConfig.display b /\
  FontConfig.priority a = FontConfig.priority b.
Proof.
  split.
  - unfold normalize. intros H. inversion H as [[Hp Hf Hv Hw Hst Hsu Hax Hpre Hd Hpri]].
    repeat split; try done.
    + destruct (FontConfig.weights a), (FontConfig.weights b); simpl in *; try done.
      inversion Hw. by apply sortNumbers_inv.
    + destruct (FontConfig.styles a), (FontConfig.styles b); simpl in *; try done.
      inversion Hst. by apply sortStrings_inv.
    + destruct (FontConfig.subsets a), (FontConfig.subsets b); simpl in *; try done.
      inversion Hsu. by apply sortStrings_inv.
    + destruct (FontConfig.axes a), (FontConfig.axes b); simpl in *; try done.
      inversion Hax. by apply sortStrings_inv.
  - intros (Hp & Hf & Hv & Hpre & Hw & Hst & Hsu & Hax & Hd & Hpri). unfold normalize.
    rewrite Hp, Hf, Hv, Hpre, Hd, Hpri.
    by rewrite (fmap_sortNumbers _ _ Hw), (fmap_sortStrings _ _ Hst),
      (fmap_sortStrings _ _ Hsu), (fmap_sortStrings _ _ Hax).
Qed.


End CacheValidity.

Section CacheExamples.

Import CacheManager.

(** The constructor makes the cache directory, after which the cache file
    can be written. *)
Example new_in_scenario :
  fst (CacheManager.new "/proj" None Scenario.processed) = Ok Scenario.cacheManager /\
  cacheWritable Scenario.cacheManager (snd (CacheManager.new "/proj" None Scenario.processed)).
Proof. split; [vm_compute; reflexivity | split; vm_compute; [reflexivity | discriminate]]. Qed.



(** The custom fallback and the custom unicode ranges are not among the
    hashed properties: a change of either leaves the snapshot valid. *)
Lemma fallback_is_not_hashed :
  FontConfig.fallback Scenario.withFallback <> FontConfig.fallback Scenario.request /\
  fst (isCacheValid Js.compareZ Scenario.cacheManager [Scenario.withFallback] Scenario.cached)
  = Ok true.
Proof. split; [discriminate | vm_compute; reflexivity]. Qed.

End CacheExamples.

(** * Further properties of the code *)

(** ** Computations that only read *)

Section ReadsOnly.

Lemma readsOnly_ret {A} (a : A) : readsOnly (ret a).
Proof. by intros w. Qed.

Lemma readsOnly_throw {A} (e : string) : readsOnly (@throw A e).
Proof. by intros w. Qed.

Lemma readsOnly_lift {A} (r : Result A) : readsOnly (lift r).
Proof. by intros w. Qed.

Lemma readsOnly_bind {A B} (m : M A) (k : A -> M B) :
  readsOnly m -> (forall a, readsOnly (k a)) -> readsOnly (bind m k).
Proof.
  intros Hm Hk w. unfold bind. specialize (Hm w).
  destruct (m w) as [[a|e] w1]; simpl in Hm; subst; [apply Hk | done].
Qed.

Lemma readsOnly_try_catch {A} (m : M A) (h : string -> M A) :
  readsOnly m -> (forall e, readsOnly (h e)) -> readsOnly (try_catch m h).
Proof.
  intros Hm Hh w. unfold try_catch. specialize (Hm w).
  destruct (m w) as [[a|e] w1]; simpl in Hm; subst; [done | apply Hh].
Qed.

Lemma readsOnly_get_world : readsOnly get_world.
Proof. by intros w. Qed.

Lemma readsOnly_existsSync p : readsOnly (Fs.existsSync p).
Proof. by intros w. Qed.

Lemma readsOnly_readFileSync p : readsOnly (Fs.readFileSync p).
Proof. intros w. unfold Fs.readFileSync. by destruct (Fs.lookup w p) as [[|d t]|]. Qed.

Lemma readsOnly_statMtime p : readsOnly (Fs.statMtime p).
Proof. intros w. unfold Fs.statMtime. by destruct (Fs.lookup w p) as [[|d t]|]. Qed.

Lemma readsOnly_statSize p : readsOnly (Fs.statSize p).
Proof. intros w. unfold Fs.statSize. by destruct (Fs.lookup w p). Qed.

Lemma readsOnly_glob p : readsOnly (Fs.glob p).
Proof. by intros w. Qed.

Lemma readsOnly_forM {A S} (l : list A) (s : S) (body : S -> A -> M S) :
  (forall s a, readsOnly (body s a)) -> readsOnly (forM l s body).
Proof.
  intros Hbody. revert s. induction l as [|x l IH]; intros s; simpl.
  - apply readsOnly_ret.
  - apply readsOnly_bind; [apply Hbody | intros s'; apply IH].
Qed.

(** A computation that only reads, run to its result. *)
Lemma readsOnly_run {A} (m : M A) (w : World) : readsOnly m -> m w = (fst (m w), w).
Proof. intros H. specialize (H w). destruct (m w) as [r w']. simpl in *. by subst. Qed.

End ReadsOnly.

Create HintDb reads.

#[local] Hint Resolve readsOnly_ret readsOnly_throw readsOnly_lift readsOnly_get_world
  readsOnly_existsSync readsOnly_readFileSync readsOnly_statMtime readsOnly_statSize
  readsOnly_glob : reads.

Ltac reads_only :=
  repeat first
    [ apply readsOnly_bind; [|intros ?]
    | apply readsOnly_try_catch; [|intros ?]
    | apply readsOnly_forM; intros ? ?
    | progress auto with reads
    | match goal with
      | |- readsOnly (if ?b then _ else _) => destruct b
      | |- readsOnly (match ?x with _ => _ end) => destruct x
      end ].

Section CacheReads.

Import CacheManager.

Variable localeCompare : string -> string -> Z.

Lemma readsOnly_getMetadataPath p : readsOnly (getMetadataPath p).
Proof. unfold getMetadataPath. reads_only. Qed.

Lemma readsOnly_getCacheTimestamp self : readsOnly (getCacheTimestamp self).
Proof. unfold getCacheTimestamp. reads_only. Qed.

Lemma readsOnly_anyFileMissing files : readsOnly (anyFileMissing files).
Proof.
  induction files as [|f files IH]; simpl; [reads_only|].
  destruct (String.eqb (FontFile.path f) ""); [exact IH|].
  apply readsOnly_bind; [reads_only|]. intros []; [exact IH | reads_only].
Qed.

Lemma readsOnly_checkFilesModified self fonts : readsOnly (checkFilesModified self fonts).
Proof.
  induction fonts as [|font fonts IH]; simpl; [reads_only|].
  destruct (ProcessedFont.errors font); [|exact IH].
  apply readsOnly_bind; [apply readsOnly_getMetadataPath|]. intros mp.
  apply readsOnly_bind.
  - destruct (Js.truthy mp); [|reads_only].
    apply readsOnly_bind; [reads_only|]. intros []; [|reads_only].
    apply readsOnly_bind; [reads_only|]. intros t.
    apply readsOnly_bind; [apply readsOnly_getCacheTimestamp | intros; reads_only].
  - intros []; [reads_only|].
    apply readsOnly_bind; [apply readsOnly_anyFileMissing|].
    intros []; [reads_only | exact IH].
Qed.

Lemma readsOnly_isCacheValid self fonts : readsOnly (isCacheValid localeCompare self fonts).
Proof.
  unfold isCacheValid. apply readsOnly_try_catch; [|intros; reads_only].
  apply readsOnly_bind; [reads_only|]. intros e. destruct (negb e); [reads_only|].
  apply readsOnly_bind; [reads_only|]. intros [b|m|cache]; [reads_only | reads_only |].
  destruct (negb _); [reads_only|].
  apply readsOnly_bind; [reads_only|]. intros w'.
  destruct (_ <? _); [reads_only|]. destruct (negb _); [reads_only|].
  apply readsOnly_bind; [apply readsOnly_checkFilesModified|]. intros []; reads_only.
Qed.

End CacheReads.

(** ** The answers of the cache *)

Section CacheAnswers.

Import CacheManager.

Variable localeCompare : string -> string -> Z.

(** X1.  [isCacheValid] always answers: whatever the cache file holds, it
    returns [true] or [false], never throws, and leaves the file tree, the
    working directory and the clock as they were. *)
Theorem isCacheValid_answers_and_only_reads (self : CacheManager.t)
    (fonts : list FontConfig.t) (w : World) :
  exists valid : bool, isCacheValid localeCompare self fonts w = (Ok valid, w).
Proof.
  rewrite (readsOnly_run _ w (readsOnly_isCacheValid localeCompare self fonts)).
  unfold isCacheValid, try_catch.
  match goal with
  | |- context [match ?m w with _ => _ end] => destruct (m w) as [[valid|e] w1]
  end; simpl; eauto.
Qed.

Lemma anyFileMissing_false_inv (files : list FontFile.t) (w w' : World) :
  anyFileMissing files w = (Ok false, w') ->
  Forall (fun file => FontFile.path file = "" \/ is_Some (Fs.lookup w (FontFile.path file)))
         files.
Proof.
  induction files as [|f files IH]; simpl; [constructor|].
  destruct (String.eqb (FontFile.path f) "") eqn:Hempty.
  - apply String.eqb_eq in Hempty. intros H. constructor; [by left | by apply IH].
  - rewrite bind_unfold. cbn [Fs.existsSync].
    destruct (bool_decide (is_Some (Fs.lookup w (FontFile.path f)))) eqn:He; [|discriminate].
    apply bool_decide_eq_true in He. intros H. constructor; [by right | by apply IH].
Qed.

Lemma checkFilesModified_false_inv self (fonts : list ProcessedFont.t) (w w' : World) :
  checkFilesModified self fonts w = (Ok false, w') ->
  Forall (fun font =>
            ProcessedFont.errors font = [] ->
            Forall (fun file => FontFile.path file = "" \/
                                is_Some (Fs.lookup w (FontFile.path file)))
                   (ProcessedFont.files font))
         fonts.
Proof.
  induction fonts as [|font fonts IH]; simpl; [constructor|].
  destruct (ProcessedFont.errors font) as [|e es] eqn:Herr.
  - intros H. apply bind_Ok in H as (mp & w1 & Hmp & H).
    pose proof (readsOnly_getMetadataPath
                  (FontConfig.package (ProcessedFont.config font)) w) as Hw1.
    rewrite Hmp in Hw1. simpl in Hw1. subst w1.
    apply bind_Ok in H as (modified & w2 & Hmod & H).
    assert (w2 = w) as ->.
    { assert (readsOnly
                (match Js.truthy mp with
                 | Some metadataPath =>
                     e <- Fs.existsSync metadataPath ;;
                     (if e : bool
                      then metadataTime <- Fs.statMtime metadataPath ;;
                           cacheTime <- getCacheTimestamp self ;;
                           ret (cacheTime + 1000 <? metadataTime)
                      else ret false)
                 | None => ret false
                 end)) as Hro.
      { destruct (Js.truthy mp); [|reads_only].
        apply readsOnly_bind; [reads_only|]. intros []; [|reads_only].
        apply readsOnly_bind; [reads_only|]. intros t.
        apply readsOnly_bind; [apply readsOnly_getCacheTimestamp | intros; reads_only]. }
      specialize (Hro w). rewrite Hmod in Hro. done. }
    destruct modified; [discriminate|].
    apply bind_Ok in H as (missing & w3 & Hmiss & H).
    pose proof (readsOnly_anyFileMissing (ProcessedFont.files font) w) as Hw3.
    rewrite Hmiss in Hw3. simpl in Hw3. subst w3.
    destruct missing; [discriminate|].
    constructor; [intros _; by eapply anyFileMissing_false_inv | by eapply IH].
  - intros H. constructor; [intros Hnone; congruence | by apply IH].
Qed.

(** X2.  A cache hit is sound: when [isCacheValid] answers [true], the
    cache file holds a snapshot of this module version, not older than the
    time to live, whose hash is the hash of the requests, and every source
    file recorded for a font without errors is still found under its
    recorded path. *)
Theorem isCacheValid_true_is_sound (self : CacheManager.t) (fonts : list FontConfig.t)
    (w w' : World) :
  isCacheValid localeCompare self fonts w = (Ok true, w') ->
  exists cache mtime,
    Fs.lookup w (cacheFile self) = Some (File (CacheJson cache) mtime) /\
    CacheEntry.version cache = moduleVersion self /\
    now w - CacheEntry.timestamp cache <= ttl self /\
    CacheEntry.configHash cache = generateConfigHash localeCompare fonts /\
    Forall (fun font =>
              ProcessedFont.errors font = [] ->
              Forall (fun file => FontFile.path file = "" \/
                                  is_Some (Fs.lookup w (FontFile.path file)))
                     (ProcessedFont.files font))
           (CacheEntry.fonts cache).
Proof.
  unfold isCacheValid, try_catch.
  match goal with
  | |- context [match ?m w with _ => _ end] => destruct (m w) as [[valid|e] w1] eqn:Hbody
  end; [|discriminate].
  intros H. inversion H; subst valid w1; clear H.
  apply bind_Ok in Hbody as (e & w1 & He & H).
  unfold Fs.existsSync in He. inversion He; subst e w1; clear He.
  destruct (bool_decide (is_Some (Fs.lookup w (cacheFile self)))); [|discriminate].
  cbn [negb] in H.
  apply bind_Ok in H as (d & w2 & Hread & H).
  pose proof (readFileSync_world _ _ _ _ Hread) as ->.
  apply readFileSync_Ok in Hread as [mtime Hfile].
  destruct d as [b|m|cache]; [discriminate | discriminate |].
  destruct (String.eqb (CacheEntry.version cache) (moduleVersion self)) eqn:Hversion;
    cbn [negb] in H; [|discriminate].
  apply String.eqb_eq in Hversion.
  apply bind_Ok in H as (w3 & w4 & Hget & H).
  unfold get_world in Hget. inversion Hget; subst w3 w4; clear Hget.
  destruct (ttl self <? now w - CacheEntry.timestamp cache) eqn:Hage; [discriminate|].
  apply Z.ltb_ge in Hage.
  destruct (String.eqb (generateConfigHash localeCompare fonts) (CacheEntry.configHash cache))
    eqn:Hhash; cbn [negb] in H; [|discriminate].
  apply String.eqb_eq in Hhash.
  apply bind_Ok in H as (modified & w5 & Hcheck & H).
  destruct modified; [discriminate|].
  exists cache, mtime. repeat split; try done.
  by eapply checkFilesModified_false_inv.
Qed.

End CacheAnswers.

Lemma isCacheValid_true_is_sound_witness :
  exists cache mtime,
    Fs.lookup Scenario.cached (CacheManager.cacheFile Scenario.cacheManager)
      = Some (File (CacheJson cache) mtime) /\
    CacheEntry.version cache = CacheManager.moduleVersion Scenario.cacheManager /\
    now Scenario.cached - CacheEntry.timestamp cache <= CacheManager.ttl Scenario.cacheManager /\
    CacheEntry.configHash cache
      = CacheManager.generateConfigHash Js.compareZ [Scenario.request].
Proof.
  destruct (isCacheValid_true_is_sound Js.compareZ Scenario.cacheManager [Scenario.request]
              Scenario.cached Scenario.cached)
    as (cache & mtime & H1 & H2 & H3 & H4 & _).
  - vm_compute. reflexivity.
  - exists cache, mtime. split; [exact H1|]. split; [exact H2|]. split; [exact H3 | exact H4].
Defined.

(** ** File names and patterns *)

Section FileNames.

Import FontProcessor.

Lemma includes_hyphen_cons (c : ascii) (s : string) :
  c <> "-"%char -> Js.includes "-" (String c s) = Js.includes "-" s.
Proof.
  intros Hc.
  change (Js.includes "-" (String c s))
    with (String.prefix "-" (String c s) || Js.includes "-" s).
  cbn [String.prefix]. destruct (ascii_dec "-" c) as [<-|_]; [done|]. reflexivity.
Qed.

Lemma split_fields_have_no_hyphen (s : string) :
  Forall (fun field => Js.includes "-" field = false) (Js.split "-" s).
Proof.
  induction s as [|c s IH]; simpl; [by repeat constructor|].
  destruct (Ascii.eqb c "-") eqn:Hc.
  - constructor; [reflexivity | exact IH].
  - apply Ascii.eqb_neq in Hc.
    destruct (Js.split "-" s) as [|p ps].
    + constructor; [|constructor]. unfold Js.str. by rewrite includes_hyphen_cons.
    + inversion IH; subst. constructor; [|done]. by rewrite includes_hyphen_cons.
Qed.

(** X3.  The subset and the style that [parseFileName] reads off a file
    name never contain a hyphen: a subset such as [latin-ext] is cut at
    its hyphen, and the file is recorded under the subset [ext]. *)
Theorem parseFileName_fields_have_no_hyphen (filePath : string) (config : FontConfig.t)
    (info : FileInfo.t) :
  parseFileName filePath config = Some info ->
  Js.includes "-" (FileInfo.subset info) = false /\
  Js.includes "-" (FileInfo.style info) = false.
Proof.
  unfold parseFileName.
  destruct (negb _); [discriminate|].
  set (parts := Js.split "-" _).
  destruct (length parts <? 3)%nat eqn:Hlen; [discriminate|].
  apply Nat.ltb_ge in Hlen. intros H. inversion H; subst; clear H. simpl.
  pose proof (split_fields_have_no_hyphen
                (Js.dropEnd (String.length (Path.extname (Path.basename filePath)))
                            (Path.basename filePath))) as Hall.
  fold parts in Hall. rewrite Forall_forall in Hall.
  split; apply Hall; apply list_elem_of_In; apply nth_In; lia.
Qed.

Lemma parseFileName_fields_have_no_hyphen_witness :
  exists info,
    parseFileName "/proj/node_modules/pkg-a/files/demo-latin-ext-wght-normal.woff2"
      Scenario.request = Some info /\
    FileInfo.subset info = "ext" /\
    Js.includes "-" (FileInfo.subset info) = false /\
    Js.includes "-" (FileInfo.style info) = false.
Proof.
  eexists. split; [vm_compute; reflexivity|]. split; [reflexivity|].
  apply (parseFileName_fields_have_no_hyphen
           "/proj/node_modules/pkg-a/files/demo-latin-ext-wght-normal.woff2" Scenario.request).
  vm_compute. reflexivity.
Defined.

Lemma bind_length {A B} (f : A -> list B) (k : nat) (l : list A) :
  (forall x, length (f x) = k) -> length (l ≫= f) = (length l * k)%nat.
Proof.
  intros Hf. induction l as [|x l IH]; [reflexivity|].
  change ((x :: l) ≫= f) with (f x ++ (l ≫= f)).
  rewrite length_app, Hf, IH. simpl. lia.
Qed.

(** The number of patterns of a request. *)
Lemma buildFilePatterns_length (config : FontConfig.t) (metadata : FontMetadata.t)
    (subsets styles : list string) (weights : list Z) :
  length (buildFilePatterns config metadata subsets styles weights)
  = (2 * (length subsets * (length styles *
       (if FontConfig.variable config
        then if Js.includes "material-symbols" (FontConfig.package config) then 2
             else S (length (default ["wght"] (FontConfig.axes config)))
        else S (length weights)))))%nat.
Proof.
  unfold buildFilePatterns. rewrite length_app, length_map.
  match goal with |- (?n + ?n = _)%nat => enough (n = (length subsets * (length styles *
       (if FontConfig.variable config
        then if Js.includes "material-symbols" (FontConfig.package config) then 2
             else S (length (default ["wght"] (FontConfig.axes config)))
        else S (length weights))))%nat) by lia end.
  destruct (FontConfig.variable config).
  - destruct (Js.includes "material-symbols" (FontConfig.package config)).
    + apply bind_length. intros subset. apply bind_length. intros style. reflexivity.
    + apply bind_length. intros subset. apply bind_length. intros style. simpl.
      f_equal. rewrite (bind_length _ 1); [lia | reflexivity].
  - apply bind_length. intros subset. apply bind_length. intros style.
    rewrite length_app, (bind_length _ 1); [simpl; lia | reflexivity].
Qed.

Lemma bind_pointwise {A B} (f g : A -> list B) (l : list A) :
  (forall x, f x = g x) -> l ≫= f = l ≫= g.
Proof.
  intros Hfg. induction l as [|x l IH]; [reflexivity|].
  change ((x :: l) ≫= f) with (f x ++ (l ≫= f)).
  change ((x :: l) ≫= g) with (g x ++ (l ≫= g)). by rewrite Hfg, IH.
Qed.

Lemma bind_singleton_map {A B C} (k : A -> B) (g : B -> C) (l : list A) :
  (map k l ≫= fun key => [g key]) = (l ≫= fun x => [g (k x)]).
Proof. induction l as [|x l IH]; [reflexivity|]. cbn. by f_equal. Qed.

Lemma bind_singleton_app {A B} (g : A -> B) (l1 l2 : list A) :
  ((l1 ++ l2) ≫= fun x => [g x]) = (l1 ≫= fun x => [g x]) ++ (l2 ≫= fun x => [g x]).
Proof. induction l1 as [|x l1 IH]; [reflexivity|]. cbn. by f_equal. Qed.

Lemma woff2Pattern_middle (subset middle style : string) :
  "*-" +:+ subset +:+ "-" +:+ middle +:+ "-" +:+ style +:+ ".woff2"
  = woff2Pattern subset ("-" +:+ middle +:+ "-") style.
Proof.
  unfold woff2Pattern. do 2 f_equal.
  change ("-" +:+ middle +:+ "-" +:+ style +:+ ".woff2")
    with (String "-" (middle +:+ "-" +:+ style +:+ ".woff2")).
  change (("-" +:+ middle +:+ "-") +:+ style +:+ ".woff2")
    with (String "-" ((middle +:+ "-") +:+ style +:+ ".woff2")).
  by rewrite append_assoc.
Qed.

(** X4.  The patterns of a request are, for every subset and every style
    in turn and for every key of the request, the pattern of the [.woff2]
    file of the three, followed by the same list with the first [.woff2]
    of each pattern replaced by [.woff].  The keys are the weights and
    the wildcard for a static font, the joined axes and each axis for a
    variable one, and the two forms of the Material Symbols packages.  So
    there are twice as many patterns as there are combinations, and an
    empty list of subsets or of styles leaves none. *)
Theorem buildFilePatterns_by_subset_style_and_key (config : FontConfig.t)
    (metadata : FontMetadata.t) (subsets styles : list string) (weights : list Z) :
  let woff2 :=
    subset ← subsets; style ← styles; key ← patternKeys config weights;
    [ woff2Pattern subset key style ] in
  buildFilePatterns config metadata subsets styles weights
  = woff2 ++ map (Js.replace ".woff2" ".woff") woff2 /\
  length (buildFilePatterns config metadata subsets styles weights)
  = (2 * (length subsets * (length styles * length (patternKeys config weights))))%nat.
Proof.
  intros woff2. split.
  - unfold buildFilePatterns. cbv zeta.
    match goal with
    | |- ?patterns ++ map _ ?patterns = _ => enough (patterns = woff2) as -> by reflexivity
    end.
    unfold woff2, patternKeys. destruct (FontConfig.variable config).
    + destruct (Js.includes "material-symbols" (FontConfig.package config)).
      * apply bind_pointwise. intros subset. apply bind_pointwise. intros style.
        reflexivity.
      * apply bind_pointwise. intros subset. apply bind_pointwise. intros style.
        cbv zeta. rewrite bind_singleton_map.
        change ((?x :: ?l) ≫= ?f) with (f x ++ (l ≫= f)). cbn [app].
        rewrite woff2Pattern_middle. f_equal.
        apply bind_pointwise. intros axis. by rewrite woff2Pattern_middle.
    + apply bind_pointwise. intros subset. apply bind_pointwise. intros style.
      rewrite bind_singleton_app, bind_singleton_map. f_equal; try reflexivity.
      apply bind_pointwise. intros weight. by rewrite woff2Pattern_middle.
  - rewrite buildFilePatterns_length. unfold patternKeys.
    destruct (FontConfig.variable config);
      [destruct (Js.includes "material-symbols" (FontConfig.package config))|];
      cbv zeta; rewrite ?length_app, ?length_map; cbn [length]; lia.
Qed.

End FileNames.

(** ** The content hash *)

Section ContentHash.

Import Crypto.

Lemma hex_digit_isHexDigit (n : Z) : isHexDigit (hex_digit n) = true.
Proof.
  unfold hex_digit. generalize (Z.to_nat n). intros k.
  do 16 (destruct k as [|k]; [reflexivity|]). reflexivity.
Qed.

Lemma hex_of_bytes_length (bs : list Z) :
  String.length (hex_of_bytes bs) = (2 * length bs)%nat.
Proof. induction bs as [|b bs IH]; simpl; [reflexivity|]. rewrite IH. lia. Qed.

Lemma hex_of_bytes_digits (bs : list Z) :
  forallb isHexDigit (list_ascii_of_string (hex_of_bytes bs)) = true.
Proof.
  induction bs as [|b bs IH]; [reflexivity|].
  change (hex_of_bytes (b :: bs))
    with (String (hex_digit (Z.shiftr b 4))
            (String (hex_digit (Z.land b 15)) (hex_of_bytes bs))).
  cbn [list_ascii_of_string forallb]. by rewrite !hex_digit_isHexDigit, IH.
Qed.

Lemma md5_step_length (m v : list Z) (i : nat) :
  length v = 4%nat -> length (md5_step m v i) = 4%nat.
Proof.
  intros Hv. destruct v as [|a [|b [|c [|d [|e v]]]]]; try discriminate.
  unfold md5_step.
  destruct (i <? 16)%nat; [reflexivity|].
  destruct (i <? 32)%nat; [reflexivity|].
  destruct (i <? 48)%nat; reflexivity.
Qed.

Lemma md5_block_length (h block : list Z) :
  length h = 4%nat -> length (md5_block h block) = 4%nat.
Proof.
  intros Hh. unfold md5_block. rewrite length_map, length_combine.
  assert (forall l v, length v = 4%nat ->
            length (fold_left (md5_step (map le_word (chunks 16 4 block))) l v) = 4%nat)
    as Hfold.
  { induction l as [|i l IH]; intros v Hv; simpl; [done|]. apply IH. by apply md5_step_length. }
  rewrite Hfold by done. lia.
Qed.

Lemma le_bytes_length (n : nat) (x : Z) : length (le_bytes n x) = n.
Proof. revert x. induction n as [|n IH]; intros x; simpl; [reflexivity|]. by rewrite IH. Qed.

Lemma md5_length (msg : list Z) : length (md5 msg) = 16%nat.
Proof.
  unfold md5.
  set (blocks := chunks _ 64 _).
  assert (forall l h, length h = 4%nat -> length (fold_left md5_block l h) = 4%nat) as Hfold.
  { induction l as [|b l IH]; intros h Hh; simpl; [done|]. apply IH. by apply md5_block_length. }
  specialize (Hfold blocks [0x67452301; 0xefcdab89; 0x98badcfe; 0x10325476] eq_refl).
  destruct (fold_left md5_block blocks _) as [|a [|b [|c [|d [|e v]]]]]; try discriminate.
  cbn [concat map]. rewrite !length_app, !le_bytes_length. reflexivity.
Qed.

Lemma take_length (n : nat) (s : string) :
  (n <= String.length s)%nat -> String.length (Js.take n s) = n.
Proof.
  revert s. induction n as [|n IH]; intros s Hn; [reflexivity|].
  destruct s as [|c s]; simpl in *; [lia|]. rewrite IH; [reflexivity | lia].
Qed.

Lemma take_forallb (P : ascii -> bool) (n : nat) (s : string) :
  forallb P (list_ascii_of_string s) = true ->
  forallb P (list_ascii_of_string (Js.take n s)) = true.
Proof.
  revert s. induction n as [|n IH]; intros s Hs; [reflexivity|].
  destruct s as [|c s]; simpl in *; [reflexivity|].
  apply andb_true_iff in Hs as [Hc Hs]. by rewrite Hc, IH.
Qed.

(** X5.  The content hash that enters a published file name is always
    eight characters long, each a lower-case hexadecimal digit, whatever
    the bytes of the file. *)
Theorem contentHash_is_eight_hex_digits (content : string) :
  String.length (FontProcessor.contentHash content) = 8%nat /\
  forallb isHexDigit (list_ascii_of_string (FontProcessor.contentHash content)) = true.
Proof.
  unfold FontProcessor.contentHash, md5_hex. split.
  - apply take_length. rewrite hex_of_bytes_length, md5_length. lia.
  - apply take_forallb, hex_of_bytes_digits.
Qed.

End ContentHash.

(** ** Packages that are installed but cannot be used *)

Section InstalledPackages.

Import FontProcessor.

(** The package is found where [npm] installs it. *)
Lemma resolvePackagePath_direct (self : FontProcessor.t) (packageName : string) (w : World) :
  is_Some (Fs.lookup w (Path.join [projectRoot self; "node_modules"; packageName])) ->
  resolvePackagePath self packageName w
  = (Ok (Some (Path.join [projectRoot self; "node_modules"; packageName])), w).
Proof.
  intros Hdir. unfold resolvePackagePath.
  cbn [app forM]. rewrite bind_unfold, bind_unfold. cbn [Fs.existsSync].
  rewrite bool_decide_eq_true_2 by done. cbn [ret].
  rewrite bind_unfold. cbn [ret].
  destruct (Js.startsWith "@" packageName); cbn [forM]; [|reflexivity].
  rewrite bind_unfold. reflexivity.
Qed.

Lemma readFontMetadata_primary (packagePath : string) (config : FontConfig.t) (w : World)
    (m : FontMetadata.t) (t : Z) :
  Fs.lookup w (Path.join [packagePath; "metadata.json"]) = Some (File (MetadataJson m) t) ->
  exists m',
    readFontMetadata packagePath config w = (Ok (Some m'), w) /\
    FontMetadata.subsets m' = FontMetadata.subsets m /\
    FontMetadata.styles m' = FontMetadata.styles m /\
    FontMetadata.unicodeRange m'
    = match FontConfig.unicodeRanges config with
      | Some ranges => Some (ranges ∪ default ∅ (FontMetadata.unicodeRange m))
      | None => FontMetadata.unicodeRange m
      end.
Proof.
  intros Hfile. unfold readFontMetadata.
  rewrite bind_unfold. cbn [Fs.existsSync]. rewrite bool_decide_eq_true_2 by eauto.
  cbn [negb]. rewrite bind_unfold. unfold readJsonMetadata.
  rewrite bind_unfold. unfold Fs.readFileSync at 1. rewrite Hfile. cbn [ret].
  eexists. split; [reflexivity|]. destruct (FontConfig.unicodeRanges config); done.
Qed.

(** The entry of a batch of one font that fails. *)
Lemma processAll_single_failure (self : FontProcessor.t) (config : FontConfig.t)
    (w w' : World) (message : string) :
  ModuleOptions.fonts (options self) = [config] ->
  processFont self config w = (Throw message, w') ->
  processAll self w = (Ok [failedEntry config message], w').
Proof.
  intros Hfonts Hfont. unfold processAll. rewrite Hfonts.
  cbn [Js.sort fold_right Js.insert forM].
  rewrite bind_unfold. unfold try_catch at 1. rewrite bind_unfold, Hfont. reflexivity.
Qed.

(** X6.  A package that is installed and has its metadata, but no [files]
    directory, fails with a message of its own: the font is reported with
    the error [No files directory found in] followed by the path of the
    package, and nothing is written. *)
Theorem missing_files_directory_is_reported (self : FontProcessor.t) (config : FontConfig.t)
    (w : World) (m : FontMetadata.t) (t : Z) :
  let packagePath := Path.join [projectRoot self; "node_modules"; FontConfig.package config] in
  is_Some (Fs.lookup w packagePath) ->
  Fs.lookup w (Path.join [packagePath; "metadata.json"]) = Some (File (MetadataJson m) t) ->
  Fs.lookup w (Path.join [packagePath; "files"]) = None ->
  processFont self config w = (Throw ("No files directory found in " +:+ packagePath), w) /\
  (ModuleOptions.fonts (options self) = [config] ->
   processAll self w
   = (Ok [failedEntry config ("No files directory found in " +:+ packagePath)], w)).
Proof.
  intros packagePath Hpkg Hmeta Hfiles.
  assert (processFont self config w
          = (Throw ("No files directory found in " +:+ packagePath), w)) as Hfont.
  { unfold processFont. rewrite bind_unfold.
    rewrite (resolvePackagePath_direct self _ w Hpkg). fold packagePath.
    destruct (readFontMetadata_primary packagePath config w m t Hmeta) as (m' & Hread & _).
    rewrite bind_unfold, Hread. rewrite bind_unfold.
    unfold findFontFiles. rewrite bind_unfold. cbn [Fs.existsSync].
    rewrite bool_decide_eq_false_2; [reflexivity|].
    rewrite Hfiles. by intros [? ?]. }
  split; [exact Hfont|]. intros Hfonts. by apply processAll_single_failure.
Qed.

Lemma missing_files_directory_is_reported_witness :
  processAll (FontProcessor.new Scenario.options "/proj") Cases.bareWorld
  = (Ok [failedEntry Scenario.request
           "No files directory found in /proj/node_modules/pkg-a"], Cases.bareWorld).
Proof.
  refine (proj2 (missing_files_directory_is_reported
                   (FontProcessor.new Scenario.options "/proj") Scenario.request
                   Cases.bareWorld Scenario.metadata 1000 _ _ _) eq_refl).
  - vm_compute. eauto.
  - vm_compute. reflexivity.
  - vm_compute. reflexivity.
Defined.

(** X7.  An empty list of subsets or of styles is not replaced by a
    default: no pattern is built, nothing is matched, and the font fails
    with the error of a request that matches no file, whatever the
    package holds. *)
Theorem empty_selection_matches_no_file (self : FontProcessor.t) (config : FontConfig.t)
    (w : World) (m : FontMetadata.t) (t : Z) :
  let packagePath := Path.join [projectRoot self; "node_modules"; FontConfig.package config] in
  is_Some (Fs.lookup w packagePath) ->
  Fs.lookup w (Path.join [packagePath; "metadata.json"]) = Some (File (MetadataJson m) t) ->
  is_Some (Fs.lookup w (Path.join [packagePath; "files"])) ->
  default (default ["latin"] (FontMetadata.subsets m)) (FontConfig.subsets config) = [] \/
  default (default ["normal"] (FontMetadata.styles m)) (FontConfig.styles config) = [] ->
  processFont self config w = (Throw (noFilesFound (FontConfig.package config)), w) /\
  (ModuleOptions.fonts (options self) = [config] ->
   processAll self w
   = (Ok [failedEntry config (noFilesFound (FontConfig.package config))], w)).
Proof.
  intros packagePath Hpkg Hmeta Hfiles Hempty.
  assert (processFont self config w
          = (Throw (noFilesFound (FontConfig.package config)), w)) as Hfont.
  { unfold processFont. rewrite bind_unfold.
    rewrite (resolvePackagePath_direct self _ w Hpkg). fold packagePath.
    destruct (readFontMetadata_primary packagePath config w m t Hmeta)
      as (m' & Hread & Hsubsets & Hstyles & _).
    rewrite bind_unfold, Hread. rewrite bind_unfold.
    unfold findFontFiles. rewrite bind_unfold. cbn [Fs.existsSync].
    rewrite bool_decide_eq_true_2 by done. cbn [negb].
    rewrite Hsubsets, Hstyles.
    match goal with
    | |- context [buildFilePatterns ?c ?md ?ss ?st ?ws] =>
        assert (buildFilePatterns c md ss st ws = []) as ->
    end.
    { apply length_zero_iff_nil. rewrite buildFilePatterns_length.
      destruct Hempty as [-> | ->]; simpl; lia. }
    cbn [forM]. rewrite bind_unfold. reflexivity. }
  split; [exact Hfont|]. intros Hfonts. by apply processAll_single_failure.
Qed.

Lemma empty_selection_matches_no_file_witness :
  processAll (FontProcessor.new (Scenario.optionsFor [Cases.noSubsets]) "/proj") Scenario.world
  = (Ok [failedEntry Cases.noSubsets (noFilesFound "pkg-a")], Scenario.world).
Proof.
  refine (proj2 (empty_selection_matches_no_file
                   (FontProcessor.new (Scenario.optionsFor [Cases.noSubsets]) "/proj")
                   Cases.noSubsets Scenario.world Scenario.metadata 1000 _ _ _ _) eq_refl).
  - vm_compute. eauto.
  - vm_compute. reflexivity.
  - vm_compute. eauto.
  - left. reflexivity.
Defined.

(** X8.  Ranges given with the request override those of the package
    when the metadata is read from [metadata.json]: a non-empty range of
    the request for a subset is the range that [getUnicodeRange] returns
    for it.  When the package has only [font-metadata.json], the metadata
    is returned as it is and the ranges of the request are not applied. *)
Theorem requested_ranges_apply_to_primary_metadata_only (packagePath : string)
    (config : FontConfig.t) (w : World) (m : FontMetadata.t) (t : Z) :
  (Fs.lookup w (Path.join [packagePath; "metadata.json"]) = Some (File (MetadataJson m) t) ->
   exists m',
     readFontMetadata packagePath config w = (Ok (Some m'), w) /\
     forall ranges subset range,
       FontConfig.unicodeRanges config = Some ranges ->
       ranges !! subset = Some range -> range <> "" ->
       getUnicodeRange m' subset = Some range) /\
  (Fs.lookup w (Path.join [packagePath; "metadata.json"]) = None ->
   Fs.lookup w (Path.join [packagePath; "font-metadata.json"])
   = Some (File (MetadataJson m) t) ->
   readFontMetadata packagePath config w = (Ok (Some m), w)).
Proof.
  split.
  - intros Hfile.
    destruct (readFontMetadata_primary packagePath config w m t Hfile)
      as (m' & Hread & _ & _ & Hranges).
    exists m'. split; [exact Hread|].
    intros ranges subset range Hconfig Hrange Hne.
    unfold getUnicodeRange. rewrite Hranges, Hconfig. cbn [mbind option_bind].
    rewrite (lookup_union_Some_l _ _ _ _ Hrange).
    destruct range; [done | reflexivity].
  - intros Hnone Halt. unfold readFontMetadata.
    rewrite bind_unfold. cbn [Fs.existsSync].
    rewrite bool_decide_eq_false_2 by (rewrite Hnone; by intros [? ?]).
    cbn [negb]. rewrite bind_unfold. cbn [Fs.existsSync].
    rewrite bool_decide_eq_true_2 by eauto.
    rewrite bind_unfold. unfold readJsonMetadata.
    rewrite bind_unfold. unfold Fs.readFileSync at 1. rewrite Halt. reflexivity.
Qed.

Lemma requested_ranges_apply_to_primary_metadata_only_witness :
  (exists m',
     readFontMetadata "/proj/node_modules/pkg-a" Cases.ownRange Scenario.world
     = (Ok (Some m'), Scenario.world) /\
     getUnicodeRange m' "latin" = Some "U+0041-005A") /\
  (exists m,
     readFontMetadata "/proj/node_modules/pkg-a" Cases.ownRange Cases.alternativeWorld
     = (Ok (Some m), Cases.alternativeWorld) /\
     getUnicodeRange m "latin" = predefinedRanges "latin").
Proof.
  split.
  - destruct (proj1 (requested_ranges_apply_to_primary_metadata_only
                       "/proj/node_modules/pkg-a" Cases.ownRange Scenario.world
                       Scenario.metadata 1000)) as (m' & Hread & Hrange).
    + vm_compute. reflexivity.
    + exists m'. split; [exact Hread|].
      apply (Hrange {[ "latin" := "U+0041-005A" ]}); [reflexivity | reflexivity | discriminate].
  - exists Scenario.metadata. split; [|reflexivity].
    apply (proj2 (requested_ranges_apply_to_primary_metadata_only
                    "/proj/node_modules/pkg-a" Cases.ownRange Cases.alternativeWorld
                    Scenario.metadata 1000)); vm_compute; reflexivity.
Defined.

End InstalledPackages.

(** ** The order of a batch *)

Section BatchOrder.

Import FontProcessor.

Lemma sorted_weaken {A} (R R' : A -> A -> Prop) (l : list A) :
  (forall a b, R a b -> R' a b) -> StronglySorted R l -> StronglySorted R' l.
Proof.
  intros Himpl. induction 1 as [|a l Hl IH Ha]; constructor; [exact IH|].
  eapply Forall_impl; [exact Ha | apply Himpl].
Qed.

(** X9.  [processAll] returns the fonts by descending priority, a request
    without priority counting as priority 0, and requests of equal
    priority in the order in which they are configured. *)
Theorem processAll_descends_by_priority (self : FontProcessor.t) (w : World) :
  exists results w',
    processAll self w = (Ok results, w') /\
    StronglySorted (fun a b => priorityOf b <= priorityOf a)
                   (map ProcessedFont.config results) /\
    forall p : Z,
      filter (fun c => priorityOf c = p) (map ProcessedFont.config results)
      = filter (fun c => priorityOf c = p) (ModuleOptions.fonts (options self)).
Proof.
  unfold processAll.
  destruct (processLoop_batch self
              (Js.sort comparePriority (ModuleOptions.fonts (options self))) [] w)
    as (results & w' & Hloop & Hbatch).
  exists results, w'. split; [exact Hloop|].
  assert (map ProcessedFont.config results
          = Js.sort comparePriority (ModuleOptions.fonts (options self))) as ->.
  { pose proof (batch_entries _ _ _ _ _ Hbatch) as Hentries.
    clear -Hentries. induction Hentries as [|c r cs rs [Hc _] _ IH]; simpl; [done|].
    by rewrite Hc, IH. }
  split.
  - eapply sorted_weaken; [|apply (sort_sorted comparePriority)].
    + intros a b. unfold Js.cmp_le, comparePriority, priorityOf. lia.
    + intros a b. unfold comparePriority. lia.
    + intros a b c. unfold comparePriority. lia.
  - intros p. apply sort_filter.
    intros x y Hx Hy. unfold comparePriority, priorityOf in *. lia.
Qed.

End BatchOrder.

(** ** Packages in the store of [pnpm] *)

Section PackageStore.

Import FontProcessor.

Lemma includes_append_r (needle a b : string) :
  Js.includes needle b = true -> Js.includes needle (a +:+ b) = true.
Proof.
  intros Hb. induction a as [|c a IH]; [exact Hb|].
  change (String c a +:+ b) with (String c (a +:+ b)).
  change (Js.includes needle (String c (a +:+ b)))
    with (String.prefix needle (String c (a +:+ b)) || Js.includes needle (a +:+ b)).
  rewrite IH. apply orb_true_r.
Qed.

Lemma includes_prefix (needle b : string) : Js.includes needle (needle +:+ b) = true.
Proof.
  destruct (needle +:+ b) as [|c s] eqn:E.
  - destruct needle; [reflexivity | discriminate].
  - change (Js.includes needle (String c s))
      with (String.prefix needle (String c s) || Js.includes needle s).
    rewrite <- E, prefix_append. reflexivity.
Qed.

Lemma last_of_sorted_is_greatest {A} (R : A -> A -> Prop) (l : list A) (x : A) :
  (forall a, R a a) -> StronglySorted R l -> last l = Some x -> Forall (fun a => R a x) l.
Proof.
  intros Hrefl Hsorted. induction Hsorted as [|a l Hl IH Ha]; intros Hlast; [constructor|].
  destruct l as [|b l].
  - inversion Hlast; subst. constructor; [apply Hrefl | constructor].
  - change (last (a :: b :: l)) with (last (b :: l)) in Hlast.
    constructor; [|by apply IH].
    rewrite Forall_forall in Ha. apply Ha. by apply last_Some_elem_of.
Qed.

(** X10.  A package that is absent from the top of [node_modules] is
    looked up in the store of [pnpm]; when several installed versions
    match, [resolvePackagePath] returns the path that is greatest in the
    order of the code units, which need not be the highest version. *)
Theorem resolvePackagePath_takes_greatest_store_path (self : FontProcessor.t)
    (packageName : string) (w : World) (matches : list string) :
  let direct := Path.join [projectRoot self; "node_modules"; packageName] in
  let store :=
    Path.join [projectRoot self; "node_modules"; ".pnpm"; packageName +:+ "@*";
               "node_modules"; packageName] in
  Fs.lookup w direct = None -> Js.includes "*" direct = false ->
  Fs.lookup w store = None ->
  Fs.glob store w = (Ok matches, w) -> matches <> [] ->
  exists path,
    resolvePackagePath self packageName w = (Ok (Some path), w) /\
    path ∈ matches /\
    Forall (fun other => String.compare other path <> Gt) matches.
Proof.
  intros direct store Hdirect Hplain Hstore Hglob Hne.
  assert (exists path, lastSorted matches = Some path) as [path Hlast].
  { unfold lastSorted. destruct (last (Js.sortStrings matches)) as [p|] eqn:E; [eauto|].
    apply last_None in E.
    pose proof (sort_length Js.compareZ matches) as Hlen. unfold Js.sortStrings in E.
    rewrite E in Hlen. destruct matches; [done | discriminate]. }
  exists path.
  assert (Permutation (Js.sortStrings matches) matches) as Hperm
    by apply sort_Permutation.
  split; [|split].
  - unfold resolvePackagePath. fold direct. fold store.
    cbn [app forM]. rewrite bind_unfold, bind_unfold. cbn [Fs.existsSync].
    rewrite bool_decide_eq_false_2 by (rewrite Hdirect; by intros [? ?]).
    rewrite Hplain. cbn [ret].
    rewrite bind_unfold, bind_unfold. cbn [Fs.existsSync].
    rewrite bool_decide_eq_false_2 by (rewrite Hstore; by intros [? ?]).
    assert (Js.includes "*" store = true) as ->.
    { unfold store, Path.join. cbn [Js.join].
      do 3 (apply includes_append_r; apply includes_append_r).
      rewrite append_assoc. apply includes_append_r.
      apply (includes_append_r "*" "@"). apply (includes_prefix "*"). }
    rewrite bind_unfold, Hglob. cbn [ret]. rewrite Hlast.
    destruct (Js.startsWith "@" packageName); cbn [forM]; [|reflexivity].
    rewrite bind_unfold. reflexivity.
  - rewrite <- Hperm. by apply last_Some_elem_of.
  - rewrite <- Hperm.
    eapply Forall_impl;
      [apply (last_of_sorted_is_greatest (Js.cmp_le Js.compareZ) _ path)|].
    + intros a. unfold Js.cmp_le. by rewrite compareZ_refl.
    + apply sort_sorted.
      * intros a b Hab. apply compareZ_sign in Hab. lia.
      * apply compareZ_trans.
    + exact Hlast.
    + intros other. unfold Js.cmp_le, Js.compareZ.
      destruct (String.compare other path); [done | done | lia].
Qed.

Lemma resolvePackagePath_takes_greatest_store_path_witness :
  resolvePackagePath (FontProcessor.new Scenario.options "/proj") "pkg-a" Store.world
  = (Ok (Some "/proj/node_modules/.pnpm/pkg-a@5.0.9/node_modules/pkg-a"), Store.world) /\
  String.compare "/proj/node_modules/.pnpm/pkg-a@5.0.10/node_modules/pkg-a"
                 "/proj/node_modules/.pnpm/pkg-a@5.0.9/node_modules/pkg-a" <> Gt.
Proof.
  destruct (resolvePackagePath_takes_greatest_store_path
              (FontProcessor.new Scenario.options "/proj") "pkg-a" Store.world
              (Scenario.value
                 (Fs.glob "/proj/node_modules/.pnpm/pkg-a@*/node_modules/pkg-a" Store.world)))
    as (path & Hrun & Hin & Hall).
  - vm_compute. reflexivity.
  - vm_compute. reflexivity.
  - vm_compute. reflexivity.
  - vm_compute. reflexivity.
  - vm_compute. discriminate.
  - split; [vm_compute; reflexivity|]. vm_compute. discriminate.
Defined.

End PackageStore.

(** ** Relative paths in the snapshot *)

Section RelativePaths.

Import CacheManager.

(** X11.  [makeRelativePath] and the resolution against the working
    directory are inverse on the paths below the project root; a path
    that does not begin with the root is kept; and of a path that begins
    with the text of the root, the root and the one character after it
    are dropped, whatever that character is. *)
Theorem makeRelativePath_round_trip (projectRoot : string) :
  (forall rel, Js.startsWith "/" rel = false ->
     Path.resolve projectRoot (makeRelativePath projectRoot (projectRoot +:+ "/" +:+ rel))
     = projectRoot +:+ "/" +:+ rel) /\
  (forall p, Js.startsWith projectRoot p = false -> makeRelativePath projectRoot p = p) /\
  (forall c rest, makeRelativePath projectRoot (projectRoot +:+ String c rest) = rest).
Proof.
  assert (forall c rest, makeRelativePath projectRoot (projectRoot +:+ String c rest) = rest)
    as Hdrop.
  { intros c rest. unfold makeRelativePath, Js.startsWith.
    by rewrite prefix_append, drop_append. }
  split; [|split].
  - intros rel Hrel.
    change (projectRoot +:+ "/" +:+ rel) with (projectRoot +:+ String "/" rel).
    rewrite Hdrop. unfold Path.resolve. by rewrite Hrel.
  - intros p Hp. unfold makeRelativePath. by rewrite Hp.
  - exact Hdrop.
Qed.

Lemma makeRelativePath_round_trip_witness :
  Path.resolve "/proj" (makeRelativePath "/proj" Scenario.fontPath) = Scenario.fontPath /\
  makeRelativePath "/proj" "/srv/fonts/a.woff2" = "/srv/fonts/a.woff2" /\
  makeRelativePath "/proj" "/project/fonts/a.woff2" = "ct/fonts/a.woff2".
Proof.
  destruct (makeRelativePath_round_trip "/proj") as (Hback & Hout & Hdrop).
  split; [|split].
  - apply (Hback "node_modules/pkg-a/files/demo-latin-wght-normal.woff2"). reflexivity.
  - apply Hout. reflexivity.
  - apply (Hdrop "e"%char "ct/fonts/a.woff2").
Defined.

End RelativePaths.

(** ** The table of fallback metrics *)

Section MetricsTable.

Import FallbackMetrics FallbackFontMetrics.

Lemma table_entries_with_qualifier :
  Forall (fun entry => getFallbackMetricsForFont (fst entry +:+ " Variable") None = snd entry)
         table.
Proof. repeat (constructor; [vm_compute; reflexivity|]). constructor. Qed.

(** X12.  Every family of the table, looked up under its name followed by
    the qualifier [Variable], gets the metrics of the family itself,
    whether the table has an entry for the qualified name or not; a
    non-empty custom fallback replaces the stack and keeps the overrides. *)
Theorem qualified_family_shares_metrics (family : string) (m : FallbackFontMetrics.t) :
  fallbackMetrics !! family = Some m ->
  getFallbackMetricsForFont (family +:+ " Variable") None = m /\
  forall custom, custom <> "" ->
    fallback (getFallbackMetricsForFont (family +:+ " Variable") (Some custom)) = custom /\
    sameOverrides (getFallbackMetricsForFont (family +:+ " Variable") (Some custom)) m.
Proof.
  intros Hlookup.
  assert (getFallbackMetricsForFont (family +:+ " Variable") None = m) as Hplain.
  { unfold fallbackMetrics in Hlookup. apply elem_of_list_to_map_2 in Hlookup.
    pose proof table_entries_with_qualifier as Hall. rewrite Forall_forall in Hall.
    exact (Hall _ Hlookup). }
  split; [exact Hplain|]. intros custom Hcustom.
  destruct (getFallbackMetricsForFont_custom (family +:+ " Variable") custom Hcustom)
    as [Hstack Hsame].
  split; [exact Hstack|]. by rewrite Hplain in Hsame.
Qed.

Lemma qualified_family_shares_metrics_witness :
  getFallbackMetricsForFont "Roboto Variable" None
  = mk "Arial, Helvetica Neue, Helvetica, sans-serif" "100.3%" "92.7%" "24.4%" "0%" /\
  fallback (getFallbackMetricsForFont "Roboto Variable" (Some "Verdana")) = "Verdana".
Proof.
  destruct (qualified_family_shares_metrics "Roboto"
              (mk "Arial, Helvetica Neue, Helvetica, sans-serif" "100.3%" "92.7%" "24.4%" "0%"))
    as [Hplain Hcustom].
  - vm_compute. reflexivity.
  - split; [exact Hplain|]. apply (Hcustom "Verdana"). discriminate.
Defined.

End MetricsTable.

(** ** The style sheet *)

Section StyleSheet.

Import FontProcessor.

Variable entries : gmap string Axis.t -> list (string * Axis.t).

(** What [processAll] returns is [named]. *)
Lemma processAll_named (self : FontProcessor.t) (w w' : World) (results : list ProcessedFont.t) :
  processAll self w = (Ok results, w') ->
  named results /\
  Forall (fun r => ProcessedFont.errors r <> [] ->
                   FontMetadata.family (ProcessedFont.metadata r) = None) results.
Proof.
  intros Hrun.
  destruct (processLoop_batch self
              (Js.sort comparePriority (ModuleOptions.fonts (options self))) [] w)
    as (results' & w'' & Hloop & Hbatch).
  change (processAll self w = (Ok results', w'')) in Hloop.
  rewrite Hloop in Hrun. inversion Hrun; subst; clear Hrun.
  pose proof (batch_entries _ _ _ _ _ Hbatch) as Hentries.
  clear -Hentries. split.
  - induction Hentries as [|c r cs rs [_ Hr] _ IH]; constructor; [|exact IH].
    destruct Hr as [(_ & _ & _ & Hfam)|(message & ->)]; [done|]. simpl. discriminate.
  - induction Hentries as [|c r cs rs [_ Hr] _ IH]; constructor; [|exact IH].
    destruct Hr as [(He & _)|(message & ->)]; [congruence|]. reflexivity.
Qed.

Lemma generateFontFaces_from_named (self : FontProcessor.t) (results : list ProcessedFont.t)
    (css : string) :
  named results -> exists css', generateFontFaces_from self css results = Ok css'.
Proof.
  intros Hnamed. revert css. induction Hnamed as [|font results Hfont _ IH]; intros css; simpl.
  - eauto.
  - destruct (ProcessedFont.errors font) as [|e es]; [|apply IH].
    destruct (Hfont eq_refl) as [family Hfamily].
    destruct (isTrue _ && _); [|apply IH].
    unfold generateFallbackFont. rewrite Hfamily. apply IH.
Qed.

Lemma generateCustomProperties_from_named (self : FontProcessor.t)
    (results : list ProcessedFont.t) (css : string) :
  named results -> exists css', generateCustomProperties_from entries self css results = Ok css'.
Proof.
  intros Hnamed. revert css. induction Hnamed as [|font results Hfont _ IH]; intros css; simpl.
  - eauto.
  - destruct (ProcessedFont.errors font) as [|e es]; [|apply IH].
    destruct (Hfont eq_refl) as [family Hfamily]. rewrite Hfamily. apply IH.
Qed.

Lemma materialSymbolsEntry_elem (results : list ProcessedFont.t) (font : ProcessedFont.t) :
  materialSymbolsEntry results = Some font -> font ∈ results.
Proof.
  unfold materialSymbolsEntry. intros H. apply find_some in H as [Hin _].
  by apply list_elem_of_In.
Qed.

(** X13.  On the results of [processAll], [generateCSS] throws exactly
    when the utility classes are enabled and the first entry of a
    Material Symbols package is a failed one: the face declarations and
    the custom properties skip a failed font, the utility classes read
    the family name of its empty metadata.  In every other case the style
    sheet is produced, and in both cases nothing is written. *)
Theorem generateCSS_throws_only_on_failed_material_symbols (self : FontProcessor.t)
    (w w' : World) (results : list ProcessedFont.t) :
  processAll self w = (Ok results, w') ->
  let failedIcons :=
    isTrue (ModuleOptions.utilities (options self))
    && match materialSymbolsEntry results with
       | Some font => bool_decide (ProcessedFont.errors font <> [])
       | None => false
       end in
  if failedIcons
  then exists e, generateCSS entries self results w' = (Throw e, w')
  else exists css, generateCSS entries self results w' = (Ok css, w').
Proof.
  intros Hrun failedIcons.
  apply processAll_named in Hrun as [Hnamed Hfailed].
  destruct (generateFontFaces_from_named self results "" Hnamed) as [faces Hfaces].
  assert (exists out, (if isTrue (ModuleOptions.customProperties (options self))
                       then lift (generateCustomProperties entries self results)
                       else ret "") w' = (Ok out, w')) as [props Hprops].
  { destruct (isTrue (ModuleOptions.customProperties (options self)));
      [|eexists; reflexivity].
    destruct (generateCustomProperties_from_named self results
                (Js.lines [ "/* CSS Custom Properties */"; ":root {" ]) Hnamed) as [out Hout].
    exists out. unfold lift, generateCustomProperties. by rewrite Hout. }
  assert (exists header,
            generateCSS entries self results w'
            = match (if isTrue (ModuleOptions.utilities (options self))
                     then generateUtilities results else Ok "") with
              | Ok utilities =>
                  (Ok (Js.join Js.nl
                         (filter (fun s => s <> "")
                            [ header; faces; props; utilities; generatePerformanceHints ])), w')
              | Throw e => (Throw e, w')
              end) as [header Hcss].
  { eexists. unfold generateCSS. rewrite bind_unfold. unfold generateHeader.
    rewrite bind_unfold. cbn [get_world ret].
    rewrite bind_unfold. unfold lift at 1, generateFontFaces. rewrite Hfaces.
    rewrite bind_unfold, Hprops. rewrite bind_unfold.
    destruct (isTrue (ModuleOptions.utilities (options self))); [|reflexivity].
    unfold lift. destruct (generateUtilities results); reflexivity. }
  rewrite Hcss. clear Hcss. subst failedIcons.
  destruct (isTrue (ModuleOptions.utilities (options self))); cbn [andb];
    [|eexists; reflexivity].
  unfold generateUtilities. fold (materialSymbolsEntry results).
  destruct (materialSymbolsEntry results) as [font|] eqn:Hfind; [|eexists; reflexivity].
  apply materialSymbolsEntry_elem in Hfind.
  rewrite Forall_forall in Hfailed. unfold named in Hnamed. rewrite Forall_forall in Hnamed.
  unfold generateMaterialSymbolsUtilities.
  destruct (bool_decide (ProcessedFont.errors font <> [])) eqn:Herr.
  - apply bool_decide_eq_true in Herr. rewrite (Hfailed _ Hfind Herr).
    eexists; reflexivity.
  - apply bool_decide_eq_false in Herr.
    destruct (Hnamed _ Hfind) as [family Hfamily].
    { destruct (ProcessedFont.errors font); [done|]. exfalso. by apply Herr. }
    rewrite Hfamily. eexists; reflexivity.
Qed.

End StyleSheet.

Lemma generateCSS_throws_only_on_failed_material_symbols_witness :
  (exists e, FontProcessor.generateCSS map_to_list Icons.processor Icons.results Icons.processed
             = (Throw e, Icons.processed)) /\
  (exists css, FontProcessor.generateCSS map_to_list Scenario.processor Scenario.results
                 Scenario.processed = (Ok css, Scenario.processed)).
Proof.
  split.
  - pose proof (generateCSS_throws_only_on_failed_material_symbols map_to_list
                  Icons.processor Scenario.world Icons.processed Icons.results) as H.
    cbv zeta in H.
    match type of H with
    | _ -> if ?c then _ else _ =>
        assert (c = true) as Hc by (vm_compute; reflexivity); rewrite Hc in H
    end.
    apply H. vm_compute. reflexivity.
  - pose proof (generateCSS_throws_only_on_failed_material_symbols map_to_list
                  Scenario.processor Scenario.world Scenario.processed Scenario.results) as H.
    cbv zeta in H.
    match type of H with
    | _ -> if ?c then _ else _ =>
        assert (c = false) as Hc by (vm_compute; reflexivity); rewrite Hc in H
    end.
    apply H. vm_compute. reflexivity.
Defined.

Section FaceBlocks.

Import FontProcessor.

Lemma fold_faces_prefix (self : FontProcessor.t) (font : ProcessedFont.t)
    (files : list FontFile.t) (a b : string) :
  fold_left (fun acc file => acc +:+ generateSingleFontFace self font file) files (a +:+ b)
  = a +:+ fold_left (fun acc file => acc +:+ generateSingleFontFace self font file) files b.
Proof.
  revert b. induction files as [|f files IH]; intros b; simpl; [reflexivity|].
  by rewrite append_assoc, IH.
Qed.

(** The face declarations do not depend on what has been written before
    them. *)
Lemma generateFontFaces_from_prefix (self : FontProcessor.t) (results : list ProcessedFont.t)
    (a b : string) :
  generateFontFaces_from self (a +:+ b) results
  = match generateFontFaces_from self b results with
    | Ok css => Ok (a +:+ css)
    | Throw e => Throw e
    end.
Proof.
  revert b. induction results as [|font results IH]; intros b; simpl; [reflexivity|].
  destruct (ProcessedFont.errors font) as [|e es].
  - rewrite !append_assoc, fold_faces_prefix.
    destruct (isTrue _ && _).
    + destruct (generateFallbackFont font) as [fallbackCss|e]; [|reflexivity].
      rewrite !append_assoc. apply IH.
    + rewrite !append_assoc. apply IH.
  - rewrite !append_assoc. apply IH.
Qed.

Lemma generateFontFaces_from_app (self : FontProcessor.t) (first second : list ProcessedFont.t)
    (css : string) :
  generateFontFaces_from self css (first ++ second)
  = match generateFontFaces_from self css first with
    | Ok css' => generateFontFaces_from self css' second
    | Throw e => Throw e
    end.
Proof.
  revert css. induction first as [|font first IH]; intros css; simpl; [reflexivity|].
  destruct (ProcessedFont.errors font) as [|e es]; [|apply IH].
  destruct (isTrue _ && _); [|apply IH].
  destruct (generateFallbackFont font); [apply IH | reflexivity].
Qed.

(** X14.  The face declarations of a list of results are those of its
    parts, one after the other: the block of a font does not depend on
    the fonts around it, and a part that throws makes the whole throw. *)
Theorem generateFontFaces_of_parts (self : FontProcessor.t)
    (first second : list ProcessedFont.t) :
  generateFontFaces self (first ++ second)
  = match generateFontFaces self first, generateFontFaces self second with
    | Ok css1, Ok css2 => Ok (css1 +:+ css2)
    | Throw e, _ => Throw e
    | Ok _, Throw e => Throw e
    end.
Proof.
  unfold generateFontFaces. rewrite generateFontFaces_from_app.
  destruct (generateFontFaces_from self "" first) as [css1|e]; [|reflexivity].
  rewrite <- (append_nil_r css1) at 1. rewrite generateFontFaces_from_prefix.
  destruct (generateFontFaces_from self "" second); reflexivity.
Qed.

End FaceBlocks.

(** ** The names of the custom properties *)

Section PropertyNames.

Import FontProcessor.

Variable entries : gmap string Axis.t -> list (string * Axis.t).

Lemma prefix_append_l (needle a b : string) :
  String.prefix needle a = true -> String.prefix needle (a +:+ b) = true.
Proof.
  revert a. induction needle as [|c needle IH]; intros a H; [by destruct (a +:+ b)|].
  destruct a as [|x a]; [discriminate|].
  change (String x a +:+ b) with (String x (a +:+ b)).
  cbn [String.prefix] in *. destruct (ascii_dec c x); [by apply IH | discriminate].
Qed.

Lemma includes_append_l (needle a b : string) :
  Js.includes needle a = true -> Js.includes needle (a +:+ b) = true.
Proof.
  induction a as [|c a IH]; intros H.
  - change (Js.includes needle "") with (String.prefix needle "" || false) in H.
    rewrite orb_false_r in H. destruct needle; [|discriminate].
    destruct ("" +:+ b); reflexivity.
  - change (Js.includes needle (String c a))
      with (String.prefix needle (String c a) || Js.includes needle a) in H.
    change (String c a +:+ b) with (String c (a +:+ b)).
    change (Js.includes needle (String c (a +:+ b)))
      with (String.prefix needle (String c (a +:+ b)) || Js.includes needle (a +:+ b)).
    apply orb_true_iff in H as [H|H].
    + change (String c (a +:+ b)) with (String c a +:+ b).
      by rewrite (prefix_append_l _ _ _ H).
    + rewrite (IH H). apply orb_true_r.
Qed.

Lemma includes_middle (needle a b : string) : Js.includes needle (a +:+ needle +:+ b) = true.
Proof. apply includes_append_r, includes_prefix. Qed.

Lemma fold_left_prefix {A} (f : string -> A -> string) (l : list A) (a b : string) :
  (forall a b x, f (a +:+ b) x = a +:+ f b x) ->
  fold_left f l (a +:+ b) = a +:+ fold_left f l b.
Proof.
  intros Hf. revert b. induction l as [|x l IH]; intros b; cbn [fold_left]; [reflexivity|].
  by rewrite Hf, IH.
Qed.

(** The custom properties do not depend on what has been written before
    them. *)
Lemma generateCustomProperties_from_prefix (self : FontProcessor.t)
    (results : list ProcessedFont.t) (a b : string) :
  generateCustomProperties_from entries self (a +:+ b) results
  = match generateCustomProperties_from entries self b results with
    | Ok css => Ok (a +:+ css)
    | Throw e => Throw e
    end.
Proof.
  revert b. induction results as [|font results IH]; intros b;
    cbn [generateCustomProperties_from].
  - by rewrite append_assoc.
  - destruct (ProcessedFont.errors font) as [|e es]; [|apply IH].
    destruct (FontMetadata.family (ProcessedFont.metadata font)) as [family|]; [|reflexivity].
    cbv zeta.
    destruct (if FontConfig.variable (ProcessedFont.config font)
              then FontMetadata.variable (ProcessedFont.metadata font) ≫= FontVariation.axes
              else None) as [axes|].
    + rewrite append_assoc, fold_left_prefix; [apply IH|].
      intros x y [axis values]. apply append_assoc.
    + rewrite append_assoc. apply IH.
Qed.

(** The declaration of a font is part of the output. *)
Lemma generateCustomProperties_from_declares (self : FontProcessor.t)
    (font : ProcessedFont.t) (results : list ProcessedFont.t) (family css out : string) :
  ProcessedFont.errors font = [] ->
  FontMetadata.family (ProcessedFont.metadata font) = Some family ->
  generateCustomProperties_from entries self css (font :: results) = Ok out ->
  Js.includes ("  " +:+ Plugin.getVariable family +:+ ": '" +:+ family +:+ "'") out = true.
Proof.
  intros Herr Hfamily. cbn [generateCustomProperties_from]. rewrite Herr, Hfamily. cbv zeta.
  set (needle := "  " +:+ Plugin.getVariable family +:+ ": '" +:+ family +:+ "'").
  assert (forall rest,
            "  --font-" +:+ Js.replaceSpaceRuns "-" (Js.toLowerCase family) +:+ ": '"
              +:+ family +:+ "'" +:+ rest = needle +:+ rest) as Hdecl.
  { intros rest. unfold needle, Plugin.getVariable. rewrite !append_assoc. reflexivity. }
  rewrite Hdecl. clear Hdecl. clearbody needle.
  destruct (if FontConfig.variable (ProcessedFont.config font)
            then FontMetadata.variable (ProcessedFont.metadata font) ≫= FontVariation.axes
            else None) as [axes|].
  - rewrite !fold_left_prefix by (intros x y [axis values]; apply append_assoc).
    rewrite !generateCustomProperties_from_prefix.
    destruct (generateCustomProperties_from _ _ _ _) as [rest|e]; [|discriminate].
    intros H. injection H as <-. apply includes_append_r, includes_prefix.
  - rewrite !generateCustomProperties_from_prefix.
    destruct (generateCustomProperties_from _ _ _ _) as [rest|e]; [|discriminate].
    intros H. injection H as <-. apply includes_append_r, includes_prefix.
Qed.

(** X15.  For every font that was processed without error, the style
    sheet declares a custom property for its family under the name that
    [getVariable] of the client plugin returns for that family, so that
    the variable the runtime hands out is one the style sheet defines. *)
Theorem custom_property_has_the_runtime_name (self : FontProcessor.t)
    (results : list ProcessedFont.t) (css : string) (font : ProcessedFont.t)
    (family : string) :
  generateCustomProperties entries self results = Ok css ->
  font ∈ results ->
  ProcessedFont.errors font = [] ->
  FontMetadata.family (ProcessedFont.metadata font) = Some family ->
  Js.includes ("  " +:+ Plugin.getVariable family +:+ ": '" +:+ family +:+ "'") css = true.
Proof.
  unfold generateCustomProperties.
  generalize (Js.lines [ "/* CSS Custom Properties */"; ":root {" ]).
  intros css0 Hrun Hin Herr Hfamily. revert css0 Hrun.
  induction Hin as [font results|font other results Hin IH]; intros css0 Hrun.
  - by eapply generateCustomProperties_from_declares.
  - cbn [generateCustomProperties_from] in Hrun.
    destruct (ProcessedFont.errors other) as [|e es]; [|by eapply IH].
    destruct (FontMetadata.family (ProcessedFont.metadata other)); [|discriminate].
    by eapply IH.
Qed.

End PropertyNames.

Lemma custom_property_has_the_runtime_name_witness :
  exists css,
    FontProcessor.generateCustomProperties map_to_list Scenario.processor Scenario.results
    = Ok css /\
    Plugin.getVariable "Demo" = "--font-demo" /\
    Js.includes "  --font-demo: 'Demo'" css = true.
Proof.
  eexists. split; [vm_compute; reflexivity|]. split; [reflexivity|].
  refine (custom_property_has_the_runtime_name map_to_list Scenario.processor Scenario.results _
            (ProcessedFont.mk Scenario.request Scenario.metadata _ []) "Demo" _ _ _ _).
  - vm_compute. reflexivity.
  - vm_compute. apply list_elem_of_here.
  - reflexivity.
  - reflexivity.
Defined.

(** ** Reading the snapshot back, and clearing it *)

Section Snapshot.

Import CacheManager.

Variable localeCompare : string -> string -> Z.

Lemma sanitizeResults_keeps (projectRoot : string) (results : list ProcessedFont.t) :
  map ProcessedFont.config (sanitizeResults projectRoot results)
  = map ProcessedFont.config results /\
  map ProcessedFont.errors (sanitizeResults projectRoot results)
  = map ProcessedFont.errors results /\
  map (fun r => map FontFile.url (ProcessedFont.files r)) (sanitizeResults projectRoot results)
  = map (fun r => map FontFile.url (ProcessedFont.files r)) results.
Proof.
  unfold sanitizeResults. rewrite !map_map. cbn [ProcessedFont.config ProcessedFont.errors
    ProcessedFont.files]. repeat split; try reflexivity.
  apply map_ext. intros r. by rewrite map_map.
Qed.

(** [isCacheValidInPlace] answers what [isCacheValid] answers, and leaves
    the requests as they were or sorted. *)
Lemma isCacheValidInPlace_answer (self : CacheManager.t) (fonts : list FontConfig.t)
    (w : World) :
  exists (valid : bool) (fonts' : list FontConfig.t),
    isCacheValid localeCompare self fonts w = (Ok valid, w) /\
    isCacheValidInPlace localeCompare self fonts w = (Ok (valid, fonts'), w) /\
    (fonts' = fonts \/ fonts' = map sortedInPlace fonts).
Proof.
  unfold isCacheValid, isCacheValidInPlace, try_catch.
  rewrite !bind_unfold. unfold Fs.existsSync.
  destruct (bool_decide (is_Some (Fs.lookup w (cacheFile self)))); cbn [negb];
    [|by eexists _, _; eauto].
  rewrite !bind_unfold.
  destruct (Fs.readFileSync (cacheFile self) w) as [[d|e] w1] eqn:Hread;
    pose proof (readFileSync_world _ _ _ _ Hread) as ->; [|by eexists _, _; eauto].
  destruct d as [b|m|cache].
  - by eexists _, _; eauto.
  - unfold generateConfigHashInPlace.
    destruct (bool_decide _); by eexists _, _; eauto.
  - destruct (negb (String.eqb _ _)); [by eexists _, _; eauto|].
    rewrite !bind_unfold. cbn [get_world].
    destruct (ttl self <? _); [by eexists _, _; eauto|].
    unfold generateConfigHashInPlace.
    destruct (negb (String.eqb _ _)); [by eexists _, _; eauto|].
    unfold try_catch. rewrite !bind_unfold.
    rewrite (readsOnly_run _ w (readsOnly_checkFilesModified self (CacheEntry.fonts cache))).
    destruct (fst (checkFilesModified self (CacheEntry.fonts cache) w)) as [[]|e];
      by eexists _, _; eauto.
Qed.

(** X25.  [isCacheValid] changes the requests it is given: as soon as it
    finds a snapshot of this module version that has not expired, it
    leaves their arrays of weights, styles, subsets and axes sorted,
    whatever it answers; without a cache file, or with a snapshot of
    another version or an expired one, it leaves them as they are. *)
Theorem isCacheValid_sorts_the_requests (self : CacheManager.t) (fonts : list FontConfig.t)
    (w : World) :
  (Fs.lookup w (cacheFile self) = None ->
   isCacheValidInPlace localeCompare self fonts w = (Ok (false, fonts), w)) /\
  (forall cache mtime,
     Fs.lookup w (cacheFile self) = Some (File (CacheJson cache) mtime) ->
     (if decide (CacheEntry.version cache = moduleVersion self
                 /\ now w - CacheEntry.timestamp cache <= ttl self)
      then exists valid : bool,
             isCacheValidInPlace localeCompare self fonts w
             = (Ok (valid, map sortedInPlace fonts), w)
      else isCacheValidInPlace localeCompare self fonts w = (Ok (false, fonts), w))).
Proof.
  split.
  - intros Hnone. unfold isCacheValidInPlace, try_catch.
    rewrite bind_unfold. unfold Fs.existsSync. rewrite Hnone.
    rewrite bool_decide_eq_false_2 by (by intros [? ?]). reflexivity.
  - intros cache mtime Hfile. unfold isCacheValidInPlace, try_catch.
    rewrite bind_unfold. unfold Fs.existsSync. rewrite Hfile.
    rewrite bool_decide_eq_true_2 by eauto. cbn [negb].
    rewrite bind_unfold. unfold Fs.readFileSync. rewrite Hfile.
    destruct (String.eqb_spec (CacheEntry.version cache) (moduleVersion self)) as [Hv|Hv];
      cbn [negb]; [|by rewrite decide_False by tauto].
    rewrite bind_unfold. cbn [get_world].
    destruct (Z.ltb_spec (ttl self) (now w - CacheEntry.timestamp cache)) as [Hage|Hage];
      [by rewrite decide_False by lia|].
    rewrite decide_True by done.
    unfold generateConfigHashInPlace.
    destruct (negb (String.eqb _ _)); [by eauto|].
    unfold try_catch. rewrite bind_unfold.
    rewrite (readsOnly_run _ w (readsOnly_checkFilesModified self (CacheEntry.fonts cache))).
    destruct (fst (checkFilesModified self (CacheEntry.fonts cache) w)) as [[]|e]; by eauto.
Qed.

(** [updateCacheInPlace] never throws. *)
Lemma updateCacheInPlace_returns (self : CacheManager.t) (fonts : list FontConfig.t)
    (results : list ProcessedFont.t) (w : World) :
  exists w',
    updateCache localeCompare self fonts (map sortedRequest results) w = (Ok tt, w') /\
    updateCacheInPlace localeCompare self fonts results w
    = (Ok (map sortedInPlace fonts, map sortedRequest results), w').
Proof.
  unfold updateCacheInPlace. rewrite bind_unfold.
  destruct (updateCache localeCompare self fonts (map sortedRequest results) w)
    as [[[]|e] w'] eqn:Hrun; [by eauto|].
  exfalso. unfold updateCache, try_catch in Hrun.
  destruct (bind get_world _ w) as [[[]|e'] w1]; discriminate.
Qed.


End Snapshot.


(** With the snapshot of an earlier configuration the check of the cache
    sorts the axes before the fonts are processed, and the file named
    after the sorted axes is found; without a snapshot the same request
    matches no file. *)
Lemma isCacheValid_sorts_the_requests_witness :
  (exists sorted,
     CacheManager.isCacheValidInPlace Js.compareZ Scenario.cacheManager [Stale.request]
       Stale.world = (Ok (false, [sorted]), Stale.world) /\
     FontConfig.axes sorted = Some ["opsz"; "wght"]) /\
  CacheManager.isCacheValidInPlace Js.compareZ Scenario.cacheManager [Stale.request]
    Stale.fresh = (Ok (false, [Stale.request]), Stale.fresh) /\
  fst (fst (Index.processFonts Js.compareZ map_to_list Stale.options "/proj" Stale.processor
              Scenario.cacheManager false Index.initial Stale.world)) = Ok tt /\
  fst (fst (Index.processFonts Js.compareZ map_to_list Stale.options "/proj" Stale.processor
              Scenario.cacheManager false Index.initial Stale.fresh))
  = Throw "Cannot read properties of undefined (reading 'toLowerCase')".
Proof.
  destruct (isCacheValid_sorts_the_requests Js.compareZ Scenario.cacheManager [Stale.request]
              Stale.world) as [_ Hsorted].
  specialize (Hsorted Stale.snapshot 4000 eq_refl).
  rewrite decide_True in Hsorted by (split; vm_compute; [reflexivity | discriminate]).
  destruct Hsorted as [valid Hsorted].
  destruct (isCacheValid_sorts_the_requests Js.compareZ Scenario.cacheManager [Stale.request]
              Stale.fresh) as [Hfresh _].
  split; [|split; [apply Hfresh; reflexivity | split; vm_compute; reflexivity]].
  exists (CacheManager.sortedInPlace Stale.request). split; [|reflexivity].
  assert (valid = false) as ->; [|exact Hsorted].
  assert (fst (CacheManager.isCacheValidInPlace Js.compareZ Scenario.cacheManager
                 [Stale.request] Stale.world)
          = Ok (false, [CacheManager.sortedInPlace Stale.request])) as Hrun
    by (vm_compute; reflexivity).
  rewrite Hsorted in Hrun. cbn in Hrun. congruence.
Defined.

Section ClearingTheCache.

Import CacheManager.

Variable localeCompare : string -> string -> Z.

Lemma prefix_empty (s : string) : String.prefix "" s = true.
Proof. by destruct s. Qed.

Lemma writeNode_writable (p : string) (d : FileData) (w : World) :
  writable w p ->
  Fs.writeNode p d w
  = (Ok tt, mkWorld (<[Path.resolve (cwd w) p := File d (now w)]> (fs w)) (cwd w) (now w)).
Proof.
  intros [Hdir Hnode]. unfold Fs.writeNode. rewrite Hdir.
  destruct (fs w !! Path.resolve (cwd w) p) as [[|d0 t]|]; done.
Qed.

Lemma resolve_append (cwd dir a b : string) :
  a <> b -> Path.resolve cwd (dir +:+ "/" +:+ a) <> Path.resolve cwd (dir +:+ "/" +:+ b).
Proof.
  intros Hne. unfold Path.resolve.
  assert (Js.startsWith "/" (dir +:+ "/" +:+ a) = Js.startsWith "/" (dir +:+ "/" +:+ b)) as ->
    by (unfold Js.startsWith; destruct dir as [|c dir];
        [change (String.prefix "" a = String.prefix "" b); by rewrite !prefix_empty|];
        change (String c dir +:+ "/" +:+ a) with (String c (dir +:+ "/" +:+ a));
        change (String c dir +:+ "/" +:+ b) with (String c (dir +:+ "/" +:+ b));
        cbn [String.prefix]; destruct (ascii_dec "/" c); [|reflexivity];
        by rewrite !prefix_empty).
  destruct (Js.startsWith "/" (dir +:+ "/" +:+ b)); intros Heq.
  - apply append_cancel_l in Heq. by simplify_eq.
  - rewrite <- !append_assoc in Heq.
    apply append_cancel_l in Heq. by simplify_eq.
Qed.

(** X17.  [clearCache] on a cache file that holds a snapshot: the
    snapshot is kept as a backup named after the clock, the cache file is
    gone, and from then on [isCacheValid] answers [false] and
    [getCachedData] returns nothing.  [clearCache] itself never throws. *)
Theorem clearCache_backs_up_and_removes (self : CacheManager.t) (fonts : list FontConfig.t)
    (w : World) (snapshot : CacheEntry.t) (mtime : Z) :
  cacheFile self = Path.join [cacheDir self; "cache.json"] ->
  Fs.lookup w (cacheFile self) = Some (File (CacheJson snapshot) mtime) ->
  writable w (backupFile self (now w)) ->
  exists w',
    clearCache self w = (Ok tt, w') /\
    Fs.lookup w' (cacheFile self) = None /\
    Fs.lookup w' (backupFile self (now w)) = Some (File (CacheJson snapshot) (now w)) /\
    isCacheValid localeCompare self fonts w' = (Ok false, w') /\
    getCachedData self w' = (Ok None, w').
Proof.
  intros Hname Hfile [Hdir Hnode].
  assert (Path.resolve (cwd w) (backupFile self (now w)) <> Path.resolve (cwd w) (cacheFile self))
    as Hdistinct.
  { rewrite Hname. unfold backupFile, Path.join. cbn [Js.join].
    apply resolve_append. discriminate. }
  set (w1 := mkWorld (<[Path.resolve (cwd w) (backupFile self (now w)) :=
                         File (CacheJson snapshot) (now w)]> (fs w)) (cwd w) (now w)).
  set (w2 := mkWorld (delete (Path.resolve (cwd w) (cacheFile self)) (fs w1)) (cwd w) (now w)).
  assert (clearCache self w = (Ok tt, w2)) as Hrun.
  { unfold clearCache, try_catch. rewrite bind_unfold. cbn [Fs.existsSync].
    rewrite bool_decide_eq_true_2 by eauto.
    rewrite bind_unfold. unfold Fs.readFileSync at 1. rewrite Hfile.
    rewrite bind_unfold. cbn [get_world]. rewrite bind_unfold.
    fold (backupFile self (now w)).
    rewrite (writeNode_writable _ (CacheJson snapshot) w (conj Hdir Hnode)). fold w1.
    unfold Fs.unlinkSync, Fs.lookup. cbn [fs cwd now w1].
    rewrite lookup_insert_ne by done. unfold Fs.lookup in Hfile. rewrite Hfile. reflexivity. }
  assert (Fs.lookup w2 (cacheFile self) = None) as Hgone.
  { unfold Fs.lookup. cbn [fs cwd w2]. apply lookup_delete_eq. }
  exists w2. split; [exact Hrun|]. split; [exact Hgone|]. split; [|split].
  - unfold Fs.lookup. cbn [fs cwd w2 w1].
    rewrite lookup_delete_ne by done. apply lookup_insert_eq.
  - unfold isCacheValid, try_catch. rewrite bind_unfold. cbn [Fs.existsSync].
    rewrite bool_decide_eq_false_2; [reflexivity|]. rewrite Hgone. by intros [? ?].
  - unfold getCachedData, try_catch. rewrite bind_unfold. cbn [Fs.existsSync].
    rewrite bool_decide_eq_false_2; [reflexivity|]. rewrite Hgone. by intros [? ?].
Qed.

End ClearingTheCache.

Lemma clearCache_backs_up_and_removes_witness :
  exists w',
    CacheManager.clearCache Scenario.cacheManager Scenario.cached = (Ok tt, w') /\
    Fs.lookup w' (CacheManager.cacheFile Scenario.cacheManager) = None /\
    is_Some (Fs.lookup w' (backupFile Scenario.cacheManager (now Scenario.cached))) /\
    CacheManager.isCacheValid Js.compareZ Scenario.cacheManager [Scenario.request] w'
    = (Ok false, w').
Proof.
  destruct (Fs.lookup Scenario.cached (CacheManager.cacheFile Scenario.cacheManager))
    as [[|[content|metadata|snapshot] mtime]|] eqn:Hfile;
    try (vm_compute in Hfile; discriminate).
  destruct (clearCache_backs_up_and_removes Js.compareZ Scenario.cacheManager [Scenario.request]
              Scenario.cached snapshot mtime eq_refl Hfile)
    as (w' & Hrun & Hgone & Hbackup & Hvalid & _).
  - split; vm_compute; [reflexivity | discriminate].
  - exists w'. split; [exact Hrun|]. split; [exact Hgone|]. split; [|exact Hvalid].
    rewrite Hbackup. eauto.
Defined.

(** ** The runtime *)

Section VariableNames.

(** X18.  For the families that the client plugin registers, the
    composable and the plugin agree on the CSS variable of every family
    name, however it is written: [getVariable] of [useVariableFonts]
    returns what [getVariable] of [$fonts] returns. *)
Theorem getVariable_of_composable_and_plugin_agree (fontData : list FontData.t)
    (family : string) :
  Composable.getVariable (Composable.initialFamilies (Plugin.families fontData)) family
  = Plugin.getVariable family.
Proof.
  unfold Composable.getVariable, Composable.getFamily, Plugin.getVariable.
  induction fontData as [|entry fontData IH]; [reflexivity|].
  cbn [Plugin.families Composable.initialFamilies map List.find FontFamilyInfo.name
       FontFamilyInfo.cssVariable] in *.
  destruct (String.eqb _ _) eqn:Hname; [|exact IH].
  apply String.eqb_eq in Hname. cbn [fmap option_fmap option_map FontFamilyInfo.cssVariable].
  rewrite Hname. reflexivity.
Qed.

End VariableNames.

Section VariationSettings.

Lemma includes_char_cons (k c : ascii) (s : string) :
  Js.includes (String k "") (String c s)
  = (if ascii_dec k c then true else false) || Js.includes (String k "") s.
Proof.
  change (Js.includes (String k "") (String c s))
    with (String.prefix (String k "") (String c s) || Js.includes (String k "") s).
  cbn [String.prefix]. destruct (ascii_dec k c); [by rewrite prefix_empty | reflexivity].
Qed.

Lemma includes_char_append (k : ascii) (a b : string) :
  Js.includes (String k "") (a +:+ b)
  = Js.includes (String k "") a || Js.includes (String k "") b.
Proof.
  induction a as [|c a IH]; [reflexivity|].
  change (String c a +:+ b) with (String c (a +:+ b)).
  rewrite !includes_char_cons, IH. by rewrite orb_assoc.
Qed.

Lemma split_plain (k : ascii) (s : string) :
  Js.includes (String k "") s = false -> Js.split k s = [s].
Proof.
  induction s as [|c s IH]; [reflexivity|].
  rewrite includes_char_cons. intros H. apply orb_false_iff in H as [Hc Hs].
  cbn [Js.split]. destruct (Ascii.eqb c k) eqn:Heq.
  - apply Ascii.eqb_eq in Heq. subst. by destruct (ascii_dec k k).
  - by rewrite (IH Hs).
Qed.

Lemma split_at_separator (k : ascii) (a b : string) :
  Js.includes (String k "") a = false ->
  Js.split k (a +:+ String k b) = a :: Js.split k b.
Proof.
  induction a as [|c a IH].
  - intros _. cbn [String.append Js.split]. by rewrite Ascii.eqb_refl.
  - rewrite includes_char_cons. intros H. apply orb_false_iff in H as [Hc Ha].
    change (String c a +:+ String k b) with (String c (a +:+ String k b)).
    cbn [Js.split]. destruct (Ascii.eqb c k) eqn:Heq.
    + apply Ascii.eqb_eq in Heq. subst. by destruct (ascii_dec k k).
    + by rewrite (IH Ha).
Qed.

Lemma split_join (x : string) (xs : list string) :
  Forall (fun s => Js.includes "," s = false) (x :: xs) ->
  Js.split "," (Js.join ", " (x :: xs)) = x :: map (String " ") xs.
Proof.
  revert x. induction xs as [|y xs IH]; intros x Hall.
  - inversion Hall; subst. by apply split_plain.
  - inversion Hall as [|? ? Hx Hrest]; subst.
    change (Js.join ", " (x :: y :: xs)) with (x +:+ String "," (String " " (Js.join ", " (y :: xs)))).
    rewrite (split_at_separator "," x _ Hx).
    assert (String " " (Js.join ", " (y :: xs)) = Js.join ", " (String " " y :: xs)) as ->
      by (by destruct xs).
    rewrite IH; [reflexivity|].
    inversion Hrest; subst. constructor; [|done].
    by rewrite includes_char_cons.
Qed.

Lemma skipSpace_head (s : string) (c : ascii) (rest : string) :
  Js.skipSpace s = String c rest -> Js.is_space c = false.
Proof.
  induction s as [|x s IH]; [discriminate|]. cbn [Js.skipSpace].
  destruct (Js.is_space x) eqn:Hx; [exact IH|]. intros H. by inversion H; subst.
Qed.

Lemma trimEnd_cons (c : ascii) (s : string) :
  Js.is_space c = false -> Js.trimEnd (String c s) = String c (Js.trimEnd s).
Proof. intros Hc. cbn [Js.trimEnd]. rewrite Hc. by destruct (Js.trimEnd s). Qed.

Lemma trimEnd_idempotent (s : string) : Js.trimEnd (Js.trimEnd s) = Js.trimEnd s.
Proof.
  induction s as [|c s IH]; [reflexivity|]. cbn [Js.trimEnd].
  destruct (Js.trimEnd s) as [|d t] eqn:E.
  - destruct (Js.is_space c) eqn:Hc; [reflexivity|].
    unfold Js.str. cbn [Js.trimEnd]. by rewrite Hc.
  - cbn [Js.trimEnd] in *. by rewrite IH.
Qed.

Lemma trim_idempotent (s : string) : Js.trim (Js.trim s) = Js.trim s.
Proof.
  unfold Js.trim. destruct (Js.skipSpace s) as [|c rest] eqn:E; [reflexivity|].
  pose proof (skipSpace_head _ _ _ E) as Hc.
  rewrite (trimEnd_cons _ _ Hc). cbn [Js.skipSpace]. rewrite Hc.
  by rewrite (trimEnd_cons _ _ Hc), trimEnd_idempotent.
Qed.

Lemma trim_after_space (s : string) : Js.trim (String " " s) = Js.trim s.
Proof. reflexivity. Qed.

Lemma skipSpace_plain (k : ascii) (s : string) :
  Js.includes (String k "") s = false -> Js.includes (String k "") (Js.skipSpace s) = false.
Proof.
  induction s as [|c s IH]; [done|]. cbn [Js.skipSpace].
  destruct (Js.is_space c); [|done].
  rewrite includes_char_cons. intros H. apply orb_false_iff in H as [_ Hs]. by apply IH.
Qed.

Lemma trimEnd_plain (k : ascii) (s : string) :
  Js.includes (String k "") s = false -> Js.includes (String k "") (Js.trimEnd s) = false.
Proof.
  induction s as [|c s IH]; [done|].
  rewrite includes_char_cons. intros H. apply orb_false_iff in H as [Hc Hs].
  specialize (IH Hs). cbn [Js.trimEnd].
  destruct (Js.trimEnd s) as [|d t].
  - destruct (Js.is_space c); [reflexivity|]. unfold Js.str.
    by rewrite includes_char_cons, Hc.
  - by rewrite includes_char_cons, Hc, IH.
Qed.

Lemma trim_plain (k : ascii) (s : string) :
  Js.includes (String k "") s = false -> Js.includes (String k "") (Js.trim s) = false.
Proof. intros H. unfold Js.trim. by apply trimEnd_plain, skipSpace_plain. Qed.

Lemma split_fields_plain (k : ascii) (s : string) :
  Forall (fun field => Js.includes (String k "") field = false) (Js.split k s).
Proof.
  induction s as [|c s IH]; cbn [Js.split]; [by repeat constructor|].
  destruct (Ascii.eqb c k) eqn:Hc.
  - constructor; [reflexivity | exact IH].
  - apply Ascii.eqb_neq in Hc.
    assert ((if ascii_dec k c then true else false) = false) as Hdec
      by (destruct (ascii_dec k c); congruence).
    destruct (Js.split k s) as [|p ps].
    + constructor; [|constructor]. unfold Js.str. by rewrite includes_char_cons, Hdec.
    + inversion IH; subst. constructor; [|done]. by rewrite includes_char_cons, Hdec.
Qed.

(** The text of a setting keeps the quoted axis when it is trimmed. *)
Lemma trim_setting (axis value : string) :
  Js.includes ("'" +:+ axis +:+ "'") (Js.trim ("'" +:+ axis +:+ "' " +:+ value)) = true.
Proof.
  assert (forall a rest, Js.trimEnd (a +:+ String "'" rest) = a +:+ String "'" (Js.trimEnd rest))
    as Hkeep.
  { induction a as [|c a IH]; intros rest.
    - by apply trimEnd_cons.
    - change (String c a +:+ String "'" rest) with (String c (a +:+ String "'" rest)).
      cbn [Js.trimEnd]. rewrite IH.
      destruct (a +:+ String "'" (Js.trimEnd rest)) eqn:E; [by destruct a|].
      by rewrite <- E. }
  unfold Js.trim.
  change (Js.skipSpace ("'" +:+ axis +:+ "' " +:+ value))
    with (String "'" (axis +:+ String "'" (String " " value))).
  rewrite (trimEnd_cons "'" _ eq_refl), Hkeep.
  assert (String "'" (axis +:+ String "'" (Js.trimEnd (String " " value)))
          = ("'" +:+ axis +:+ "'") +:+ Js.trimEnd (String " " value)) as ->
    by (rewrite !append_assoc; reflexivity).
  apply includes_prefix.
Qed.

End VariationSettings.

Section LastWriteWins.

Lemma filter_all {A} (P : A -> Prop) `{!forall x, Decision (P x)} (l : list A) :
  Forall P l -> filter P l = l.
Proof.
  induction 1 as [|x l Hx _ IH]; [reflexivity|].
  rewrite filter_cons_True by done. by rewrite IH.
Qed.

Lemma map_fixed {A} (f : A -> A) (l : list A) : Forall (fun x => f x = x) l -> map f l = l.
Proof. induction 1 as [|x l Hx _ IH]; simpl; [reflexivity|]. by rewrite Hx, IH. Qed.

(** X19.  Setting an axis again replaces its value: after
    [updateVariationSetting] has set [axis] to [value], setting it to
    [value'] gives what setting it to [value'] in the first place gives,
    so that a run of updates, as an animation makes them, leaves one
    setting for the axis and the other settings as they were.  The axis
    and the printed value must be free of commas. *)
Theorem updateVariationSetting_replaces_the_value (current axis value value' : string) :
  Js.includes "," axis = false -> Js.includes "," value = false ->
  Composable.updateVariationSetting (Composable.updateVariationSetting current axis value)
    axis value'
  = Composable.updateVariationSetting current axis value'.
Proof.
  intros Haxis Hvalue. unfold Composable.updateVariationSetting.
  set (keep := fun s : string => s <> "" /\ Js.includes ("'" +:+ axis +:+ "'") s = false).
  set (kept := filter keep (map Js.trim (Js.split "," current))).
  set (setting := "'" +:+ axis +:+ "' " +:+ value).
  assert (Forall (fun s => keep s /\ Js.trim s = s /\ Js.includes "," s = false) kept)
    as Hkept.
  { apply Forall_forall. intros s Hs. apply list_elem_of_filter in Hs as [Hkeep Hs].
    apply list_elem_of_In, in_map_iff in Hs as (piece & <- & Hpiece).
    split; [exact Hkeep|]. split; [apply trim_idempotent|].
    apply trim_plain.
    pose proof (split_fields_plain "," current) as Hall.
    rewrite Forall_forall in Hall. apply Hall. by apply list_elem_of_In. }
  assert (Js.includes "," setting = false) as Hsetting.
  { unfold setting. rewrite !includes_char_append, Haxis, Hvalue. reflexivity. }
  assert (Forall (fun s => Js.includes "," s = false) (kept ++ [setting])) as Hplain.
  { apply Forall_app. split; [|by repeat constructor].
    eapply Forall_impl; [exact Hkept|]. by intros s (_ & _ & ?). }
  assert (map Js.trim (Js.split "," (Js.join ", " (kept ++ [setting])))
          = kept ++ [Js.trim setting]) as ->.
  { destruct (kept ++ [setting]) as [|x xs] eqn:E; [by destruct kept|].
    rewrite (split_join x xs Hplain).
    assert (map Js.trim (x :: map (String " ") xs) = map Js.trim (x :: xs)) as ->.
    { cbn [map]. f_equal. rewrite map_map. reflexivity. }
    rewrite <- E, map_app. cbn [map]. f_equal.
    apply map_fixed. eapply Forall_impl; [exact Hkept|]. by intros s (_ & ? & _). }
  rewrite filter_app.
  rewrite (filter_all keep kept) by (eapply Forall_impl; [exact Hkept|]; by intros s (? & _)).
  rewrite filter_cons_False, filter_nil.
  - by rewrite app_nil_r.
  - intros [_ Hnone]. unfold setting in Hnone. by rewrite trim_setting in Hnone.
Qed.

Lemma updateVariationSetting_replaces_the_value_witness :
  Composable.updateVariationSetting
    (Composable.updateVariationSetting "'opsz' 14, 'wght' 400" "wght" "500") "wght" "650"
  = "'opsz' 14, 'wght' 650".
Proof.
  rewrite (updateVariationSetting_replaces_the_value "'opsz' 14, 'wght' 400" "wght" "500" "650");
    reflexivity.
Defined.

End LastWriteWins.

(** ** The run of the module *)

Section ModuleRun.

Import FontProcessor.

Variable localeCompare : string -> string -> Z.
Variable entries : gmap string Axis.t -> list (string * Axis.t).

(** X20.  With a valid cache and no force, [processFonts] does nothing:
    the file tree and the state of the module stay as they are.  At
    set-up the list of processed fonts is then empty, and the hook on
    [app:resolved] adds no preload link, whatever the requests ask
    for. *)
Theorem processFonts_on_a_cache_hit_does_nothing (options : ModuleOptions.t) (rootDir : string)
    (fontProcessor : FontProcessor.t) (cacheManager : CacheManager.t) (state : Index.State)
    (w : World) (link : list Link.t) :
  isTrue (ModuleOptions.caching options) = true ->
  CacheManager.isCacheValid localeCompare cacheManager (ModuleOptions.fonts options) w
  = (Ok true, w) ->
  Index.processFonts localeCompare entries options rootDir fontProcessor cacheManager false
    state w = (Ok tt, state, w) /\
  preloads (Index.appResolved options (Index.processedFonts Index.initial) link)
  = preloads link.
Proof.
  intros Hcaching Hvalid. split.
  - destruct (isCacheValidInPlace_answer localeCompare cacheManager
                (ModuleOptions.fonts options) w) as (valid & requests & Hanswer & Hplace & _).
    rewrite Hvalid in Hanswer. injection Hanswer as <-.
    unfold Index.processFonts. cbn [negb andb].
    rewrite Hcaching, Hplace. reflexivity.
  - unfold Index.appResolved, Index.initial, Index.processedFonts, preloads.
    destruct (_ || _); [|reflexivity].
    change ([] ≫= _) with (@nil Link.t). rewrite app_nil_r, filter_app.
    destruct (isTrue (ModuleOptions.preconnect options)); [|by rewrite app_nil_r].
    rewrite filter_cons_False by done. by rewrite filter_nil, app_nil_r.
Qed.

Lemma bind_throws {A B} (m : M A) (k : A -> M B) (w : World) :
  (forall a w1, exists e w2, k a w1 = (Throw e, w2)) ->
  exists e w2, bind m k w = (Throw e, w2).
Proof.
  intros Hk. unfold bind. destruct (m w) as [[a|e] w1]; [apply Hk | eauto].
Qed.

Lemma fontNames_throws (results : list ProcessedFont.t) :
  Exists (fun r => FontMetadata.family (ProcessedFont.metadata r) = None) results ->
  exists e, Index.fontNames results = Throw e.
Proof.
  induction 1 as [r results Hr|r results _ IH]; cbn [Index.fontNames].
  - rewrite Hr. eauto.
  - destruct (FontMetadata.family (ProcessedFont.metadata r)); [|eauto].
    destruct IH as [e ->]. eauto.
Qed.

(** X21.  A run that processes the fonts throws whenever one of them has
    failed: [processAll] records the failure and goes on, but the
    generation of the type declarations reads the family name of every
    entry, and a failed entry has none.  The fonts are processed with the
    requests as the check of the cache has left them.  The list of
    processed fonts has been replaced all the same, by the entries as
    [processAll] returned them or, once the cache has been updated, with
    the arrays of their requests sorted; no type template is registered. *)
Theorem processFonts_throws_when_a_font_failed (options : ModuleOptions.t) (rootDir : string)
    (cacheManager : CacheManager.t) (force : bool) (state : Index.State) (w : World)
    (requests : list FontConfig.t) (results : list ProcessedFont.t) (w1 : World) :
  let fontProcessor := FontProcessor.new options rootDir in
  (if negb force && isTrue (ModuleOptions.caching options)
   then CacheManager.isCacheValidInPlace localeCompare cacheManager
          (ModuleOptions.fonts options)
   else ret (false, ModuleOptions.fonts options)) w = (Ok (false, requests), w) ->
  processAll (Index.withRequests fontProcessor requests) w = (Ok results, w1) ->
  Exists (fun r => ProcessedFont.errors r <> []) results ->
  exists e state' w',
    Index.processFonts localeCompare entries options rootDir fontProcessor cacheManager force
      state w = (Throw e, state', w') /\
    Index.typeTemplate state' = Index.typeTemplate state /\
    (Index.processedFonts state' = results \/
     Index.processedFonts state' = map CacheManager.sortedRequest results).
Proof.
  intros fontProcessor Hmiss Hrun Hfailed.
  assert (forall entries',
            map ProcessedFont.metadata entries' = map ProcessedFont.metadata results ->
            exists e, Index.generateFontTypes entries' = Throw e) as Htypes.
  { intros entries' Hsame. destruct (fontNames_throws entries') as [e He].
    - apply processAll_named in Hrun as [_ Hnone].
      rewrite Forall_forall in Hnone. apply Exists_exists in Hfailed as (r & Hr & Herr).
      specialize (Hnone r Hr Herr).
      apply list_elem_of_lookup in Hr as [i Hi].
      assert (map ProcessedFont.metadata entries' !! i = Some (ProcessedFont.metadata r)) as Hm
        by (rewrite Hsame, list_lookup_fmap, Hi; reflexivity).
      rewrite list_lookup_fmap in Hm.
      destruct (entries' !! i) as [r'|] eqn:Hi'; [|discriminate].
      injection Hm as Hm. apply Exists_exists. exists r'.
      split; [by eapply list_elem_of_lookup_2|]. by rewrite Hm.
    - exists e. unfold Index.generateFontTypes. by rewrite He. }
  unfold Index.processFonts. rewrite Hmiss. cbv zeta. fold fontProcessor. rewrite Hrun.
  match goal with
  | |- context [match ?run w1 with _ => _ end] => destruct (run w1) as [[[]|e] w2]
  end; [|by eexists _, _, _; eauto].
  destruct (isTrue (ModuleOptions.caching options)).
  - destruct (updateCacheInPlace_returns localeCompare cacheManager requests results w2)
      as (w3 & _ & ->).
    destruct (Htypes (map CacheManager.sortedRequest results)) as [e ->];
      [by rewrite map_map|].
    by eexists _, _, _; eauto.
  - cbn [ret]. destruct (Htypes results eq_refl) as [e ->].
    by eexists _, _, _; eauto.
Qed.

End ModuleRun.

Lemma processFonts_throws_when_a_font_failed_witness :
  exists e state' w',
    Index.processFonts Js.compareZ map_to_list
      (Scenario.optionsFor [Scenario.request; Scenario.missingRequest]) "/proj"
      Scenario.mixedProcessor Scenario.cacheManager false Index.initial Scenario.world
    = (Throw e, state', w') /\
    Index.typeTemplate state' = None /\
    map ProcessedFont.errors (Index.processedFonts state')
    = [ [FontProcessor.packageNotFound "pkg-missing"]; [] ].
Proof.
  destruct (processFonts_throws_when_a_font_failed Js.compareZ map_to_list
              (Scenario.optionsFor [Scenario.request; Scenario.missingRequest]) "/proj"
              Scenario.cacheManager false Index.initial Scenario.world
              [Scenario.request; Scenario.missingRequest]
              (Scenario.value (FontProcessor.processAll Scenario.mixedProcessor Scenario.world))
              (snd (FontProcessor.processAll Scenario.mixedProcessor Scenario.world)))
    as (e & state' & w' & Hrun & Htemplate & Hfonts).
  - vm_compute. reflexivity.
  - vm_compute. reflexivity.
  - assert (exists first rest,
              Scenario.value (FontProcessor.processAll Scenario.mixedProcessor Scenario.world)
              = first :: rest /\ ProcessedFont.errors first <> []) as (first & rest & -> & Hfirst)
      by (eexists _, _; split; [vm_compute; reflexivity | discriminate]).
    by apply Exists_cons_hd.
  - exists e, state', w'. split; [exact Hrun|]. split; [exact Htemplate|].
    assert (map ProcessedFont.errors
              (Scenario.value (FontProcessor.processAll Scenario.mixedProcessor Scenario.world))
            = [ [FontProcessor.packageNotFound "pkg-missing"]; [] ]) as Herrors
      by (vm_compute; reflexivity).
    destruct Hfonts as [-> | ->]; [exact Herrors|].
    rewrite map_map. exact Herrors.
Defined.

Lemma processFonts_on_a_cache_hit_does_nothing_witness :
  Index.processFonts Js.compareZ map_to_list Preloaded.options "/proj" Preloaded.processor
    Scenario.cacheManager false Index.initial PreloadedRun.cached
  = (Ok tt, Index.initial, PreloadedRun.cached) /\
  preloads (Index.appResolved Preloaded.options [] []) = [] /\
  map Link.href (preloads (Index.appResolved Preloaded.options PreloadedRun.results []))
  = [ Some "/fonts/demo-latin-normal-7644672d.woff2" ].
Proof.
  destruct (processFonts_on_a_cache_hit_does_nothing Js.compareZ map_to_list Preloaded.options
              "/proj" Preloaded.processor Scenario.cacheManager Index.initial
              PreloadedRun.cached []) as [Hrun Hlinks].
  - reflexivity.
  - vm_compute. reflexivity.
  - split; [exact Hrun|]. split; [exact Hlinks|]. vm_compute. reflexivity.
Defined.

(** ** The file of a preload link *)

Section PreloadedFile.

Import FontProcessor.

Lemma copyLoop_ranks self family files acc w outs w' :
  forM files acc (fun copiedFiles file =>
    copied <- copyFontFile self family file ;; ret (copiedFiles ++ [copied])) w = (Ok outs, w') ->
  map fileRank outs = map fileRank acc ++ map fileRank files.
Proof.
  intros H. apply copyLoop_Ok in H as (news & -> & Hall).
  rewrite map_app. f_equal. clear -Hall.
  induction Hall as [|file out files outs (wa & wb & Hstep & _) _ IH]; [reflexivity|].
  cbn [map]. rewrite IH. f_equal.
  apply copyFontFile_Ok in Hstep as (fam & content & t & _ & _ & -> & _). reflexivity.
Qed.

Lemma ranked_of_ranks (a b : list FontFile.t) :
  map fileRank a = map fileRank b -> ranked b -> ranked a.
Proof.
  intros Hranks Hb. revert a Hranks.
  induction Hb as [|y b Hb IH Hy]; intros a Hranks.
  - destruct a; [constructor | discriminate].
  - destruct a as [|x a]; [discriminate|]. cbn [map] in Hranks.
    injection Hranks as Hx Hrest. constructor; [by apply IH|].
    rewrite Hx. clear -Hy Hrest. revert a Hrest.
    induction Hy as [|z b Hz Hy IH]; intros a Hrest.
    + destruct a; [constructor | discriminate].
    + destruct a as [|x a]; [discriminate|]. cbn [map] in Hrest.
      injection Hrest as Hx Hrest. constructor; [by rewrite Hx | by apply IH].
Qed.

(** The files of a font that was processed are in the order of the
    sort. *)
Lemma processFont_ranked self fontConfig w result w' :
  processFont self fontConfig w = (Ok result, w') -> ranked (ProcessedFont.files result).
Proof.
  unfold processFont. intros H.
  apply bind_Ok in H as ([packagePath|] & w1 & _ & H); [|discriminate].
  apply bind_Ok in H as ([metadata|] & w2 & _ & H); [|discriminate].
  apply bind_Ok in H as (fontFiles & w3 & Hfind & H).
  destruct (length fontFiles =? 0)%nat; [discriminate|].
  apply bind_Ok in H as (copiedFiles & w4 & Hcopy & H).
  inversion H; subst; clear H. cbn [ProcessedFont.files].
  apply copyLoop_ranks in Hcopy. cbn [map app] in Hcopy.
  apply (ranked_of_ranks _ _ Hcopy).
  apply findFontFiles_sorted in Hfind as [matched ->].
  eapply sorted_weaken; [|apply compareFiles_sorted].
  intros a b. apply compareFiles_le.
Qed.

Lemma mainFile_of_ranked (font : ProcessedFont.t) :
  ranked (ProcessedFont.files font) -> Index.mainFile font = head (ProcessedFont.files font).
Proof.
  unfold Index.mainFile, ranked.
  destruct (ProcessedFont.files font) as [|first rest]; [reflexivity|].
  intros Hranked. cbn [List.find head].
  destruct (String.eqb (FontFile.subset first) "latin"
            && String.eqb (FontFile.style first) "normal") eqn:Hfirst; [reflexivity|].
  destruct (List.find _ rest) as [f|] eqn:Hfind; [|reflexivity]. exfalso.
  apply find_some in Hfind as [Hin Hf].
  inversion Hranked as [|? ? _ Hle]; subst.
  rewrite List.Forall_forall in Hle. specialize (Hle f Hin).
  unfold fileRank, isLatin, isNormal in Hle.
  apply andb_true_iff in Hf as [Hsubset Hstyle]. rewrite Hsubset, Hstyle in Hle.
  apply andb_false_iff in Hfirst as [Hno | Hno]; rewrite Hno in Hle;
    [destruct (String.eqb (FontFile.style first) "normal")
    |destruct (String.eqb (FontFile.subset first) "latin")]; cbn in Hle; lia.
Qed.

(** X22.  The file that a preload link points to is always the first
    file of its font: [findFontFiles] has put the Latin files and, among
    them, the normal style first, so that the search for a Latin file of
    normal style finds either the first file or none. *)
Theorem preload_points_to_the_first_file (self : FontProcessor.t) (w w' : World)
    (results : list ProcessedFont.t) :
  processAll self w = (Ok results, w') ->
  Forall (fun font => Index.mainFile font = head (ProcessedFont.files font)) results.
Proof.
  intros Hrun.
  destruct (processLoop_batch self
              (Js.sort comparePriority (ModuleOptions.fonts (options self))) [] w)
    as (results' & w'' & Hloop & Hbatch).
  change (processAll self w = (Ok results', w'')) in Hloop.
  rewrite Hloop in Hrun. inversion Hrun; subst; clear Hrun Hloop.
  induction Hbatch as [|c cs w r w1 rs w' Hfont _ IH|c cs w e w1 rs w' Hfont _ IH];
    constructor; try exact IH.
  - apply mainFile_of_ranked. by eapply processFont_ranked.
  - reflexivity.
Qed.

End PreloadedFile.

Lemma preload_points_to_the_first_file_witness :
  Forall (fun font => Index.mainFile font = head (ProcessedFont.files font))
         PreloadedRun.results.
Proof.
  exact (preload_points_to_the_first_file Preloaded.processor Preloaded.world
           PreloadedRun.processed PreloadedRun.results ltac:(vm_compute; reflexivity)).
Defined.

(** ** The sizes of the documentation *)

(** X23.  The unit of a size changes at 1024 and at 1024 * 1024 bytes,
    before the rounding to one decimal: the last 51 sizes below one
    mebibyte are printed as [1024.0 KB], not in [MB]. *)
Theorem formatFileSize_rounds_after_choosing_the_unit (bytes : Z) :
  1048525 <= bytes < 1048576 ->
  FontProcessor.formatFileSize bytes = "1024.0 KB".
Proof.
  intros Hbytes. unfold FontProcessor.formatFileSize, FontProcessor.toFixed1.
  destruct (Z.ltb_spec bytes 1024) as [Hlt|_]; [lia|].
  destruct (Z.ltb_spec bytes (1024 * 1024)) as [_|Hge]; [|lia].
  assert ((20 * bytes + 1024) / (2 * 1024) = 10240) as ->.
  { symmetry. apply Z.div_unique with (r := 20 * bytes + 1024 - 10240 * 2048); lia. }
  vm_compute. reflexivity.
Qed.

Lemma formatFileSize_rounds_after_choosing_the_unit_witness :
  FontProcessor.formatFileSize 1048575 = "1024.0 KB" /\
  FontProcessor.formatFileSize 1048524 = "1023.9 KB" /\
  FontProcessor.formatFileSize 1048576 = "1.0 MB".
Proof.
  split; [|split; vm_compute; reflexivity].
  apply (formatFileSize_rounds_after_choosing_the_unit 1048575). lia.
Defined.

(** ** The documentation of a run *)

Section Documentation.

Import FontProcessor.

Variable entries : gmap string Axis.t -> list (string * Axis.t).

Lemma generateDocUsage_from_named (results : list ProcessedFont.t) (doc : string) :
  named results -> exists doc', generateDocUsage_from doc results = Ok doc'.
Proof.
  intros Hnamed. revert doc.
  induction Hnamed as [|font results Hfont _ IH]; intros doc; cbn [generateDocUsage_from].
  - eauto.
  - destruct (ProcessedFont.errors font) as [|e es]; [|apply IH].
    destruct (Hfont eq_refl) as [family ->]. apply IH.
Qed.

(** The overview is written after what is there, and does not read it. *)
Lemma generateDocOverview_from_prefix (results : list ProcessedFont.t) (a b : string) :
  generateDocOverview_from entries (a +:+ b) results
  = a +:+ generateDocOverview_from entries b results.
Proof.
  revert b. induction results as [|font results IH]; intros b;
    cbn [generateDocOverview_from]; [reflexivity|].
  cbv zeta. destruct (ProcessedFont.errors font) as [|e es];
    rewrite <- IH; f_equal; by rewrite !append_assoc.
Qed.

Lemma generateDocOverview_from_start (results : list ProcessedFont.t) (doc : string) :
  generateDocOverview_from entries doc results
  = doc +:+ generateDocOverview_from entries "" results.
Proof.
  rewrite <- generateDocOverview_from_prefix. f_equal. induction doc; cbn; congruence.
Qed.

Lemma generateDocOverview_from_reports (results : list ProcessedFont.t) (doc : string)
    (font : ProcessedFont.t) :
  font ∈ results -> ProcessedFont.errors font <> [] ->
  Js.includes (failureLine font) (generateDocOverview_from entries doc results) = true.
Proof.
  intros Hin Herr. revert doc.
  induction Hin as [font results|font other results _ IH]; intros doc.
  - cbn [generateDocOverview_from]. cbv zeta.
    destruct (ProcessedFont.errors font) as [|e es] eqn:Hes; [done|].
    fold (failureLine font). rewrite <- Hes.
    change (doc +:+ "- ❌ **" +:+ FontConfig.family (ProcessedFont.config font)
              +:+ "** - Failed to process: " +:+ Js.join ", " (ProcessedFont.errors font)
              +:+ Js.nl)
      with (doc +:+ failureLine font).
    rewrite generateDocOverview_from_prefix, generateDocOverview_from_start.
    apply includes_middle.
  - cbn [generateDocOverview_from]. cbv zeta.
    destruct (ProcessedFont.errors other); by apply IH.
Qed.

(** X24.  The documentation of what [processAll] returns is always
    produced: unlike the style sheet and the type declarations, it skips
    a failed font wherever it reads the metadata.  It changes nothing in
    the file tree, and its overview has a line for every failed font,
    with the family of the request and its errors. *)
Theorem generateDocumentation_reports_failures (self : FontProcessor.t) (w w' w0 : World)
    (results : list ProcessedFont.t) :
  processAll self w = (Ok results, w') ->
  exists doc,
    generateDocumentation entries results w0 = (Ok doc, w0) /\
    Forall (fun font =>
              ProcessedFont.errors font <> [] ->
              Js.includes
                ("- ❌ **" +:+ FontConfig.family (ProcessedFont.config font)
                   +:+ "** - Failed to process: "
                   +:+ Js.join ", " (ProcessedFont.errors font) +:+ Js.nl)
                doc = true)
           results.
Proof.
  intros Hrun. apply processAll_named in Hrun as [Hnamed _].
  unfold generateDocumentation, generateDocUsage.
  match goal with
  | |- context [lift (generateDocUsage_from ?start results)] =>
      destruct (generateDocUsage_from_named results start Hnamed) as [usage Husage];
      rewrite Husage
  end.
  eexists. split; [reflexivity|].
  apply Forall_forall. intros font Hin Herr.
  cbn [Js.join]. apply includes_append_r, includes_append_r, includes_append_l.
  apply (generateDocOverview_from_reports results _ font Hin Herr).
Qed.

End Documentation.

Lemma generateDocumentation_reports_failures_witness :
  exists doc,
    FontProcessor.generateDocumentation map_to_list
      (Scenario.value (FontProcessor.processAll Scenario.mixedProcessor Scenario.world))
      Scenario.world = (Ok doc, Scenario.world) /\
    Js.includes
      ("- ❌ **Ghost** - Failed to process: " +:+ FontProcessor.packageNotFound "pkg-missing" +:+ Js.nl)
      doc = true.
Proof.
  destruct (generateDocumentation_reports_failures map_to_list Scenario.mixedProcessor
              Scenario.world
              (snd (FontProcessor.processAll Scenario.mixedProcessor Scenario.world))
              Scenario.world
              (Scenario.value (FontProcessor.processAll Scenario.mixedProcessor Scenario.world)))
    as (doc & Hdoc & Hlines).
  - vm_compute. reflexivity.
  - exists doc. split; [exact Hdoc|].
    assert (exists first rest,
              Scenario.value (FontProcessor.processAll Scenario.mixedProcessor Scenario.world)
              = first :: rest /\
              ProcessedFont.errors first <> [] /\
              "- ❌ **" +:+ FontConfig.family (ProcessedFont.config first)
                 +:+ "** - Failed to process: "
                 +:+ Js.join ", " (ProcessedFont.errors first) +:+ Js.nl
              = "- ❌ **Ghost** - Failed to process: " +:+ FontProcessor.packageNotFound "pkg-missing"
                  +:+ Js.nl)
      as (first & rest & Hlist & Hfailed & Hline)
      by (eexists _, _; split; [vm_compute; reflexivity | split; [discriminate | reflexivity]]).
    rewrite Hlist in Hlines. apply Forall_cons in Hlines as [Hfirst _].
    rewrite <- Hline. by apply Hfirst.
Defined.
